(** * Confidential-Artifact-Auction: the scaffolding and documentation scripts

    A shallow embedding of the three Node scripts of the repository,
    [scripts/create-fhevm-example.ts], [scripts/create-fhevm-category.ts]
    and [scripts/generate-docs.ts], over an explicit model of the file
    system and of the console, together with the properties the
    specification states about them.

    Modelling conventions:
    - a path is the list of its components ([path.join] is list
      concatenation, [path.basename] the last component);
    - the file system is a finite map from paths to nodes, a node being a
      regular file with its content or a directory;
    - a script is a function from the world (files and console) to an
      outcome: normal completion, [process.exit], an uncaught exception,
      or no outcome within the given recursion budget;
    - strings are sequences of one-byte code units. *)

From Stdlib Require Import Ascii String.
From stdpp Require Import base option list gmap strings.

Local Open Scope string_scope.
Local Open Scope list_scope.
Local Open Scope nat_scope.

(** ** The world: file system and console *)

Abbreviation path := (list string).

Inductive node :=
| File (content : string)
| Dir.

Global Instance node_eq_dec : EqDecision node.
Proof. solve_decision. Defined.

Record world := World {
  files : gmap (list string) node;
  console : list string;
}.

(** Uncaught exceptions of the runtime, by their error code or class. *)
Inductive exn :=
| ENOENT | EISDIR | ENOTDIR | EEXIST
| TypeError | SyntaxError.

Inductive outcome (A : Type) :=
| Ret (a : A) (w : world)
| Exit (code : nat) (w : world)
| Throw (e : exn) (w : world)
| Diverge.
Arguments Ret {A} a w.
Arguments Exit {A} code w.
Arguments Throw {A} e w.
Arguments Diverge {A}.

Definition M (A : Type) : Type := world -> outcome A.

Definition ret {A} (a : A) : M A := fun w => Ret a w.

Definition bind {A B} (c : M A) (k : A -> M B) : M B :=
  fun w =>
    match c w with
    | Ret a w' => k a w'
    | Exit code w' => Exit code w'
    | Throw e w' => Throw e w'
    | Diverge => Diverge
    end.

Notation "'let*' x := c 'in' k" := (bind c (fun x => k))
  (at level 10, x name, c at level 100, k at level 200).
Notation "c ;; k" := (bind c (fun _ => k))
  (at level 100, k at level 200, right associativity).

Definition throw {A} (e : exn) : M A := fun w => Throw e w.
Definition diverge {A} : M A := fun _ => Diverge.

(** [items.forEach(f)] for an [f] that has effects only. *)
Fixpoint forEach {A} (f : A -> M unit) (items : list A) : M unit :=
  match items with
  | [] => ret tt
  | x :: rest => f x ;; forEach f rest
  end.

(** ** Terminal output: [log], [error], [success], [info] *)

Inductive Color := Reset | Green | Blue | Yellow | Red | Cyan.

Definition esc : string := String (ascii_of_nat 27) "".

Definition color_code (c : Color) : string :=
  match c with
  | Reset => esc +:+ "[0m"
  | Green => esc +:+ "[32m"
  | Blue => esc +:+ "[34m"
  | Yellow => esc +:+ "[33m"
  | Red => esc +:+ "[31m"
  | Cyan => esc +:+ "[36m"
  end.

(** The line that [console.log(`${color}${message}${Color.Reset}`)] prints. *)
Definition line (color : Color) (message : string) : string :=
  color_code color +:+ message +:+ color_code Reset.

Definition log (message : string) (color : Color) : M unit :=
  fun w => Ret tt (World (files w) (console w ++ [line color message])).

Definition exit {A} (code : nat) : M A := fun w => Exit code w.

Definition error {A} (message : string) : M A :=
  log ("Error: " +:+ message) Red ;; exit 1.

Definition success (message : string) : M unit :=
  log ("Success: " +:+ message) Green.

Definition info (message : string) : M unit :=
  log ("Info: " +:+ message) Blue.

(** ['='.repeat(n)] *)
Fixpoint repeat_str (s : string) (n : nat) : string :=
  match n with
  | O => ""
  | S n' => s +:+ repeat_str s n'
  end.

Definition nl : string := String (ascii_of_nat 10) "".

(** [parts.join(sep)] *)
Fixpoint join (sep : string) (parts : list string) : string :=
  match parts with
  | [] => ""
  | [x] => x
  | x :: rest => x +:+ sep +:+ join sep rest
  end.

(** [args[0] === flag] *)
Definition first_is (args : list string) (flag : string) : bool :=
  match args with
  | a :: _ => String.eqb a flag
  | [] => false
  end.

(** [args[1] || fallback] *)
Definition second_or (args : list string) (fallback : string) : string :=
  match args with
  | _ :: a :: _ => if String.eqb a "" then fallback else a
  | _ => fallback
  end.

(** ** The [fs] module *)

Module FS.

Definition existsSync (p : path) : M bool :=
    fun w => Ret (bool_decide (is_Some (files w !! p))) w.

  (** All prefixes of a path, shortest first, the path itself included. *)
Fixpoint prefixes (p : path) : list path :=
    match p with
    | [] => [[]]
    | x :: rest => [] :: map (cons x) (prefixes rest)
    end.

  (** One step of [mkdir -p]: an absent prefix becomes a directory, a
      directory is kept, a regular file in the way is an error. *)
Definition ensure_dir (fs : gmap (list string) node) (q : path)
    : option (gmap (list string) node) :=
    match fs !! q with
    | None => Some (<[q := Dir]> fs)
    | Some Dir => Some fs
    | Some (File _) => None
    end.

Fixpoint ensure_dirs (qs : list path) (fs : gmap (list string) node)
    : option (gmap (list string) node) :=
    match qs with
    | [] => Some fs
    | q :: rest =>
        match ensure_dir fs q with
        | Some fs' => ensure_dirs rest fs'
        | None => None
        end
    end.

  (** [fs.mkdirSync(p, { recursive: true })] *)
Definition mkdirSync (p : path) : M unit :=
    fun w =>
      match ensure_dirs (prefixes p) (files w) with
      | Some fs' => Ret tt (World fs' (console w))
      | None => Throw EEXIST w
      end.

  (** The last component of [q] when [q] is a child of [p]. *)
Definition child_of (p q : path) : option string :=
    match last q with
    | Some x => if bool_decide (q = p ++ [x]) then Some x else None
    | None => None
    end.

Definition entries (fs : gmap (list string) node) (p : path) : list string :=
    omap (fun kv => child_of p kv.1) (map_to_list fs).

  (** [fs.readdirSync(p)] *)
Definition readdirSync (p : path) : M (list string) :=
    fun w =>
      match files w !! p with
      | Some Dir => Ret (entries (files w) p) w
      | Some (File _) => Throw ENOTDIR w
      | None => Throw ENOENT w
      end.

  (** [fs.statSync(p)], of which the scripts use [isDirectory()] only. *)
Definition statSync (p : path) : M node :=
    fun w =>
      match files w !! p with
      | Some n => Ret n w
      | None => Throw ENOENT w
      end.

Definition isDirectory (n : node) : bool :=
    match n with Dir => true | File _ => false end.

Definition parent (p : path) : path := removelast p.

  (** [fs.writeFileSync(p, content)] *)
Definition writeFileSync (p : path) (content : string) : M unit :=
    fun w =>
      match files w !! p with
      | Some Dir => Throw EISDIR w
      | _ =>
          match files w !! parent p with
          | Some Dir => Ret tt (World (<[p := File content]> (files w)) (console w))
          | Some (File _) => Throw ENOTDIR w
          | None => Throw ENOENT w
          end
      end.

  (** [fs.readFileSync(p, 'utf-8')] *)
Definition readFileSync (p : path) : M string :=
    fun w =>
      match files w !! p with
      | Some (File c) => Ret c w
      | Some Dir => Throw EISDIR w
      | None => Throw ENOENT w
      end.

  (** [fs.copyFileSync(src, dst)] *)
Definition copyFileSync (src dst : path) : M unit :=
    let* c := readFileSync src in writeFileSync dst c.

End FS.

(** ** Regular expressions, with the backtracking semantics of the runtime

    The scripts parse their inputs with regular expressions only.  The
    matcher below follows the order in which the runtime explores
    alternatives: greedy and lazy repetition, left-to-right alternation,
    capture groups that are undone on backtracking, [^] and [$] with or
    without the multiline flag, and the rejection of an empty iteration
    of a repetition. *)

Module Regex.

Inductive regex :=
  | Eps
  | Chr (c : ascii)
  | Class (p : ascii -> bool)
  | Seq (r1 r2 : regex)
  | Alt (r1 r2 : regex)
  | Star (greedy : bool) (r : regex)
  | Group (n : nat) (r : regex)
  | Bol
  | Eol.

  (** [r+], [r?] and a literal word. *)
Definition Plus (r : regex) : regex := Seq r (Star true r).
Definition Opt (r : regex) : regex := Alt r Eps.

Fixpoint lit (s : string) : regex :=
    match s with
    | EmptyString => Eps
    | String c EmptyString => Chr c
    | String c t => Seq (Chr c) (lit t)
    end.

Fixpoint seqs (rs : list regex) : regex :=
    match rs with
    | [] => Eps
    | [r] => r
    | r :: rest => Seq r (seqs rest)
    end.

  (** Character classes. *)
Definition is_space (c : ascii) : bool :=
    let n := nat_of_ascii c in
    ((9 <=? n) && (n <=? 13) || (n =? 32) || (n =? 160))%nat.

Definition is_word (c : ascii) : bool :=
    let n := nat_of_ascii c in
    ((48 <=? n) && (n <=? 57) || (65 <=? n) && (n <=? 90)
     || (97 <=? n) && (n <=? 122) || (n =? 95))%nat.

Definition is_line_terminator (c : ascii) : bool :=
    let n := nat_of_ascii c in ((n =? 10) || (n =? 13))%nat.

Definition ws : regex := Class is_space.                      (* \s *)
Definition word : regex := Class is_word.                     (* \w *)
Definition dot : regex := Class (fun c => negb (is_line_terminator c)).  (* . *)
Definition any : regex := Class (fun _ => true).              (* [\s\S] *)
Definition one_of (s : string) : regex :=
Class (fun c => bool_decide (c ∈ list_ascii_of_string s)).
Definition none_of (s : string) : regex :=
Class (fun c => negb (bool_decide (c ∈ list_ascii_of_string s))).

  (** The state of a match attempt: the character before the current
      position, the input that remains, the position, the captures. *)
Record mstate := MState {
    prev : option ascii;
    rest : string;
    pos : nat;
    caps : list (nat * string);
  }.

Definition at_bol (multiline : bool) (st : mstate) : bool :=
    match prev st with
    | None => true
    | Some c => multiline && is_line_terminator c
    end.

Definition at_eol (multiline : bool) (st : mstate) : bool :=
    match rest st with
    | EmptyString => true
    | String c _ => multiline && is_line_terminator c
    end.

Definition step (p : ascii -> bool) (k : mstate -> option mstate) (st : mstate)
    : option mstate :=
    match rest st with
    | String c t =>
        if p c then k (MState (Some c) t (S (pos st)) (caps st)) else None
    | EmptyString => None
    end.

Definition orelse {A} (x y : option A) : option A :=
    match x with Some _ => x | None => y end.

  (** Repetition of [body]: at most [fuel] iterations, each of which has
      to consume input. *)
Fixpoint star (greedy : bool)
      (body : (mstate -> option mstate) -> mstate -> option mstate)
      (fuel : nat) (k : mstate -> option mstate) (st : mstate) : option mstate :=
    match fuel with
    | O => k st
    | S fuel' =>
        let again :=
          body (fun st' => if pos st' =? pos st then None
                           else star greedy body fuel' k st') st in
        if greedy then orelse again (k st) else orelse (k st) again
    end.

Fixpoint run (multiline : bool) (r : regex) (k : mstate -> option mstate)
      (st : mstate) {struct r} : option mstate :=
    match r with
    | Eps => k st
    | Chr c => step (Ascii.eqb c) k st
    | Class p => step p k st
    | Seq r1 r2 => run multiline r1 (run multiline r2 k) st
    | Alt r1 r2 => orelse (run multiline r1 k st) (run multiline r2 k st)
    | Star greedy r1 =>
        star greedy (run multiline r1) (S (String.length (rest st))) k st
    | Group n r1 =>
        run multiline r1
          (fun st' =>
             k (MState (prev st') (rest st') (pos st')
                  ((n, substring 0 (pos st' - pos st) (rest st)) :: caps st')))
          st
    | Bol => if at_bol multiline st then k st else None
    | Eol => if at_eol multiline st then k st else None
    end.

  (** A successful match: where it starts and ends, the matched text
      and the captures. *)
Record result := Result {
    index : nat;
    endIndex : nat;
    matched : string;
    groups : list (nat * string);
  }.

  (** [match[n]]: the text of group [n], [None] for [undefined]. *)
Definition group (n : nat) (m : result) : option string :=
    snd <$> find (fun c => fst c =? n) (groups m).

Definition match_here (multiline : bool) (r : regex) (st : mstate) : option result :=
    match run multiline r Some st with
    | Some st' =>
        Some (Result (pos st) (pos st')
                (substring 0 (pos st' - pos st) (rest st)) (caps st'))
    | None => None
    end.

  (** The leftmost match at or after the position of [st]. *)
Fixpoint search (multiline : bool) (r : regex) (p : option ascii) (s : string)
      (i : nat) : option result :=
    match match_here multiline r (MState p s i []) with
    | Some m => Some m
    | None =>
        match s with
        | String c t => search multiline r (Some c) t (S i)
        | EmptyString => None
        end
    end.

  (** The state at index [i] of [s], if [i] is within [s]. *)
Fixpoint seek (p : option ascii) (s : string) (i : nat) (n : nat) {struct n}
    : option (option ascii * string * nat) :=
    match n with
    | O => Some (p, s, i)
    | S n' =>
        match s with
        | String c t => seek (Some c) t (S i) n'
        | EmptyString => None
        end
    end.

  (** [re.exec(s)] with [re.lastIndex = lastIndex]. *)
Definition exec (multiline : bool) (r : regex) (s : string) (lastIndex : nat)
    : option result :=
    match seek None s 0 lastIndex with
    | Some (p, s', i) => search multiline r p s' i
    | None => None
    end.

  (** [s.match(re)] for a regular expression without the global flag. *)
Definition match_first (multiline : bool) (r : regex) (s : string) : option result :=
    exec multiline r s 0.

  (** The loop [while ((m = re.exec(s)) !== null) { ... }] of a global
      regular expression: the next search starts where the match ended,
      so a regular expression that matched the empty string would be
      matched at the same place for ever. *)
Fixpoint exec_loop (fuel : nat) (multiline : bool) (r : regex) (s : string)
      (lastIndex : nat) : option (list result) :=
    match fuel with
    | O => None
    | S fuel' =>
        match exec multiline r s lastIndex with
        | None => Some []
        | Some m => cons m <$> exec_loop fuel' multiline r s (endIndex m)
        end
    end.

  (** [s.matchAll(re)]: as above, except that the search moves one
      position forward after an empty match. *)
Fixpoint matchAll_from (fuel : nat) (multiline : bool) (r : regex) (s : string)
      (lastIndex : nat) : list result :=
    match fuel with
    | O => []
    | S fuel' =>
        match exec multiline r s lastIndex with
        | None => []
        | Some m =>
            let next := if endIndex m =? index m then S (endIndex m) else endIndex m in
            m :: matchAll_from fuel' multiline r s next
        end
    end.

Definition matchAll (multiline : bool) (r : regex) (s : string) : list result :=
    matchAll_from (S (S (String.length s))) multiline r s 0.

  (** [s.replace(re, '')] for a global regular expression: what is left
      of [s] between the matches. *)
Fixpoint remove_matches (s : string) (from : nat) (ms : list result) : string :=
    match ms with
    | [] => substring from (String.length s - from) s
    | m :: rest => substring from (index m - from) s +:+ remove_matches s (endIndex m) rest
    end.

Definition remove_all (multiline : bool) (r : regex) (s : string) : string :=
    remove_matches s 0 (matchAll multiline r s).

  (** [s.replace(re, '')] without the global flag: the first match only. *)
Definition remove_first (multiline : bool) (r : regex) (s : string) : string :=
    match match_first multiline r s with
    | Some m => remove_matches s 0 [m]
    | None => s
    end.

End Regex.

(** ** String methods *)

(** [s.split('\n')] *)
Fixpoint split_lines (s : string) : list string :=
  match s with
  | EmptyString => [""]
  | String c t =>
      if Ascii.eqb c (ascii_of_nat 10) then "" :: split_lines t
      else match split_lines t with
           | l :: ls => String c l :: ls
           | [] => [String c ""]
           end
  end.

(** The truth value of [s.trim()]: some character of [s] is not white space. *)
Fixpoint trim_nonempty (s : string) : bool :=
  match s with
  | EmptyString => false
  | String c t => negb (Regex.is_space c) || trim_nonempty t
  end.

(** [s.includes(t)] *)
Fixpoint includes (t s : string) : bool :=
  String.prefix t s ||
  match s with
  | EmptyString => false
  | String _ s' => includes t s'
  end.

(** ** Paths *)

(** The components of a relative path written with [/]. *)
Fixpoint split_on (sep : ascii) (s : string) : list string :=
  match s with
  | EmptyString => [""]
  | String c t =>
      if Ascii.eqb c sep then "" :: split_on sep t
      else match split_on sep t with
           | l :: ls => String c l :: ls
           | [] => [String c ""]
           end
  end.

Definition split_path (s : string) : path :=
  filter (fun x => x ≠ "") (split_on "/"%char s).

(** [path.join(dir, rel)] for a directory given by its components. *)
Definition path_join (dir : path) (rel : string) : path := dir ++ split_path rel.

(** [path.basename(rel)] *)
Definition basename (rel : string) : string := default "" (last (split_path rel)).

Definition show_path (p : path) : string := "/" +:+ join "/" p.

(** [path.resolve(cwd, s)]: the components of [s] are followed from the
    root when [s] starts with [/], from [cwd] otherwise; [.] stays in
    place and [..] goes one level up. *)
Definition walk (p : path) (component : string) : path :=
  if bool_decide (component = "" ∨ component = ".") then p
  else if bool_decide (component = "..") then removelast p
  else p ++ [component].

Definition resolve (cwd : path) (s : string) : path :=
  foldl walk (if String.prefix "/" s then [] else cwd) (split_on "/"%char s).

(** [path.relative(from, to)] *)
Fixpoint relative_parts (from to : path) : path :=
  match from, to with
  | x :: from', y :: to' =>
      if bool_decide (x = y) then relative_parts from' to'
      else map (fun _ => "..") from ++ to
  | _, _ => map (fun _ => "..") from ++ to
  end.

Definition relative (from to : path) : string := join "/" (relative_parts from to).

(** ** Objects of the runtime *)

(** Reading a property [key] of an object written as a literal: the
    object's own entry, else a member inherited from [Object.prototype],
    else [undefined]. *)
Inductive property (A : Type) :=
| Own (a : A)
| Inherited
| Undefined.
Arguments Own {A} a.
Arguments Inherited {A}.
Arguments Undefined {A}.

Definition object_prototype : list string :=
  [ "constructor"; "__proto__"; "hasOwnProperty"; "isPrototypeOf";
    "propertyIsEnumerable"; "toLocaleString"; "toString"; "valueOf";
    "__defineGetter__"; "__defineSetter__"; "__lookupGetter__";
    "__lookupSetter__" ].

Fixpoint assoc {A} (key : string) (obj : list (string * A)) : option A :=
  match obj with
  | [] => None
  | (k, v) :: rest => if String.eqb k key then Some v else assoc key rest
  end.

Definition js_get {A} (obj : list (string * A)) (key : string) : property A :=
  match assoc key obj with
  | Some v => Own v
  | None =>
      if bool_decide (key ∈ object_prototype) then Inherited else Undefined
  end.

(** JSON values.  A number is kept as the text of its literal. *)
#[local] Set Warnings "-register-all".
Inductive json :=
| JNull
| JBool (b : bool)
| JNum (literal : string)
| JStr (s : string)
| JArr (items : list json)
| JObj (fields : list (string * json)).

(** [obj[key] = v] on the fields of an object: an existing key keeps its
    place, a new key goes last. *)
Fixpoint assoc_set {A} (key : string) (v : A) (obj : list (string * A))
  : list (string * A) :=
  match obj with
  | [] => [(key, v)]
  | (k, x) :: rest =>
      if String.eqb k key then (k, v) :: rest else (k, x) :: assoc_set key v rest
  end.

(** [value.key = v] for a parsed JSON [value]: an object gets the field;
    an array gets a property that serialisation ignores; [null] and the
    primitive values raise a [TypeError]. *)
Definition set_field (key : string) (v : json) (value : json) : option json :=
  match value with
  | JObj fields => Some (JObj (assoc_set key v fields))
  | JArr items => Some (JArr items)
  | _ => None
  end.

Definition get_field (key : string) (value : json) : option json :=
  match value with
  | JObj fields => assoc key fields
  | _ => None
  end.

Definition dq : string := String (ascii_of_nat 34) "".
Definition bq : string := "`".

(** Directory names that neither generator descends into. *)
Definition skipDirs : list string :=
  ["node_modules"; "artifacts"; "cache"; "coverage"; "types"; "dist"; "fhevmTemp"].

(** ** [scripts/create-fhevm-example.ts] *)

Module Example.

Record ExampleConfig := {
    contract : string;
    test : string;
    description : string;
    category : string;
  }.

Definition EXAMPLES_MAP : list (string * ExampleConfig) :=
    [ ("artifact-auction",
       {| contract := "contracts/ArtifactAuction.sol";
          test := "test/ArtifactAuction.ts";
          description :=
            "Confidential artifact auction with encrypted bids and authentication";
          category := "advanced" |}) ].

  (** [/^\s*contract\s+(\w+)(?:\s+is\s+|\s*\{)/m] *)
Definition contractRegex : Regex.regex :=
    Regex.seqs
      [ Regex.Bol; Regex.Star true Regex.ws; Regex.lit "contract";
        Regex.Plus Regex.ws; Regex.Group 1 (Regex.Plus Regex.word);
        Regex.Alt
          (Regex.seqs [Regex.Plus Regex.ws; Regex.lit "is"; Regex.Plus Regex.ws])
          (Regex.seqs [Regex.Star true Regex.ws; Regex.Chr "{"]) ].

  (** The name that [getContractName] finds in the text of a contract. *)
Definition contractNameOf (content : string) : option string :=
    match Regex.match_first true contractRegex content with
    | Some m => Regex.group 1 m
    | None => None
    end.

Definition getContractName (contractPath : path) : M (option string) :=
    let* content := FS.readFileSync contractPath in
    ret (contractNameOf content).

Definition generateReadme (exampleName description contractName : string) : string :=
    "# FHEVM Example: " +:+ exampleName +:+ "

" +:+ description +:+ "

## Quick Start

### Installation

```bash
npm install
npm run compile
npm run test
```

## Contract

Main contract: `" +:+ contractName +:+ "` in `contracts/" +:+ contractName +:+ ".sol`

## Documentation

- [FHEVM Docs](https://docs.zama.ai/fhevm)
- [Hardhat](https://hardhat.org)

## License

MIT License
".

  Section Scripts.

    (** The JSON codec of the runtime: [JSON.parse], which fails on text
        that is not JSON, and [JSON.stringify(value, null, 2)]. *)
    Variable JSON_parse : string -> option json.
    Variable JSON_stringify : json -> string.

    (** The directory above the one that holds the script, and the
        working directory of the process. *)
    Variable rootDir : path.
    Variable cwd : path.

Fixpoint copyDirectoryRecursive (fuel : nat) (source destination : path)
        (skipFiles : list string) : M unit :=
      match fuel with
      | O => diverge
      | S fuel' =>
          let* present := FS.existsSync destination in
          (if present then ret tt else FS.mkdirSync destination) ;;
          let* items := FS.readdirSync source in
          forEach
            (fun item =>
               if bool_decide (item ∈ skipFiles) then ret tt
               else
                 let sourcePath := source ++ [item] in
                 let destPath := destination ++ [item] in
                 let* stat := FS.statSync sourcePath in
                 if FS.isDirectory stat then
                   if bool_decide (item ∈ skipDirs) then ret tt
                   else copyDirectoryRecursive fuel' sourcePath destPath skipFiles
                 else FS.copyFileSync sourcePath destPath)
            items
      end.

Definition updatePackageJson (outputDir : path) (exampleName description : string)
      : M unit :=
      let packageJsonPath := outputDir ++ ["package.json"] in
      let* text := FS.readFileSync packageJsonPath in
      match JSON_parse text with
      | None => throw SyntaxError
      | Some packageJson =>
          match set_field "name" (JStr ("fhevm-" +:+ exampleName)) packageJson with
          | None => throw TypeError
          | Some packageJson1 =>
              match set_field "description" (JStr description) packageJson1 with
              | None => throw TypeError
              | Some packageJson2 =>
                  FS.writeFileSync packageJsonPath (JSON_stringify packageJson2)
              end
          end
      end.

Definition createExample (fuel : nat) (exampleName outputDir : string)
      : M unit :=
      match js_get EXAMPLES_MAP exampleName with
      | Undefined => error ("Unknown example: " +:+ exampleName)
      | Inherited =>
          (* [example.contract] is [undefined], which [path.join] rejects *)
          throw TypeError
      | Own example =>
          let contractPath := path_join rootDir (contract example) in
          let testPath := path_join rootDir (test example) in
          let* hasContract := FS.existsSync contractPath in
          (if hasContract then ret tt
           else error ("Contract not found: " +:+ contract example)) ;;
          let* hasTest := FS.existsSync testPath in
          (if hasTest then ret tt
           else error ("Test not found: " +:+ test example)) ;;
          info ("Creating example: " +:+ exampleName) ;;
          log (nl +:+ "Copying template...") Cyan ;;
          let* present := FS.existsSync (resolve cwd outputDir) in
          (if present then error ("Directory exists: " +:+ outputDir)
           else ret tt) ;;
          copyDirectoryRecursive fuel rootDir (resolve cwd outputDir) ["scripts"] ;;
          success "Template copied" ;;
          let* found := getContractName contractPath in
          match found with
          | None | Some "" => error "Could not extract contract name"
          | Some contractName =>
              log (nl +:+ "Updating configuration...") Cyan ;;
              updatePackageJson (resolve cwd outputDir) exampleName
                (description example) ;;
              success "Configuration updated" ;;
              log (nl +:+ "Generating documentation...") Cyan ;;
              let readme :=
                generateReadme exampleName (description example) contractName in
              FS.writeFileSync (resolve cwd outputDir ++ ["README.md"]) readme ;;
              success "Documentation generated" ;;
              log (nl +:+ repeat_str "=" 60) Green ;;
              success ("Example created: " +:+ exampleName) ;;
              log (repeat_str "=" 60) Green ;;
              log (nl +:+ "Next steps:") Yellow ;;
              log ("  cd " +:+ relative cwd (resolve cwd outputDir)) Reset ;;
              log "  npm install" Reset ;;
              log "  npm run compile" Reset ;;
              log "  npm run test" Reset
          end
      end.

    (** [main], on [process.argv.slice(2)]. *)
Definition main (fuel : nat) (args : list string) : M unit :=
      if bool_decide (args = []) || first_is args "--help" then
        log ("FHEVM Example Generator" +:+ nl) Cyan ;;
        log ("Usage: npx ts-node scripts/create-fhevm-example.ts <name> [output-dir]"
             +:+ nl) Reset ;;
        log "Available examples:" Yellow ;;
        forEach
          (fun entry : string * ExampleConfig =>
             log ("  " +:+ entry.1) Green ;;
             log ("    " +:+ description entry.2) Reset)
          EXAMPLES_MAP ;;
        exit 0
      else
        let exampleName := default "" (head args) in
        let outputDir :=
          second_or args (show_path cwd +:+ "/output/fhevm-" +:+ exampleName) in
        createExample fuel exampleName outputDir.

  End Scripts.

End Example.

(** ** [scripts/create-fhevm-category.ts] *)

Module Category.

Record CategoryConfig := {
    name : string;
    description : string;
    examples : list string;
  }.

Definition CATEGORIES : list (string * CategoryConfig) :=
    [ ("basic",
       {| name := "Basic FHEVM Examples";
          description := "Fundamental examples demonstrating basic FHE operations";
          examples := ["counter"; "fhe-counter"] |});
      ("advanced",
       {| name := "Advanced FHEVM Examples";
          description := "Complex examples showing real-world applications";
          examples := ["artifact-auction"] |});
      ("access-control",
       {| name := "Access Control Examples";
          description := "Examples demonstrating FHE access control patterns";
          examples := [] |});
      ("encryption",
       {| name := "Encryption Examples";
          description := "Examples showing encryption and decryption workflows";
          examples := [] |}) ].

Record ExampleInfo := {
    contract : string;
    test : string;
    info_description : string;
  }.

Definition EXAMPLES : list (string * ExampleInfo) :=
    [ ("counter",
       {| contract := "contracts/Counter.sol";
          test := "test/Counter.ts";
          info_description := "Simple non-encrypted counter for comparison" |});
      ("fhe-counter",
       {| contract := "base-template/contracts/FHECounter.sol";
          test := "base-template/test/FHECounter.ts";
          info_description := "Encrypted counter using FHEVM" |});
      ("artifact-auction",
       {| contract := "contracts/ArtifactAuction.sol";
          test := "test/ArtifactAuction.ts";
          info_description := "Confidential artifact auction system" |}) ].

  (** [EXAMPLES[ex]?.description] *)
Definition description_of (ex : string) : option string :=
    match js_get EXAMPLES ex with
    | Own exampleInfo => Some (info_description exampleInfo)
    | _ => None
    end.

  (** [x || fallback] for a string that may be [undefined]. *)
Definition or_else (x : option string) (fallback : string) : string :=
    match x with
    | None | Some "" => fallback
    | Some s => s
    end.

Definition generateCategoryReadme (categoryName : string) (config : CategoryConfig)
    : string :=
    "# " +:+ name config +:+ "

" +:+ description config +:+ "

## Examples Included

" +:+ join nl (map (fun ex => "- **" +:+ ex +:+ "**: "
                              +:+ or_else (description_of ex) "Example")
                   (examples config)) +:+ "

## Getting Started

### Prerequisites

- Node.js >= 20
- npm >= 7.0.0

### Installation

```bash
npm install
```

### Compile All Examples

```bash
npm run compile
```

### Run All Tests

```bash
npm run test
```

## Individual Examples

Each example can be found in its respective directory:

" +:+ join nl (map (fun ex => "- `examples/" +:+ ex +:+ "/`") (examples config)) +:+ "

## Project Structure

```
" +:+ categoryName +:+ "/
├── examples/
" +:+ join nl (map (fun ex => "│   ├── " +:+ ex +:+ "/" +:+ nl
                              +:+ "│   │   ├── contracts/" +:+ nl
                              +:+ "│   │   └── test/")
                   (examples config)) +:+ "
├── hardhat.config.ts
├── package.json
└── README.md
```

## Documentation

For detailed documentation on each example, see the README in each example directory.

## Resources

- [FHEVM Documentation](https://docs.zama.ai/fhevm)
- [Hardhat Documentation](https://hardhat.org)
- [Zama Community](https://www.zama.ai/community)

## License

MIT License
".

  (** The README of one member. *)
Definition exampleReadme (exampleName : string) (exampleInfo : ExampleInfo) : string :=
    "# " +:+ exampleName +:+ "

" +:+ info_description exampleInfo +:+ "

## Files

- `contracts/" +:+ basename (contract exampleInfo) +:+ "`
- `test/" +:+ basename (test exampleInfo) +:+ "`

## Running

```bash
npm run compile
npm run test
```
".

  (** [copyDirectoryRecursive] as this script declares it: without a
      list of names to pass over.  Nothing in the script calls it. *)
Fixpoint copyDirectoryRecursive (fuel : nat) (source destination : path) : M unit :=
    match fuel with
    | O => diverge
    | S fuel' =>
        let* present := FS.existsSync destination in
        (if present then ret tt else FS.mkdirSync destination) ;;
        let* items := FS.readdirSync source in
        forEach
          (fun item =>
             let sourcePath := source ++ [item] in
             let destPath := destination ++ [item] in
             let* stat := FS.statSync sourcePath in
             if FS.isDirectory stat then
               if bool_decide (item ∈ skipDirs) then ret tt
               else copyDirectoryRecursive fuel' sourcePath destPath
             else FS.copyFileSync sourcePath destPath)
          items
    end.

  (** The configuration files taken from the base template. *)
Definition templateFiles : list string :=
    [ "hardhat.config.ts"; "package.json"; "tsconfig.json"; ".gitignore";
      ".eslintrc.yml"; ".prettierrc.yml" ].

  Section Scripts.

    Variable JSON_parse : string -> option json.
    Variable JSON_stringify : json -> string.
    Variable rootDir : path.
    Variable cwd : path.

    (** The body of [category.examples.forEach]. *)
Definition copyExample (out : path) (exampleName : string) : M unit :=
      match js_get EXAMPLES exampleName with
      | Undefined =>
          log ("Warning: Example " +:+ exampleName +:+ " not found") Yellow
      | Inherited =>
          let exampleDir := out ++ ["examples"] ++ split_path exampleName in
          FS.mkdirSync exampleDir ;;
          FS.mkdirSync (exampleDir ++ ["contracts"]) ;;
          FS.mkdirSync (exampleDir ++ ["test"]) ;;
          (* [exampleInfo.contract] is [undefined], which [path.join] rejects *)
          throw TypeError
      | Own exampleInfo =>
          let exampleDir := out ++ ["examples"] ++ split_path exampleName in
          FS.mkdirSync exampleDir ;;
          FS.mkdirSync (exampleDir ++ ["contracts"]) ;;
          FS.mkdirSync (exampleDir ++ ["test"]) ;;
          let contractPath := path_join rootDir (contract exampleInfo) in
          let* hasContract := FS.existsSync contractPath in
          (if hasContract then
             let contractName := basename (contract exampleInfo) in
             FS.copyFileSync contractPath (exampleDir ++ ["contracts"; contractName]) ;;
             success ("Copied contract: " +:+ contractName)
           else ret tt) ;;
          let testPath := path_join rootDir (test exampleInfo) in
          let* hasTest := FS.existsSync testPath in
          (if hasTest then
             let testName := basename (test exampleInfo) in
             FS.copyFileSync testPath (exampleDir ++ ["test"; testName]) ;;
             success ("Copied test: " +:+ testName)
           else ret tt) ;;
          FS.writeFileSync (exampleDir ++ ["README.md"])
            (exampleReadme exampleName exampleInfo)
      end.

    (** Step 1 of [createCategory]: the destination and the files of the
        base template. *)
Definition createStructure (categoryName outputDir : string) : M unit :=
      let out := resolve cwd outputDir in
      info ("Creating category: " +:+ categoryName) ;;
      info ("Output directory: " +:+ outputDir) ;;
      log (nl +:+ "Step 1: Creating project structure...") Cyan ;;
      let* present := FS.existsSync out in
      (if present then error ("Output directory already exists: " +:+ outputDir)
       else ret tt) ;;
      FS.mkdirSync out ;;
      FS.mkdirSync (out ++ ["examples"]) ;;
      let baseTemplatePath := rootDir ++ ["base-template"] in
      let* hasTemplate := FS.existsSync baseTemplatePath in
      (if hasTemplate then
         forEach
           (fun file =>
              let sourcePath := baseTemplatePath ++ [file] in
              let* hasFile := FS.existsSync sourcePath in
              if hasFile then FS.copyFileSync sourcePath (out ++ [file]) else ret tt)
           templateFiles
       else ret tt) ;;
      success "Project structure created" ;;
      log (nl +:+ "Step 2: Copying examples...") Cyan.

    (** Step 3 of [createCategory] and what follows it. *)
Definition finishCategory (categoryName outputDir : string)
        (category : CategoryConfig) : M unit :=
      let out := resolve cwd outputDir in
      log (nl +:+ "Step 3: Generating documentation...") Cyan ;;
      let readme := generateCategoryReadme categoryName category in
      FS.writeFileSync (out ++ ["README.md"]) readme ;;
      success "Documentation generated" ;;
      let packageJsonPath := out ++ ["package.json"] in
      let* hasManifest := FS.existsSync packageJsonPath in
      (if hasManifest then
         let* text := FS.readFileSync packageJsonPath in
         match JSON_parse text with
         | None => throw SyntaxError
         | Some packageJson =>
             match set_field "name"
                     (JStr ("fhevm-" +:+ categoryName +:+ "-examples")) packageJson with
             | None => throw TypeError
             | Some packageJson1 =>
                 match set_field "description" (JStr (description category))
                         packageJson1 with
                 | None => throw TypeError
                 | Some packageJson2 =>
                     FS.writeFileSync packageJsonPath (JSON_stringify packageJson2)
                 end
             end
         end
       else ret tt) ;;
      log (nl +:+ repeat_str "=" 70) Green ;;
      success ("Category " +:+ dq +:+ categoryName +:+ dq +:+ " created successfully!") ;;
      log (repeat_str "=" 70) Green ;;
      log (nl +:+ "Next steps:") Yellow ;;
      log ("  cd " +:+ relative cwd out) Reset ;;
      log "  npm install" Reset ;;
      log "  npm run compile" Reset ;;
      log "  npm run test" Reset ;;
      log (nl +:+ "Category includes:") Cyan ;;
      forEach
        (fun ex =>
           log ("  - " +:+ ex +:+ ": " +:+ default "undefined" (description_of ex)) Reset)
        (examples category).

Definition createCategory (categoryName outputDir : string) : M unit :=
      match js_get CATEGORIES categoryName with
      | Undefined =>
          error ("Unknown category: " +:+ categoryName +:+ nl +:+ nl
                 +:+ "Available categories:" +:+ nl
                 +:+ join nl (map (fun k => "  - " +:+ k) (map fst CATEGORIES)))
      | Inherited =>
          createStructure categoryName outputDir ;;
          (* [category.examples] is [undefined] and has no [forEach] *)
          throw TypeError
      | Own category =>
          createStructure categoryName outputDir ;;
          forEach (copyExample (resolve cwd outputDir)) (examples category) ;;
          finishCategory categoryName outputDir category
      end.

Definition main (args : list string) : M unit :=
      if bool_decide (args = []) || first_is args "--help" || first_is args "-h" then
        log ("FHEVM Category Generator" +:+ nl) Cyan ;;
        log ("Usage: npx ts-node scripts/create-fhevm-category.ts <category> [output-dir]"
             +:+ nl) Reset ;;
        log "Available categories:" Yellow ;;
        forEach
          (fun entry : string * CategoryConfig =>
             log ("  " +:+ entry.1) Green ;;
             log ("    " +:+ description entry.2) Reset ;;
             log ("    Examples: " +:+ join ", " (examples entry.2)) Blue)
          CATEGORIES ;;
        log (nl +:+ "Example:") Yellow ;;
        log ("  npx ts-node scripts/create-fhevm-category.ts basic ./output/basic-examples"
             +:+ nl) Reset ;;
        exit 0
      else
        let categoryName := default "" (head args) in
        let outputDir :=
          second_or args
            (show_path cwd +:+ "/output/fhevm-" +:+ categoryName +:+ "-examples") in
        createCategory categoryName outputDir.

  End Scripts.

End Category.

(** ** [scripts/generate-docs.ts] *)

Module Docs.

Record TestDescription := {
    title : string;
    description : string;
    context : string;
  }.

  (** [/describe\(['"`](.*?)['"`],\s*function\s*\(\)/g] *)
Definition describeRegex : Regex.regex :=
    Regex.seqs
      [ Regex.lit "describe("; Regex.one_of ("'`" +:+ dq);
        Regex.Group 1 (Regex.Star false Regex.dot);
        Regex.one_of ("'`" +:+ dq); Regex.Chr ",";
        Regex.Star true Regex.ws; Regex.lit "function";
        Regex.Star true Regex.ws; Regex.lit "()" ].

  (** [/\/\*\*[\s\S]*?\*\//g] *)
Definition jsDocRegex : Regex.regex :=
    Regex.seqs [ Regex.lit "/**"; Regex.Star false Regex.any; Regex.lit "*/" ].

  (** [/\/\*\*|^\s*\*\/$/gm] *)
Definition delimiterRegex : Regex.regex :=
    Regex.Alt (Regex.lit "/**")
      (Regex.seqs [ Regex.Bol; Regex.Star true Regex.ws; Regex.lit "*/"; Regex.Eol ]).

  (** [/^\s*\*\s?/] *)
Definition markerRegex : Regex.regex :=
    Regex.seqs
      [ Regex.Bol; Regex.Star true Regex.ws; Regex.Chr "*"; Regex.Opt Regex.ws ].

  (** The text made of a matched comment: the chain of [replace],
      [split], [filter], [map] and [join]. *)
Definition cleanComment (lastJsDoc : string) : string :=
    join nl
      (map (Regex.remove_first false markerRegex)
         (filter (fun line => trim_nonempty line = true)
            (split_lines (Regex.remove_all true delimiterRegex lastJsDoc)))).

  (** The body of the loop over the [describe] declarations: the entry
      pushed for one match, if any. *)
Definition describeEntry (content : string) (m : Regex.result)
    : option TestDescription :=
    let context := default "" (Regex.group 1 m) in
    let beforeContent := substring 0 (Regex.index m) content in
    let jsDocMatches := Regex.matchAll false jsDocRegex beforeContent in
    match last jsDocMatches with
    | Some lastJsDoc =>
        Some {| title := context;
                description := cleanComment (Regex.matched lastJsDoc);
                context := context |}
    | None => None
    end.

  (** The descriptions that [extractTestDescriptions] finds in the text
      of a test file; [None] when the loop over the declarations does
      not end. *)
Definition testDescriptionsOf (content : string) : option (list TestDescription) :=
    match Regex.exec_loop (S (String.length content)) false describeRegex content 0 with
    | Some describes => Some (omap (describeEntry content) describes)
    | None => None
    end.

Definition extractTestDescriptions (filePath : path) : M (list TestDescription) :=
    let* content := FS.readFileSync filePath in
    match testDescriptionsOf content with
    | Some descriptions => ret descriptions
    | None => diverge
    end.

  (** [/\/\/\/\s*(.*?)\n/] *)
Definition docLineRegex : Regex.regex :=
    Regex.seqs
      [ Regex.lit "///"; Regex.Star true Regex.ws;
        Regex.Group 1 (Regex.Star false Regex.dot); Regex.Chr (ascii_of_nat 10) ].

  (** [/^\s*(public|private)?\s*(\w+)\s+(\w+)/gm] *)
Definition varRegex : Regex.regex :=
    Regex.seqs
      [ Regex.Bol; Regex.Star true Regex.ws;
        Regex.Opt (Regex.Group 1 (Regex.Alt (Regex.lit "public") (Regex.lit "private")));
        Regex.Star true Regex.ws; Regex.Group 2 (Regex.Plus Regex.word);
        Regex.Plus Regex.ws; Regex.Group 3 (Regex.Plus Regex.word) ].

  (** [/function\s+(\w+)\s*\([^)]*\)\s*(public|external|internal|private)?\s*(view|pure)?\s*(returns\s*\([^)]*\))?/g] *)
Definition functionRegex : Regex.regex :=
    Regex.seqs
      [ Regex.lit "function"; Regex.Plus Regex.ws;
        Regex.Group 1 (Regex.Plus Regex.word); Regex.Star true Regex.ws;
        Regex.Chr "("; Regex.Star true (Regex.none_of ")"); Regex.Chr ")";
        Regex.Star true Regex.ws;
        Regex.Opt (Regex.Group 2
          (Regex.Alt (Regex.lit "public")
             (Regex.Alt (Regex.lit "external")
                (Regex.Alt (Regex.lit "internal") (Regex.lit "private")))));
        Regex.Star true Regex.ws;
        Regex.Opt (Regex.Group 3 (Regex.Alt (Regex.lit "view") (Regex.lit "pure")));
        Regex.Star true Regex.ws;
        Regex.Opt (Regex.Group 4
          (Regex.seqs
             [ Regex.lit "returns"; Regex.Star true Regex.ws; Regex.Chr "(";
               Regex.Star true (Regex.none_of ")"); Regex.Chr ")" ])) ].

  (** [s1 + s2 + ...] *)
Definition concat (parts : list string) : string := join "" parts.

  (** The markdown that [generateContractDoc] builds from the texts of
      the contract and of its test; [None] when one of its loops does
      not end. *)
Definition contractDocOf (contractName contractContent testContent : string)
    : option string :=
    match testDescriptionsOf testContent with
    | None => None
    | Some testDescriptions =>
        let doc := "# " +:+ contractName +:+ nl +:+ nl in
        let doc :=
          match Regex.match_first false docLineRegex contractContent with
          | Some jsDocMatch =>
              doc +:+ default "" (Regex.group 1 jsDocMatch) +:+ nl +:+ nl
          | None => doc
          end in
        let doc := doc +:+ "## Overview" +:+ nl +:+ nl in
        let doc :=
          doc +:+ "**File:** `contracts/" +:+ contractName +:+ ".sol`" +:+ nl +:+ nl in
        let doc :=
          match testDescriptions with
          | [] => doc
          | _ =>
              doc +:+ "## Functionality" +:+ nl +:+ nl
              +:+ concat
                    (map (fun t => "### " +:+ title t +:+ nl +:+ nl
                                   +:+ description t +:+ nl +:+ nl)
                       testDescriptions)
          end in
        let doc := doc +:+ "## Contract Structure" +:+ nl +:+ nl in
        let doc := doc +:+ "### State Variables" +:+ nl +:+ nl in
        match Regex.exec_loop (S (String.length contractContent)) true varRegex
                contractContent 0 with
        | None => None
        | Some varMatches =>
            let doc :=
              doc +:+ concat
                (map (fun varMatch =>
                        "- `" +:+ default "" (Regex.group 2 varMatch) +:+ " "
                        +:+ default "" (Regex.group 3 varMatch) +:+ "`" +:+ nl)
                   varMatches) in
            let doc :=
              match varMatches with
              | [] => doc +:+ "No public state variables." +:+ nl
              | _ => doc
              end in
            let doc := doc +:+ nl +:+ "### Functions" +:+ nl +:+ nl in
            match Regex.exec_loop (S (String.length contractContent)) false
                    functionRegex contractContent 0 with
            | None => None
            | Some funcMatches =>
                let doc :=
                  doc +:+ concat
                    (map (fun funcMatch =>
                            let funcName := default "" (Regex.group 1 funcMatch) in
                            let visibility :=
                              match Regex.group 2 funcMatch with
                              | None | Some "" => "internal"
                              | Some v => v
                              end in
                            "- `" +:+ funcName +:+ "` (" +:+ visibility +:+ ")" +:+ nl)
                       funcMatches) in
                let doc :=
                  match funcMatches with
                  | [] => doc +:+ "No public functions." +:+ nl
                  | _ => doc
                  end in
                let doc := doc +:+ nl +:+ "## Testing" +:+ nl +:+ nl in
                let doc := doc +:+ "Run tests with:" +:+ nl +:+ nl in
                let doc :=
                  doc +:+ "```bash" +:+ nl +:+ "npm run test" +:+ nl +:+ "```"
                  +:+ nl +:+ nl in
                Some doc
            end
        end
    end.

Definition generateContractDoc (contractName : string) (contractPath testPath : path)
    : M string :=
    let* contractContent := FS.readFileSync contractPath in
    let* testContent := FS.readFileSync testPath in
    match contractDocOf contractName contractContent testContent with
    | Some doc => ret doc
    | None => diverge
    end.

Definition generateSummary : string :=
    "# Summary" +:+ nl +:+ nl
    +:+ "## Introduction" +:+ nl +:+ nl
    +:+ "* [Introduction](README.md)" +:+ nl +:+ nl
    +:+ "## Examples" +:+ nl +:+ nl
    +:+ "* [Artifact Auction](docs/artifact-auction.md)" +:+ nl +:+ nl
    +:+ "## Development" +:+ nl +:+ nl
    +:+ "* [Developer Guide](DEVELOPER_GUIDE.md)" +:+ nl
    +:+ "* [API Reference](docs/api.md)" +:+ nl.

Definition apiDoc : string :=
    "# API Reference

## ArtifactAuction Contract

### Core Functions

#### createAuction
Creates a new artifact auction.

```solidity
function createAuction(
    string memory _name,
    string memory _description,
    string memory _category,
    uint256 _minimumBid,
    uint256 _auctionDuration,
    uint256 _yearCreated,
    string memory _provenance
) external returns (uint32)
```

#### authenticateArtifact
Authenticates an artifact in an auction.

```solidity
function authenticateArtifact(uint32 auctionId)
    external
    onlyAuthenticator
```

#### placeBid
Places an encrypted bid on an auction.

```solidity
function placeBid(uint32 auctionId, uint64 _bidAmount)
    external
    auctionExists(auctionId)
    auctionActive(auctionId)
```

#### endAuction
Ends an auction and requests bid decryption.

```solidity
function endAuction(uint32 auctionId) external
```

### View Functions

- `getAuctionInfo(uint32 auctionId)` - Get auction details
- `getArtifactDetails(uint32 auctionId)` - Get artifact information
- `getBidStatus(uint32 auctionId, address bidder)` - Get bid status
- `getAuctionResults(uint32 auctionId)` - Get auction results
- `getActiveAuctions()` - Get all active auction IDs

### Events

- `AuctionCreated` - Emitted when auction is created
- `ConfidentialBidPlaced` - Emitted when bid is placed
- `AuctionEnded` - Emitted when auction ends
- `ArtifactAuthenticated` - Emitted when artifact is authenticated
- `EarningsWithdrawn` - Emitted when seller withdraws earnings
".

Definition bookConfig : json :=
    JObj [ ("root", JStr "./");
           ("structure",
            JObj [ ("readme", JStr "README.md"); ("summary", JStr "SUMMARY.md") ]) ].

  Section Scripts.

    Variable JSON_stringify : json -> string.

    (** [process.cwd()] *)
    Variable cwd : path.

Definition generateDocumentation : M unit :=
      log "Generating documentation..." Cyan ;;
      let rootDir := cwd in
      let docsDir := rootDir ++ ["docs"] in
      let contractPath := rootDir ++ ["contracts"; "ArtifactAuction.sol"] in
      let testPath := rootDir ++ ["test"; "ArtifactAuction.ts"] in
      let* hasDocs := FS.existsSync docsDir in
      (if hasDocs then ret tt else FS.mkdirSync docsDir) ;;
      let* hasContract := FS.existsSync contractPath in
      let* hasTest := FS.existsSync testPath in
      (if hasContract && hasTest then
         let* doc := generateContractDoc "ArtifactAuction" contractPath testPath in
         FS.writeFileSync (docsDir ++ ["artifact-auction.md"]) doc ;;
         success "Generated artifact-auction.md"
       else ret tt) ;;
      FS.writeFileSync (docsDir ++ ["api.md"]) apiDoc ;;
      success "Generated api.md" ;;
      let summary := generateSummary in
      FS.writeFileSync (rootDir ++ ["SUMMARY.md"]) summary ;;
      success "Generated SUMMARY.md" ;;
      FS.writeFileSync (rootDir ++ ["book.json"]) (JSON_stringify bookConfig) ;;
      success "Generated book.json" ;;
      log (nl +:+ repeat_str "=" 60) Green ;;
      success "Documentation generated successfully" ;;
      log (repeat_str "=" 60) Green ;;
      log (nl +:+ "Generated files:") Yellow ;;
      log "  - docs/artifact-auction.md" Reset ;;
      log "  - docs/api.md" Reset ;;
      log "  - SUMMARY.md" Reset ;;
      log "  - book.json" Reset ;;
      log (nl +:+ "To serve documentation locally:") Cyan ;;
      log "  npm install -g gitbook-cli" Reset ;;
      log "  gitbook serve" Reset.

Definition main (args : list string) : M unit :=
      if first_is args "--help" || first_is args "-h" then
        log ("Documentation Generator" +:+ nl) Cyan ;;
        log ("Usage: npx ts-node scripts/generate-docs.ts [options]" +:+ nl) Reset ;;
        log "Options:" Yellow ;;
        log "  --help, -h     Show this help message" Reset ;;
        log ("  --all          Generate all documentation" +:+ nl) Reset ;;
        exit 0
      else generateDocumentation.

  End Scripts.

End Docs.

(** ** A JSON codec for the sample runs *)

Module Codec.

Definition quote_char (c : ascii) : string :=
  if Ascii.eqb c (ascii_of_nat 34) then "\" +:+ dq
  else if Ascii.eqb c "\"%char then "\\"
  else if Ascii.eqb c (ascii_of_nat 10) then "\n"
  else if Ascii.eqb c (ascii_of_nat 9) then "\t"
  else String c "".

Fixpoint quote_body (s : string) : string :=
  match s with
  | EmptyString => ""
  | String c t => quote_char c +:+ quote_body t
  end.

Definition quote (s : string) : string := dq +:+ quote_body s +:+ dq.

(** [JSON.stringify(value, null, 2)], with [indent] the margin so far. *)
Fixpoint stringify_at (indent : string) (value : json) : string :=
  match value with
  | JNull => "null"
  | JBool b => if b then "true" else "false"
  | JNum literal => literal
  | JStr s => quote s
  | JArr [] => "[]"
  | JArr items =>
      "[" +:+ nl +:+
      join ("," +:+ nl)
        ((fix each items :=
            match items with
            | [] => []
            | item :: rest => (indent +:+ "  " +:+ stringify_at (indent +:+ "  ") item) :: each rest
            end) items)
      +:+ nl +:+ indent +:+ "]"
  | JObj [] => "{}"
  | JObj fields =>
      "{" +:+ nl +:+
      join ("," +:+ nl)
        ((fix each fields :=
            match fields with
            | [] => []
            | (key, item) :: rest =>
                (indent +:+ "  " +:+ quote key +:+ ": " +:+ stringify_at (indent +:+ "  ") item)
                :: each rest
            end) fields)
      +:+ nl +:+ indent +:+ "}"
  end.

Definition stringify (value : json) : string := stringify_at "" value.

Fixpoint skip_ws (s : string) : string :=
  match s with
  | String c t =>
      if bool_decide (c ∈ [ascii_of_nat 32; ascii_of_nat 10; ascii_of_nat 13; ascii_of_nat 9])
      then skip_ws t else s
  | EmptyString => s
  end.

(** The text of a string literal after its opening quote. *)
Fixpoint parse_string (s : string) : option (string * string) :=
  match s with
  | EmptyString => None
  | String c t =>
      if Ascii.eqb c (ascii_of_nat 34) then Some ("", t)
      else if Ascii.eqb c "\"%char then
        match t with
        | String e t' =>
            let plain :=
              if Ascii.eqb e "n"%char then Some (ascii_of_nat 10)
              else if Ascii.eqb e "t"%char then Some (ascii_of_nat 9)
              else if bool_decide (e ∈ [ascii_of_nat 34; "\"%char; "/"%char]) then Some e
              else None in
            match plain, parse_string t' with
            | Some x, Some (body, rest) => Some (String x body, rest)
            | _, _ => None
            end
        | EmptyString => None
        end
      else if Nat.ltb (nat_of_ascii c) 32 then None
      else match parse_string t with
           | Some (body, rest) => Some (String c body, rest)
           | None => None
           end
  end.

Definition is_number_char (c : ascii) : bool :=
  bool_decide (c ∈ list_ascii_of_string "-+.eE0123456789").

Fixpoint parse_number (s : string) : string * string :=
  match s with
  | String c t =>
      if is_number_char c then let '(digits, rest) := parse_number t in (String c digits, rest)
      else ("", s)
  | EmptyString => ("", s)
  end.

Definition strip (word s : string) : option string :=
  if String.prefix word s then Some (String.substring (String.length word)
                                       (String.length s - String.length word) s)
  else None.

(** A member in front of the members that follow it: where a key comes
    again, its last value stands. *)
Definition member (key : string) (item : json) (fields : list (string * json))
  : list (string * json) :=
  (key, default item (assoc key fields)) :: filter (fun field => field.1 ≠ key) fields.

(** A value at the head of [s], and the text after it. *)
Fixpoint parse_value (fuel : nat) (s : string) : option (json * string) :=
  match fuel with
  | O => None
  | S fuel' =>
      match skip_ws s with
      | String c t =>
          if Ascii.eqb c "{"%char then
            match skip_ws t with
            | String "}" rest => Some (JObj [], rest)
            | _ =>
                match parse_members fuel' t with
                | Some (fields, rest) => Some (JObj fields, rest)
                | None => None
                end
            end
          else if Ascii.eqb c "["%char then
            match skip_ws t with
            | String "]" rest => Some (JArr [], rest)
            | _ =>
                match parse_elements fuel' t with
                | Some (items, rest) => Some (JArr items, rest)
                | None => None
                end
            end
          else if Ascii.eqb c (ascii_of_nat 34) then
            match parse_string t with
            | Some (body, rest) => Some (JStr body, rest)
            | None => None
            end
          else if is_number_char c then
            let '(digits, rest) := parse_number (String c t) in Some (JNum digits, rest)
          else
            match strip "true" (String c t), strip "false" (String c t),
                  strip "null" (String c t) with
            | Some rest, _, _ => Some (JBool true, rest)
            | _, Some rest, _ => Some (JBool false, rest)
            | _, _, Some rest => Some (JNull, rest)
            | _, _, _ => None
            end
      | EmptyString => None
      end
  end
with parse_members (fuel : nat) (s : string) : option (list (string * json) * string) :=
  match fuel with
  | O => None
  | S fuel' =>
      match skip_ws s with
      | String c t =>
          if Ascii.eqb c (ascii_of_nat 34) then
            match parse_string t with
            | Some (key, rest) =>
                match skip_ws rest with
                | String ":" rest1 =>
                    match parse_value fuel' rest1 with
                    | Some (item, rest2) =>
                        match skip_ws rest2 with
                        | String "," rest3 =>
                            match parse_members fuel' rest3 with
                            | Some (fields, rest4) => Some (member key item fields, rest4)
                            | None => None
                            end
                        | String "}" rest3 => Some ([(key, item)], rest3)
                        | _ => None
                        end
                    | None => None
                    end
                | _ => None
                end
            | None => None
            end
          else None
      | EmptyString => None
      end
  end
with parse_elements (fuel : nat) (s : string) : option (list json * string) :=
  match fuel with
  | O => None
  | S fuel' =>
      match parse_value fuel' s with
      | Some (item, rest) =>
          match skip_ws rest with
          | String "," rest1 =>
              match parse_elements fuel' rest1 with
              | Some (items, rest2) => Some (item :: items, rest2)
              | None => None
              end
          | String "]" rest1 => Some ([item], rest1)
          | _ => None
          end
      | None => None
      end
  end.

(** [JSON.parse] *)
Definition parse (text : string) : option json :=
  match parse_value (S (String.length text)) text with
  | Some (value, rest) => if bool_decide (skip_ws rest = "") then Some value else None
  | None => None
  end.

End Codec.


(** ** Sample projects *)

Module Sample.

Definition rootDir : path := ["repo"].

Definition contract_text : string :=
"// SPDX-License-Identifier: MIT
pragma solidity ^0.8.24;

/// @title Artifact Auction Contract
contract ArtifactAuction is SepoliaConfig {
    address public owner;

    function placeBid(uint32 auctionId, uint64 _bidAmount) external {
    }
}
".

(** A contract file without a contract declaration. *)
Definition library_text : string :=
"// SPDX-License-Identifier: MIT
pragma solidity ^0.8.24;

library AuctionMath {
}
".

Definition test_text : string :=
"import { expect } from 'chai';

/**
 * Auction tests
 *
 * Bids stay encrypted
 */
describe('ArtifactAuction', function () {
  it('deploys', async function () {});
});
".

Definition fields : list (string * json) :=
  [ ("name", JStr "fhevm-hardhat-template");
    ("version", JStr "0.1.0");
    ("description", JStr "Hardhat template");
    ("scripts", JObj [("test", JStr "hardhat test")]) ].

Definition manifest : json := JObj fields.

Definition tree (contract : string) : list (path * node) :=
  [ ([], Dir);
    (["repo"], Dir);
    (["repo"; "contracts"], Dir);
    (["repo"; "contracts"; "ArtifactAuction.sol"], File contract);
    (["repo"; "test"], Dir);
    (["repo"; "test"; "ArtifactAuction.ts"], File test_text);
    (["repo"; "test"; "Counter.ts"], File "describe('Counter', function () {});");
    (["repo"; "scripts"], Dir);
    (["repo"; "scripts"; "create-fhevm-example.ts"], File "main();");
    (["repo"; "base-template"], Dir);
    (["repo"; "base-template"; "package.json"], File (Codec.stringify manifest));
    (["repo"; "base-template"; "hardhat.config.ts"], File "export default {};");
    (["repo"; "base-template"; "test"], Dir);
    (["repo"; "base-template"; "test"; "FHECounter.ts"],
     File "describe('FHECounter', function () {});");
    (["repo"; "node_modules"], Dir);
    (["repo"; "node_modules"; "chai.js"], File "module.exports = {};");
    (["repo"; "package.json"], File (Codec.stringify manifest));
    (["repo"; "README.md"], File "# Confidential Artifact Auction") ].

(** The repository, with nothing printed yet. *)
Definition repo : world := World (list_to_map (tree contract_text)) [].

(** The repository with a contract file that declares no contract. *)
Definition repo_without_declaration : world := World (list_to_map (tree library_text)) [].

(** The repository without the template's manifest. *)
Definition repo_without_manifest : world :=
  World (delete ["repo"; "package.json"] (list_to_map (tree contract_text))) [].

(** A directory without the contract and the test. *)
Definition bare : world := World (list_to_map [([], Dir); (["work"], Dir)]) [].

(** A directory in which [docs] is a regular file. *)
Definition blocked : world :=
  World (list_to_map [([], Dir); (["work"], Dir); (["work"; "docs"], File "notes")]) [].

Definition createExample :=
  Example.createExample Codec.parse Codec.stringify rootDir rootDir.
Definition createCategory :=
  Category.createCategory Codec.parse Codec.stringify rootDir rootDir.
Definition generateDocumentation := Docs.generateDocumentation Codec.stringify rootDir.

End Sample.

(** * Properties *)

(** ** Sequencing *)

Lemma bind_Ret {A B} (c : M A) (k : A -> M B) w a w1 :
  c w = Ret a w1 -> bind c k w = k a w1.
Proof. intros H. unfold bind. by rewrite H. Qed.

Lemma bind_Ret_inv {A B} (c : M A) (k : A -> M B) w b w' :
  bind c k w = Ret b w' -> exists a w1, c w = Ret a w1 /\ k a w1 = Ret b w'.
Proof. unfold bind. destruct (c w) as [a w1| | |]; try discriminate. eauto. Qed.

(** A script that does not return leaves the outcome of what precedes it. *)
Lemma bind_not_Ret {A B} (c : M A) (k : A -> M B) w :
  (forall a w1, c w <> Ret a w1) ->
  bind c k w = match c w with
               | Ret _ _ => Diverge
               | Exit code w1 => Exit code w1
               | Throw e w1 => Throw e w1
               | Diverge => Diverge
               end.
Proof. intros H. unfold bind. destruct (c w) eqn:E; try done. by destruct (H a w0). Qed.

Lemma log_eq message color w :
  log message color w =
  Ret tt (World (files w) (console w ++ [line color message])).
Proof. reflexivity. Qed.

Lemma error_eq {A} message w :
  @error A message w =
  Exit 1 (World (files w) (console w ++ [line Red ("Error: " +:+ message)])).
Proof. reflexivity. Qed.

Module ExampleFacts.
Section Facts.
  Variable JSON_parse : string -> option json.
  Variable JSON_stringify : json -> string.
  Variable rootDir : path.
  Variable cwd : path.

  Abbreviation createExample := (Example.createExample JSON_parse JSON_stringify rootDir cwd).

Lemma createExample_unregistered fuel exampleName outputDir w :
    js_get Example.EXAMPLES_MAP exampleName = Undefined ->
    createExample fuel exampleName outputDir w =
    Exit 1 (World (files w)
              (console w ++ [line Red ("Error: " +:+ "Unknown example: " +:+ exampleName)])).
  Proof. intros H. unfold Example.createExample. rewrite H. reflexivity. Qed.

Lemma createExample_inherited fuel exampleName outputDir w :
    js_get Example.EXAMPLES_MAP exampleName = Inherited ->
    createExample fuel exampleName outputDir w = Throw TypeError w.
  Proof. intros H. unfold Example.createExample. rewrite H. reflexivity. Qed.

Lemma createExample_constructor fuel outputDir w :
    createExample fuel "constructor" outputDir w = Throw TypeError w.
  Proof. reflexivity. Qed.
End Facts.
End ExampleFacts.

(** ** The file system *)

(** Every entry but the root lies in a directory. *)
Definition wf (fs : gmap (list string) node) : Prop :=
  map_Forall (fun p _ => p = [] \/ fs !! FS.parent p = Some Dir) fs.

Global Instance wf_dec fs : Decision (wf fs).
Proof. unfold wf. apply _. Defined.

Section FSFacts.
  Implicit Types (fs : gmap (list string) node) (p q k : path).

Lemma parent_snoc p x : FS.parent (p ++ [x]) = p.
  Proof. unfold FS.parent. apply removelast_last. Qed.

Lemma wf_parent fs p x : wf fs -> is_Some (fs !! (p ++ [x])) -> fs !! p = Some Dir.
  Proof.
    intros Hwf [n Hn]. destruct (Hwf _ _ Hn) as [E|E].
    - by destruct p.
    - by rewrite parent_snoc in E.
  Qed.

Lemma wf_prefix fs p q :
    wf fs -> is_Some (fs !! p) -> q `prefix_of` p -> q <> p -> fs !! q = Some Dir.
  Proof.
    intros Hwf Hp [r ->]. revert Hp. induction r as [|x r IH] using rev_ind; intros Hp Hne.
    - by rewrite app_nil_r in Hne.
    - rewrite app_assoc in Hp. pose proof (wf_parent _ _ _ Hwf Hp) as Hd.
      destruct r as [|y r] using rev_ind.
      + by rewrite app_nil_r in Hd.
      + apply IH; [by rewrite Hd|]. intros E. apply (f_equal length) in E.
        rewrite !length_app in E. simpl in E. lia.
  Qed.

Lemma elem_of_prefixes q p : q ∈ FS.prefixes p <-> q `prefix_of` p.
  Proof.
    revert q. induction p as [|x p IH]; intros q; simpl.
    - rewrite list_elem_of_singleton. split; [intros ->; done|apply prefix_nil_inv].
    - rewrite elem_of_cons, list_elem_of_fmap. split.
      + intros [->|(q' & -> & Hq)]; [apply prefix_nil|]. apply prefix_cons, IH, Hq.
      + destruct q as [|y q]; [by left|]. intros H. right. exists q.
        pose proof (prefix_cons_inv_1 _ _ _ _ H) as ->.
        split; [done|]. apply IH. by eapply prefix_cons_inv_2.
  Qed.

Lemma ensure_dirs_lookup qs fs fs' :
    FS.ensure_dirs qs fs = Some fs' ->
    forall k, fs' !! k =
              match fs !! k with
              | Some n => Some n
              | None => if decide (k ∈ qs) then Some Dir else None
              end.
  Proof.
    revert fs. induction qs as [|q qs IH]; intros fs H k; simpl in H.
    - simplify_eq. destruct (fs' !! k); [done|]. by rewrite decide_False by apply not_elem_of_nil.
    - unfold FS.ensure_dir in H. destruct (fs !! q) as [[c|]|] eqn:Eq; [done| |].
      + rewrite (IH _ H k). destruct (fs !! k) eqn:Ek; [done|].
        destruct (decide (k ∈ qs)) as [Hk|Hk].
        * by rewrite decide_True by (by right).
        * rewrite decide_False; [done|]. rewrite elem_of_cons. intros [->|?]; [congruence|done].
      + rewrite (IH _ H k). destruct (decide (k = q)) as [->|Hne].
        * rewrite lookup_insert_eq, Eq. by rewrite decide_True by left.
        * rewrite lookup_insert_ne by done. destruct (fs !! k); [done|].
          destruct (decide (k ∈ qs)) as [Hk|Hk].
          -- by rewrite decide_True by (by right).
          -- rewrite decide_False; [done|]. rewrite elem_of_cons. by intros [?|?].
  Qed.

Lemma ensure_dirs_is_Some qs fs :
    (forall q c, q ∈ qs -> fs !! q <> Some (File c)) -> is_Some (FS.ensure_dirs qs fs).
  Proof.
    revert fs. induction qs as [|q qs IH]; intros fs H; simpl; [by eexists|].
    unfold FS.ensure_dir. destruct (fs !! q) as [[c|]|] eqn:Eq.
    - destruct (H q c); [by left|done].
    - apply IH. intros q' c' Hq'. apply H. by right.
    - apply IH. intros q' c' Hq'. destruct (decide (q = q')) as [->|Hne].
      + by rewrite lookup_insert_eq.
      + rewrite lookup_insert_ne by done. apply H. by right.
  Qed.

Lemma ensure_dirs_no_file qs fs fs' :
    FS.ensure_dirs qs fs = Some fs' -> forall q c, q ∈ qs -> fs !! q <> Some (File c).
  Proof.
    revert fs. induction qs as [|q qs IH]; intros fs H q' c Hq'; simpl in H.
    - by apply not_elem_of_nil in Hq'.
    - unfold FS.ensure_dir in H. destruct (fs !! q) as [[c'|]|] eqn:Eq; [done| |].
      + apply elem_of_cons in Hq' as [->|Hq']; [congruence|]. by eapply IH.
      + apply elem_of_cons in Hq' as [->|Hq']; [congruence|].
        intros E. eapply (IH _ H q' c Hq').
        destruct (decide (q = q')) as [->|Hne]; [congruence|]. by rewrite lookup_insert_ne.
  Qed.

  (** [mkdirSync] returns exactly when no file is in the way, and then
      adds the missing directories along the path. *)
Lemma mkdirSync_Ret p w :
    (forall q c, q `prefix_of` p -> files w !! q <> Some (File c)) ->
    exists fs', FS.mkdirSync p w = Ret tt (World fs' (console w)) /\
      forall k, fs' !! k =
                match files w !! k with
                | Some n => Some n
                | None => if decide (k `prefix_of` p) then Some Dir else None
                end.
  Proof.
    intros H. unfold FS.mkdirSync.
    destruct (ensure_dirs_is_Some (FS.prefixes p) (files w)) as [fs' E].
    { intros q c Hq. apply H. by apply elem_of_prefixes. }
    rewrite E. exists fs'. split; [done|]. intros k.
    rewrite (ensure_dirs_lookup _ _ _ E k). destruct (files w !! k); [done|].
    destruct (decide (k ∈ FS.prefixes p)) as [Hk|Hk].
    - by rewrite decide_True by (by apply elem_of_prefixes).
    - rewrite decide_False; [done|]. by rewrite <-elem_of_prefixes.
  Qed.

Lemma mkdirSync_inv p w a w' :
    FS.mkdirSync p w = Ret a w' ->
    console w' = console w /\
    (forall q c, q `prefix_of` p -> files w !! q <> Some (File c)) /\
    forall k, files w' !! k =
              match files w !! k with
              | Some n => Some n
              | None => if decide (k `prefix_of` p) then Some Dir else None
              end.
  Proof.
    unfold FS.mkdirSync. destruct (FS.ensure_dirs _ _) as [fs'|] eqn:E; [|done].
    intros [= <- <-]. split; [done|]. split.
    - intros q c Hq. eapply ensure_dirs_no_file; [done|]. by apply elem_of_prefixes.
    - intros k. simpl. rewrite (ensure_dirs_lookup _ _ _ E k). destruct (files w !! k); [done|].
      destruct (decide (k ∈ FS.prefixes p)) as [Hk|Hk].
      + by rewrite decide_True by (by apply elem_of_prefixes).
      + rewrite decide_False; [done|]. by rewrite <-elem_of_prefixes.
  Qed.

  (** In a directory that exists, [mkdirSync] of a fresh name adds that
      name and nothing else. *)
Lemma mkdirSync_child p x w :
    wf (files w) -> files w !! p = Some Dir -> files w !! (p ++ [x]) = None ->
    FS.mkdirSync (p ++ [x]) w = Ret tt (World (<[p ++ [x] := Dir]> (files w)) (console w)).
  Proof.
    intros Hwf Hp Hx.
    assert (Hpre : forall q, q `prefix_of` p ++ [x] -> q = p ++ [x] \/ files w !! q = Some Dir).
    { intros q Hq. destruct (decide (q = p ++ [x])) as [|Hne]; [by left|right].
      assert (q `prefix_of` p) as Hqp.
      { destruct Hq as [r Hr]. destruct r as [|y r _] using rev_ind.
        - rewrite app_nil_r in Hr. congruence.
        - rewrite app_assoc in Hr. apply app_inj_tail in Hr as [-> _]. by apply prefix_app_r. }
      destruct (decide (q = p)) as [->|Hqne]; [done|].
      eapply wf_prefix; [done| |done|done]. by rewrite Hp. }
    destruct (mkdirSync_Ret (p ++ [x]) w) as (fs' & E & Hfs').
    { intros q c Hq. destruct (Hpre q Hq) as [->|Hd]; congruence. }
    rewrite E. f_equal. f_equal. apply map_eq. intros k. rewrite Hfs'.
    destruct (decide (k = p ++ [x])) as [->|Hne].
    - rewrite lookup_insert_eq, Hx. by rewrite decide_True.
    - rewrite lookup_insert_ne by done. destruct (files w !! k) eqn:Ek; [done|].
      case_decide as Hk; [|done]. destruct (Hpre k Hk); congruence.
  Qed.

Lemma existsSync_eq p w :
    FS.existsSync p w = Ret (bool_decide (is_Some (files w !! p))) w.
  Proof. reflexivity. Qed.

Lemma writeFileSync_Ret p c w :
    files w !! p <> Some Dir -> files w !! FS.parent p = Some Dir ->
    FS.writeFileSync p c w = Ret tt (World (<[p := File c]> (files w)) (console w)).
  Proof.
    intros Hp Hd. unfold FS.writeFileSync. rewrite Hd.
    destruct (files w !! p) as [[?|]|]; done.
  Qed.

Lemma writeFileSync_inv p c w a w' :
    FS.writeFileSync p c w = Ret a w' ->
    files w !! p <> Some Dir /\ files w !! FS.parent p = Some Dir /\
    w' = World (<[p := File c]> (files w)) (console w).
  Proof.
    unfold FS.writeFileSync.
    destruct (files w !! p) as [[?|]|] eqn:Ep; try done;
      destruct (files w !! FS.parent p) as [[?|]|]; try done; by intros [= <- <-].
  Qed.

Lemma readFileSync_Ret p c w :
    files w !! p = Some (File c) -> FS.readFileSync p w = Ret c w.
  Proof. intros H. unfold FS.readFileSync. by rewrite H. Qed.

Lemma readFileSync_inv p w c w' :
    FS.readFileSync p w = Ret c w' -> w' = w /\ files w !! p = Some (File c).
  Proof.
    unfold FS.readFileSync. destruct (files w !! p) as [[?|]|]; try done. by intros [= <- <-].
  Qed.

Lemma copyFileSync_Ret src dst c w :
    files w !! src = Some (File c) ->
    files w !! dst <> Some Dir -> files w !! FS.parent dst = Some Dir ->
    FS.copyFileSync src dst w = Ret tt (World (<[dst := File c]> (files w)) (console w)).
  Proof.
    intros Hs Hd Hp. unfold FS.copyFileSync.
    rewrite (bind_Ret _ _ _ _ _ (readFileSync_Ret _ _ _ Hs)). by apply writeFileSync_Ret.
  Qed.

Lemma copyFileSync_inv src dst w a w' :
    FS.copyFileSync src dst w = Ret a w' ->
    exists c, files w !! src = Some (File c) /\
      files w !! dst <> Some Dir /\ files w !! FS.parent dst = Some Dir /\
      w' = World (<[dst := File c]> (files w)) (console w).
  Proof.
    unfold FS.copyFileSync. intros H.
    apply bind_Ret_inv in H as (c & w1 & H1 & H2).
    apply readFileSync_inv in H1 as [-> H1].
    apply writeFileSync_inv in H2 as (? & ? & ?). eauto 6.
  Qed.

  (** What [readdirSync] lists: the names under which the directory has
      an entry, each once. *)
Lemma elem_of_entries fs p x : x ∈ FS.entries fs p <-> is_Some (fs !! (p ++ [x])).
  Proof.
    unfold FS.entries. rewrite list_elem_of_omap. split.
    - intros ([q n] & Hq & Hc). apply elem_of_map_to_list in Hq. simpl in Hc.
      unfold FS.child_of in Hc. destruct (last q) as [y|]; [|done].
      case_bool_decide as E; [|done]. simplify_eq. by eexists.
    - intros [n Hn]. exists (p ++ [x], n). split; [by apply elem_of_map_to_list|].
      simpl. unfold FS.child_of. rewrite last_snoc. by rewrite bool_decide_true.
  Qed.

Lemma NoDup_entries fs p : NoDup (FS.entries fs p).
  Proof.
    unfold FS.entries.
    pose proof (NoDup_fst_map_to_list fs) as Hnd.
    induction (map_to_list fs) as [|[q n] l IH]; simpl; [constructor|].
    apply NoDup_cons in Hnd as [Hq Hnd]. simpl in Hq.
    destruct (FS.child_of p q) as [x|] eqn:Ec; simpl; [|by apply IH].
    constructor; [|by apply IH].
    rewrite list_elem_of_omap. intros ([q' n'] & Hin & Hc'). simpl in Hc'.
    unfold FS.child_of in Ec, Hc'.
    destruct (last q); [|done]. destruct (last q'); [|done].
    repeat case_bool_decide; simplify_eq.
    apply Hq. apply list_elem_of_fmap. by exists (p ++ [x], n').
  Qed.
End FSFacts.

(** ** Scripts only add to the file system *)

(** Entries stay, and directories stay directories. *)
Definition extends (fs fs' : gmap (list string) node) : Prop :=
  forall p, (fs !! p = Some Dir -> fs' !! p = Some Dir) /\
            (is_Some (fs !! p) -> is_Some (fs' !! p)).

Definition world_of {A} (o : outcome A) : option world :=
  match o with
  | Ret _ w | Exit _ w | Throw _ w => Some w
  | Diverge => None
  end.

(** A script is steady when, whatever its outcome, the file system it
    leaves extends the one it found and is well formed if that one was. *)
Definition steady {A} (c : M A) : Prop :=
  forall w w', world_of (c w) = Some w' ->
    extends (files w) (files w') /\ (wf (files w) -> wf (files w')).

Section Steady.
  Implicit Types (fs : gmap (list string) node) (p q k : path).

Lemma extends_refl fs : extends fs fs.
  Proof. by intros p. Qed.

Lemma extends_trans fs1 fs2 fs3 : extends fs1 fs2 -> extends fs2 fs3 -> extends fs1 fs3.
  Proof. intros H1 H2 p. destruct (H1 p), (H2 p). split; auto. Qed.

Lemma steady_pure {A} (c : M A) :
    (forall w w', world_of (c w) = Some w' -> files w' = files w) -> steady c.
  Proof.
    intros H w w' Hw. rewrite (H _ _ Hw). split; [apply extends_refl|done].
  Qed.

Lemma steady_ret {A} (a : A) : steady (ret a).
  Proof. apply steady_pure. by intros w w' [= <-]. Qed.

Lemma steady_throw {A} e : steady (@throw A e).
  Proof. apply steady_pure. by intros w w' [= <-]. Qed.

Lemma steady_diverge {A} : steady (@diverge A).
  Proof. by intros w w' H. Qed.

Lemma steady_exit {A} code : steady (@exit A code).
  Proof. apply steady_pure. by intros w w' [= <-]. Qed.

Lemma steady_log message color : steady (log message color).
  Proof. apply steady_pure. by intros w w' [= <-]. Qed.

Lemma steady_bind {A B} (c : M A) (k : A -> M B) :
    steady c -> (forall a, steady (k a)) -> steady (bind c k).
  Proof.
    intros Hc Hk w w' Hw. unfold bind in Hw.
    destruct (c w) as [a w1|code w1|e w1|] eqn:E; simpl in Hw; [| | |done].
    - destruct (Hc w w1) as [H1 H2]; [by rewrite E|].
      destruct (Hk a w1 w' Hw) as [H3 H4].
      split; [by eapply extends_trans|auto].
    - simplify_eq. apply Hc. by rewrite E.
    - simplify_eq. apply Hc. by rewrite E.
  Qed.

Lemma steady_error {A} message : steady (@error A message).
  Proof. apply steady_bind; [apply steady_log|intros; apply steady_exit]. Qed.

Lemma steady_success message : steady (success message).
  Proof. apply steady_log. Qed.

Lemma steady_info message : steady (info message).
  Proof. apply steady_log. Qed.

Lemma steady_forEach {A} (f : A -> M unit) items :
    (forall x, x ∈ items -> steady (f x)) -> steady (forEach f items).
  Proof.
    induction items as [|x items IH]; intros H; simpl; [apply steady_ret|].
    apply steady_bind; [apply H; by left|]. intros _. apply IH. intros y Hy. apply H. by right.
  Qed.

Lemma steady_if {A} (b : bool) (c1 c2 : M A) :
    steady c1 -> steady c2 -> steady (if b then c1 else c2).
  Proof. by destruct b. Qed.

Lemma steady_existsSync p : steady (FS.existsSync p).
  Proof. apply steady_pure. by intros w w' [= <-]. Qed.

Lemma steady_statSync p : steady (FS.statSync p).
  Proof.
    apply steady_pure. intros w w'. unfold FS.statSync.
    destruct (files w !! p); by intros [= <-].
  Qed.

Lemma steady_readdirSync p : steady (FS.readdirSync p).
  Proof.
    apply steady_pure. intros w w'. unfold FS.readdirSync.
    destruct (files w !! p) as [[?|]|]; by intros [= <-].
  Qed.

Lemma steady_readFileSync p : steady (FS.readFileSync p).
  Proof.
    apply steady_pure. intros w w'. unfold FS.readFileSync.
    destruct (files w !! p) as [[?|]|]; by intros [= <-].
  Qed.

Lemma wf_lookup fs : wf fs <-> forall k n, fs !! k = Some n -> k = [] \/ fs !! FS.parent k = Some Dir.
  Proof. unfold wf. by rewrite map_Forall_lookup. Qed.

Lemma parent_prefix k : FS.parent k `prefix_of` k.
  Proof.
    destruct k as [|x k _] using rev_ind; [done|]. rewrite parent_snoc. by apply prefix_app_r.
  Qed.

Lemma steady_mkdirSync p : steady (FS.mkdirSync p).
  Proof.
    intros w w' Hw. destruct (FS.mkdirSync p w) as [a w1| | |] eqn:E; simpl in Hw; simplify_eq.
    - apply mkdirSync_inv in E as (_ & Hnf & Hl). split.
      + intros k. rewrite Hl. destruct (files w !! k); [done|]. split; [done|by intros [? ?]].
      + rewrite !wf_lookup. intros Hwf k n Hk. rewrite Hl in Hk. rewrite Hl.
        destruct (files w !! k) as [n'|] eqn:Ek.
        * destruct (Hwf _ _ Ek) as [->|Hp]; [by left|right]. by rewrite Hp.
        * case_decide as Hpre; [|done]. destruct (decide (k = [])) as [->|Hne]; [by left|right].
          assert (FS.parent k `prefix_of` p) as Hpp.
          { etrans; [apply parent_prefix|done]. }
          destruct (files w !! FS.parent k) as [[c|]|] eqn:Epk; [|done|by rewrite decide_True].
          by destruct (Hnf _ c Hpp).
    - unfold FS.mkdirSync in E. destruct (FS.ensure_dirs _ _); simplify_eq.
    - unfold FS.mkdirSync in E. destruct (FS.ensure_dirs _ _); simplify_eq.
      split; [apply extends_refl|done].
  Qed.

Lemma wf_insert_file fs p c :
    wf fs -> fs !! p <> Some Dir -> fs !! FS.parent p = Some Dir -> wf (<[p := File c]> fs).
  Proof.
    rewrite !wf_lookup. intros Hwf Hp Hpp k n Hk.
    assert (forall q, fs !! q = Some Dir -> <[p := File c]> fs !! q = Some Dir) as Hkeep.
    { intros q Hq. rewrite lookup_insert_ne; [done|]. intros ->. done. }
    destruct (decide (k = p)) as [->|Hne].
    - right. by apply Hkeep.
    - rewrite lookup_insert_ne in Hk by done.
      destruct (Hwf _ _ Hk) as [->|Hd]; [by left|right]. by apply Hkeep.
  Qed.

Lemma extends_insert_file fs p c : fs !! p <> Some Dir -> extends fs (<[p := File c]> fs).
  Proof.
    intros Hp k. destruct (decide (k = p)) as [->|Hne].
    - rewrite lookup_insert_eq. split; [done|by eexists].
    - by rewrite lookup_insert_ne.
  Qed.

Lemma steady_writeFileSync p c : steady (FS.writeFileSync p c).
  Proof.
    intros w w' Hw. destruct (FS.writeFileSync p c w) as [a w1| | |] eqn:E; simpl in Hw; simplify_eq.
    - apply writeFileSync_inv in E as (Hp & Hpp & ->). simpl. split.
      + by apply extends_insert_file.
      + intros Hwf. by apply wf_insert_file.
    - unfold FS.writeFileSync in E.
      destruct (files w !! p) as [[?|]|]; destruct (files w !! FS.parent p) as [[?|]|]; simplify_eq.
    - unfold FS.writeFileSync in E.
      destruct (files w !! p) as [[?|]|]; destruct (files w !! FS.parent p) as [[?|]|];
        simplify_eq; (split; [apply extends_refl|done]).
  Qed.

Lemma steady_copyFileSync src dst : steady (FS.copyFileSync src dst).
  Proof.
    apply steady_bind; [apply steady_readFileSync|]. intros c. apply steady_writeFileSync.
  Qed.
End Steady.

Create HintDb steady.

Global Hint Resolve steady_ret steady_throw steady_diverge steady_exit steady_log
  steady_error steady_success steady_info steady_existsSync steady_statSync
  steady_readdirSync steady_readFileSync steady_mkdirSync steady_writeFileSync
  steady_copyFileSync : steady.

Ltac steady :=
  repeat first
    [ progress eauto with steady
    | apply steady_bind; [|intros ?]
    | apply steady_if
    | apply steady_forEach; intros ? _
    | match goal with
      | |- steady (match ?x with _ => _ end) => destruct x
      end ].

(** Inversion of a run that returned. *)
Lemma if_error_inv {A} (b : bool) (message : string) (c : M A) w a w' :
  (if b then error message else c) w = Ret a w' -> b = false /\ c w = Ret a w'.
Proof. destruct b; [done|eauto]. Qed.

Lemma if_else_error_inv {A} (b : bool) (message : string) (c : M A) w a w' :
  (if b then c else error message) w = Ret a w' -> b = true /\ c w = Ret a w'.
Proof. destruct b; [eauto|done]. Qed.

Lemma ret_inv {A} (a b : A) w w' : ret a w = Ret b w' -> a = b /\ w' = w.
Proof. by intros [= <- <-]. Qed.

Lemma log_inv message color w a w' :
  log message color w = Ret a w' ->
  w' = World (files w) (console w ++ [line color message]).
Proof. by intros [= <-]. Qed.

Lemma existsSync_inv p w b w' :
  FS.existsSync p w = Ret b w' -> w' = w /\ b = bool_decide (is_Some (files w !! p)).
Proof. by intros [= <- <-]. Qed.

Ltac inv_run H :=
  lazymatch type of H with
  | bind _ _ _ = Ret _ _ =>
      let a := fresh "a" in
      let w := fresh "w" in
      let H1 := fresh "Hrun" in
      apply bind_Ret_inv in H as (a & w & H1 & H);
      inv_run H1; inv_run H
  | FS.existsSync _ _ = Ret _ _ =>
      apply existsSync_inv in H as [-> ->]
  | log _ _ _ = Ret _ _ => apply log_inv in H as ->
  | success _ _ = Ret _ _ => apply log_inv in H as ->
  | info _ _ = Ret _ _ => apply log_inv in H as ->
  | ret _ _ = Ret _ _ => apply ret_inv in H as [<- ->]
  | FS.writeFileSync _ _ _ = Ret _ _ =>
      let H1 := fresh "Hnodir" in
      let H2 := fresh "Hparent" in
      apply writeFileSync_inv in H as (H1 & H2 & ->)
  | FS.readFileSync _ _ = Ret _ _ =>
      let H1 := fresh "Hread" in
      apply readFileSync_inv in H as [-> H1]
  | (if _ then error _ else _) _ = Ret _ _ =>
      let E := fresh "Hno" in
      apply if_error_inv in H as [E H]; inv_run H
  | (if _ then _ else error _) _ = Ret _ _ =>
      let E := fresh "Hyes" in
      apply if_else_error_inv in H as [E H]; inv_run H
  | _ => idtac
  end.

Module ExampleFacts2.
Section Facts.
  Variable JSON_parse : string -> option json.
  Variable JSON_stringify : json -> string.
  Variable rootDir : path.
  Variable cwd : path.

  Abbreviation copyDirectoryRecursive :=
    (Example.copyDirectoryRecursive).
  Abbreviation createExample := (Example.createExample JSON_parse JSON_stringify rootDir cwd).

Lemma steady_copyDirectoryRecursive fuel source destination skipFiles :
    steady (copyDirectoryRecursive fuel source destination skipFiles).
  Proof.
    revert source destination. induction fuel as [|fuel IH]; intros source destination; simpl.
    - apply steady_diverge.
    - steady.
  Qed.

Lemma steady_updatePackageJson outputDir exampleName description :
    steady (Example.updatePackageJson JSON_parse JSON_stringify outputDir exampleName description).
  Proof. unfold Example.updatePackageJson. steady. Qed.

Lemma steady_createExample fuel exampleName outputDir :
    steady (createExample fuel exampleName outputDir).
  Proof.
    unfold Example.createExample, Example.getContractName.
    pose proof steady_copyDirectoryRecursive. pose proof steady_updatePackageJson.
    steady.
  Qed.

  (** The generator stops at a destination that exists, with the file
      system as it found it. *)
Lemma createExample_exists fuel exampleName outputDir example w :
    js_get Example.EXAMPLES_MAP exampleName = Own example ->
    is_Some (files w !! path_join rootDir (Example.contract example)) ->
    is_Some (files w !! path_join rootDir (Example.test example)) ->
    is_Some (files w !! resolve cwd outputDir) ->
    exists lines,
      createExample fuel exampleName outputDir w =
      Exit 1 (World (files w)
                (console w ++ lines ++
                 [line Red ("Error: " +:+ "Directory exists: " +:+ outputDir)])).
  Proof.
    intros Hget Hc Ht Hd. unfold Example.createExample. rewrite Hget.
    cbv beta iota zeta delta [bind FS.existsSync info log ret].
    rewrite (bool_decide_true _ Hc), (bool_decide_true _ Ht). simpl files.
    rewrite (bool_decide_true _ Hd). rewrite error_eq. simpl files. simpl console.
    eexists [_; _]. rewrite <-!app_assoc. reflexivity.
  Qed.

Lemma createExample_exists_any fuel exampleName outputDir w :
    is_Some (files w !! resolve cwd outputDir) ->
    exists w', (createExample fuel exampleName outputDir w = Exit 1 w' \/
                createExample fuel exampleName outputDir w = Throw TypeError w') /\
               files w' = files w.
  Proof.
    intros Hd. destruct (js_get Example.EXAMPLES_MAP exampleName) as [example| |] eqn:Hget.
    - unfold Example.createExample. rewrite Hget.
      cbv beta iota zeta delta [bind FS.existsSync info log ret].
      case_bool_decide; [|rewrite error_eq; eauto].
      case_bool_decide; [|rewrite error_eq; eauto].
      simpl files. rewrite (bool_decide_true _ Hd). rewrite error_eq; eauto.
    - unfold Example.createExample. rewrite Hget. eauto.
    - unfold Example.createExample. rewrite Hget. rewrite error_eq. eauto.
  Qed.

  (** After a run that returned, the destination exists. *)
Lemma createExample_Ret_exists fuel exampleName outputDir w w' :
    createExample fuel exampleName outputDir w = Ret tt w' ->
    is_Some (files w' !! resolve cwd outputDir).
  Proof.
    unfold Example.createExample. intros H.
    destruct (js_get _ _) as [example| |]; [|done|done].
    inv_run H.
    match type of H with match ?x with _ => _ end _ = _ => destruct x as [[|]|]; [done| |done] end.
    inv_run H. cbn [files console] in *.
    rename Hparent into Hp.
    rewrite parent_snoc in Hp. destruct (decide (resolve cwd outputDir ++ ["README.md"] = resolve cwd outputDir)) as [E|E].
    - apply (f_equal length) in E. rewrite length_app in E. simpl in E. lia.
    - rewrite lookup_insert_ne by done. by rewrite Hp.
  Qed.

Lemma createExample_twice fuel fuel' exampleName outputDir w w1 :
    createExample fuel exampleName outputDir w = Ret tt w1 ->
    exists w2, (createExample fuel' exampleName outputDir w1 = Exit 1 w2 \/
                createExample fuel' exampleName outputDir w1 = Throw TypeError w2) /\
               files w2 = files w1.
  Proof. intros H. eapply createExample_exists_any, createExample_Ret_exists, H. Qed.
End Facts.
End ExampleFacts2.

Lemma readdirSync_inv p w items w' :
  FS.readdirSync p w = Ret items w' ->
  w' = w /\ files w !! p = Some Dir /\ items = FS.entries (files w) p.
Proof.
  unfold FS.readdirSync. destruct (files w !! p) as [[?|]|]; try done. by intros [= <- <-].
Qed.

Lemma readdirSync_Ret p w :
  files w !! p = Some Dir -> FS.readdirSync p w = Ret (FS.entries (files w) p) w.
Proof. intros H. unfold FS.readdirSync. by rewrite H. Qed.

Lemma statSync_inv p w n w' :
  FS.statSync p w = Ret n w' -> w' = w /\ files w !! p = Some n.
Proof. unfold FS.statSync. destruct (files w !! p); try done. by intros [= <- <-]. Qed.

Lemma statSync_Ret p w n : files w !! p = Some n -> FS.statSync p w = Ret n w.
Proof. intros H. unfold FS.statSync. by rewrite H. Qed.

(** Every item of a loop that returned was run, in a world that the
    items before it left. *)
Lemma forEach_Ret_elem {A} (P : world -> Prop) (f : A -> M unit) items w w' x :
  (forall y wy wy', y ∈ items -> P wy -> f y wy = Ret tt wy' -> P wy') ->
  P w -> forEach f items w = Ret tt w' -> x ∈ items ->
  exists wx wx', P wx /\ f x wx = Ret tt wx'.
Proof.
  revert w. induction items as [|y items IH]; intros w HP Hw Hrun Hx.
  - by apply not_elem_of_nil in Hx.
  - simpl in Hrun. apply bind_Ret_inv in Hrun as ([] & w1 & H1 & H2).
    apply elem_of_cons in Hx as [->|Hx]; [eauto|].
    apply (IH w1); [|by eapply HP; [left|..]|done|done].
    intros z wz wz' Hz. apply HP. by right.
Qed.

Module CopyFacts.
Section Copy.
  Variable skipFiles : list string.

  Abbreviation copy := (fun fuel source destination =>
    Example.copyDirectoryRecursive fuel source destination skipFiles).

  (** What the loop of [copyDirectoryRecursive] does with one item. *)
Definition copyItem (fuel : nat) (source destination : path) (item : string) : M unit :=
    if bool_decide (item ∈ skipFiles) then ret tt
    else
      let* stat := FS.statSync (source ++ [item]) in
      if FS.isDirectory stat then
        if bool_decide (item ∈ skipDirs) then ret tt
        else copy fuel (source ++ [item]) (destination ++ [item])
      else FS.copyFileSync (source ++ [item]) (destination ++ [item]).

Lemma copy_unfold fuel source destination :
    copy (S fuel) source destination =
    (let* present := FS.existsSync destination in
     ((if present then ret tt else FS.mkdirSync destination) ;;
      let* items := FS.readdirSync source in
      forEach (copyItem fuel source destination) items)).
  Proof. reflexivity. Qed.

Lemma steady_copyItem fuel source destination item :
    steady (copyItem fuel source destination item).
  Proof.
    unfold copyItem. pose proof ExampleFacts2.steady_copyDirectoryRecursive. steady.
  Qed.

  (** A name that the copy neither passes over nor refuses to enter. *)
Definition unskipped (x : string) : Prop := (x ∉ skipFiles) /\ (x ∉ skipDirs).

Global Instance unskipped_dec x : Decision (unskipped x).
  Proof. unfold unskipped. apply _. Defined.

  (** *** A destination inside the copied tree

      When the destination lies below the source along names that are
      all copied, the copy meets the destination as one of its sources
      and copies it into itself: whatever the budget, it does not
      return. *)
Lemma copy_into_itself d :
    d <> [] -> Forall unskipped d ->
    forall fuel Y k w a w',
      wf (files w) -> k < length d ->
      copy fuel (Y ++ take k d) (Y ++ d ++ take k d) w <> Ret a w'.
  Proof.
    intros Hd Hun. induction fuel as [|fuel IH]; intros Y k w a w' Hwf Hk H; [done|].
    destruct a. rewrite copy_unfold in H.
    apply bind_Ret_inv in H as (present & w0 & H0 & H). apply existsSync_inv in H0 as [-> ->].
    apply bind_Ret_inv in H as ([] & w1 & H1 & H).
    apply bind_Ret_inv in H as (items & w2 & H2 & H).
    apply readdirSync_inv in H2 as (-> & Hsrc & ->).
    (* after the first step the destination exists in a well-formed world *)
    assert (wf (files w1) /\ is_Some (files w1 !! (Y ++ d ++ take k d))) as [Hwf1 Hdst].
    { case_bool_decide as Hpres.
      - apply ret_inv in H1 as [_ ->]. done.
      - split.
        + eapply steady_mkdirSync; [by rewrite H1|done].
        + apply mkdirSync_inv in H1 as (_ & _ & Hl). rewrite Hl.
          destruct (files w !! (Y ++ d ++ take k d)) eqn:E; [eauto|].
          rewrite decide_True by done. eauto. }
    destruct (lookup_lt_is_Some_2 d k Hk) as [x Hx].
    assert (take (S k) d = take k d ++ [x]) as Htake by (by apply take_S_r).
    assert (Y ++ take (S k) d `prefix_of` Y ++ d ++ take k d) as Hpre.
    { apply prefix_app. etrans; [apply prefix_take|]. by apply prefix_app_r. }
    assert (is_Some (files w1 !! (Y ++ take (S k) d))) as Hnext.
    { destruct (decide (Y ++ take (S k) d = Y ++ d ++ take k d)) as [->|Hne]; [done|].
      rewrite (wf_prefix _ _ _ Hwf1 Hdst Hpre Hne). eauto. }
    assert (x ∈ FS.entries (files w1) (Y ++ take k d)) as Hin.
    { apply elem_of_entries. by rewrite <-app_assoc, <-Htake. }
    destruct (forEach_Ret_elem
                (fun wx => wf (files wx) /\ extends (files w1) (files wx))
                (copyItem fuel (Y ++ take k d) (Y ++ d ++ take k d))
                (FS.entries (files w1) (Y ++ take k d)) w1 w' x)
      as (wx & wx' & [Hwfx Hext] & Hrun); [|split; [done|apply extends_refl]|done|done|].
    { intros y wy wy' _ [Hwfy Hexty] Hy.
      destruct (steady_copyItem fuel (Y ++ take k d) (Y ++ d ++ take k d) y wy wy') as [He Hw].
      { by rewrite Hy. }
      split; [auto|by eapply extends_trans]. }
    unfold copyItem in Hrun.
    assert (Hux : unskipped x). { eapply Forall_forall; [done|]. by eapply list_elem_of_lookup_2. }
    destruct Hux as [Hx1 Hx2].
    rewrite bool_decide_false in Hrun by done.
    apply bind_Ret_inv in Hrun as (n & w3 & H3 & Hrun).
    apply statSync_inv in H3 as [-> H3].
    rewrite <-app_assoc, <-Htake in H3.
    assert (is_Some (files wx !! (Y ++ d ++ take k d))) as Hdstx by (by apply Hext).
    destruct n as [c|]; simpl in Hrun.
    { (* a regular file where the copy has to descend: it is the
         destination itself, into which nothing can be written *)
      apply copyFileSync_inv in Hrun as (c' & _ & _ & Hpar & _).
      rewrite parent_snoc in Hpar.
      destruct (decide (Y ++ take (S k) d = Y ++ d ++ take k d)) as [E|Hne].
      - rewrite E in H3. congruence.
      - rewrite (wf_prefix _ _ _ Hwfx Hdstx Hpre Hne) in H3. done. }
    rewrite bool_decide_false in Hrun by done.
    rewrite <-!app_assoc, <-Htake in Hrun.
    destruct (decide (S k < length d)) as [Hlt|Hge].
    - by eapply IH.
    - rewrite take_ge in Hrun by lia.
      eapply (IH (Y ++ d) 0 wx); [done|lia|].
      rewrite take_0, !app_nil_r. rewrite <-app_assoc. exact Hrun.
  Qed.
End Copy.
End CopyFacts.

(** The file system after [mkdir -p destination]. *)
Definition created (fs : gmap (list string) node) (destination : path)
  : gmap (list string) node :=
  default fs (FS.ensure_dirs (FS.prefixes destination) fs).

Definition mkdir_ok (fs : gmap (list string) node) (destination : path) : Prop :=
  forall q c, q `prefix_of` destination -> fs !! q <> Some (File c).

Lemma mkdirSync_created fs destination cons :
  mkdir_ok fs destination ->
  FS.mkdirSync destination (World fs cons) = Ret tt (World (created fs destination) cons).
Proof.
  intros H. destruct (mkdirSync_Ret destination (World fs cons) H) as (fs' & E & _).
  rewrite E. unfold FS.mkdirSync in E. simpl in E. unfold created.
  destruct (FS.ensure_dirs _ _); by simplify_eq.
Qed.

Lemma lookup_created fs destination k :
  mkdir_ok fs destination ->
  created fs destination !! k =
  match fs !! k with
  | Some n => Some n
  | None => if decide (k `prefix_of` destination) then Some Dir else None
  end.
Proof.
  intros H. pose proof (mkdirSync_created fs destination [] H) as E.
  apply mkdirSync_inv in E as (_ & _ & Hl). apply Hl.
Qed.

Lemma wf_created fs destination : mkdir_ok fs destination -> wf fs -> wf (created fs destination).
Proof.
  intros H Hwf. pose proof (mkdirSync_created fs destination [] H) as E.
  destruct (steady_mkdirSync destination (World fs []) (World (created fs destination) []))
    as [_ Hw]; [by rewrite E|]. by apply Hw.
Qed.

Lemma prefix_snoc_inv {A} (l k : list A) (x : A) :
  l `prefix_of` k ++ [x] -> l = k ++ [x] \/ l `prefix_of` k.
Proof.
  intros [r Hr]. destruct r as [|y r _] using rev_ind.
  - left. by rewrite app_nil_r in Hr.
  - right. rewrite app_assoc in Hr. apply app_inj_tail in Hr as [-> _]. by apply prefix_app_r.
Qed.

Module CopyFacts2.
Section Copy.
  Variable skipFiles : list string.

  Abbreviation copy := (fun fuel source destination =>
    Example.copyDirectoryRecursive fuel source destination skipFiles).
  Abbreviation copyItem := (CopyFacts.copyItem skipFiles).
  Abbreviation unskipped := (CopyFacts.unskipped skipFiles).

  (** The relative paths that the copy of [source] reaches: no name on
      the way is passed over, and every directory on the way is entered. *)
Fixpoint visible (fs : gmap (list string) node) (source : path) (r : path) : bool :=
    match r with
    | [] => true
    | x :: r' =>
        negb (bool_decide (x ∈ skipFiles)) &&
        match fs !! (source ++ [x]) with
        | Some Dir =>
            negb (bool_decide (x ∈ skipDirs)) && visible fs (source ++ [x]) r'
        | Some (File _) => bool_decide (r' = [])
        | None => false
        end
    end.

  (** The destination is not reached from the source along copied names. *)
Definition apart (source destination : path) : Prop :=
    forall d, destination = source ++ d -> ~ Forall unskipped d.

  (** The outcome of a copy that started in [fs1], where the
      destination directory was already made. *)
Definition copied (fs1 : gmap (list string) node) (source destination : path)
      (fs' : gmap (list string) node) : Prop :=
    (forall p, ~ destination `prefix_of` p -> fs' !! p = fs1 !! p) /\
    fs' !! destination = Some Dir /\
    (forall x r, fs' !! (destination ++ x :: r) =
                 if visible fs1 source (x :: r) then fs1 !! (source ++ x :: r) else None).

Lemma apart_step source destination x d :
    apart source destination -> unskipped x ->
    destination = (source ++ [x]) ++ d -> ~ Forall unskipped d.
  Proof.
    intros Hap Hx E Hd. rewrite <-app_assoc in E. eapply Hap; [exact E|]. by constructor.
  Qed.

Lemma apart_child source destination x :
    apart source destination -> unskipped x -> apart (source ++ [x]) (destination ++ [x]).
  Proof.
    intros Hap Hx d E Hd. destruct d as [|y d _] using rev_ind.
    - rewrite app_nil_r in E. apply app_inj_tail in E as [-> _].
      apply (Hap []); [by rewrite app_nil_r|constructor].
    - rewrite !app_assoc in E. apply app_inj_tail in E as [E _].
      rewrite <-app_assoc in E. apply (Hap _ E). constructor; [done|].
      by apply Forall_app in Hd as [Hd _].
  Qed.

  (** Two file systems that differ below the destination only show the
      copy the same sources. *)
Lemma visible_agree destination fsA fsB :
    (forall p, ~ destination `prefix_of` p -> fsA !! p = fsB !! p) ->
    fsA !! destination = Some Dir -> fsB !! destination = Some Dir ->
    forall r source,
      ~ destination `prefix_of` source -> apart source destination ->
      visible fsA source r = visible fsB source r /\
      (visible fsA source r = true ->
       fsA !! (source ++ r) = fsB !! (source ++ r) /\ ~ destination `prefix_of` source ++ r).
  Proof.
    intros Hframe HA HB. induction r as [|x r IH]; intros source Hns Hap.
    - rewrite app_nil_r. simpl. split; [done|]. intros _. split; [by apply Hframe|done].
    - simpl. case_bool_decide as Hsf; simpl; [done|].
      destruct (decide (destination `prefix_of` source ++ [x])) as [Hpre|Hnpre].
      + apply prefix_snoc_inv in Hpre as [->|Hpre]; [|done].
        rewrite HA, HB.
        assert (x ∈ skipDirs) as Hsd.
        { destruct (decide (x ∈ skipDirs)) as [|Hn]; [done|].
          destruct (Hap [x] eq_refl). by repeat constructor. }
        by rewrite (bool_decide_true _ Hsd).
      + rewrite (Hframe _ Hnpre). destruct (fsB !! (source ++ [x])) as [[c|]|] eqn:E; [| |done].
        * split; [done|]. intros Hr. apply bool_decide_eq_true in Hr as ->.
          rewrite (Hframe _ Hnpre). done.
        * case_bool_decide as Hsd; simpl; [done|].
          destruct (IH (source ++ [x]) Hnpre) as [IH1 IH2].
          { intros d Hd. by eapply apart_step. }
          rewrite <-!app_assoc in IH2. simpl in IH2. done.
  Qed.

Lemma visible_exists fs source x r :
    visible fs source (x :: r) = true -> is_Some (fs !! (source ++ x :: r)).
  Proof.
    revert source x. induction r as [|y r IH]; intros source x; simpl.
    - destruct (bool_decide (x ∈ skipFiles)); [done|]. simpl.
      destruct (fs !! (source ++ [x])) as [[?|]|]; eauto. done.
    - destruct (bool_decide (x ∈ skipFiles)); [done|]. simpl.
      destruct (fs !! (source ++ [x])) as [[?|]|]; [done| |done].
      destruct (bool_decide (x ∈ skipDirs)); [done|]. simpl. intros H.
      apply IH in H. by rewrite <-app_assoc in H.
  Qed.
End Copy.
End CopyFacts2.

Module CopyFacts3.
Section Copy.
  Variable skipFiles : list string.

  Abbreviation copy := (fun fuel source destination =>
    Example.copyDirectoryRecursive fuel source destination skipFiles).
  Abbreviation copyItem := (CopyFacts.copyItem skipFiles).
  Abbreviation unskipped := (CopyFacts.unskipped skipFiles).
  Abbreviation visible := (CopyFacts2.visible skipFiles).
  Abbreviation apart := (CopyFacts2.apart skipFiles).
  Abbreviation copied := (CopyFacts2.copied skipFiles).

Lemma elem_of_snoc_ne (done : list string) x y :
    y <> x -> y ∈ done ++ [x] <-> y ∈ done.
  Proof. intros Hne. rewrite elem_of_app, list_elem_of_singleton. tauto. Qed.

Lemma elem_of_snoc (done : list string) x : x ∈ done ++ [x].
  Proof. rewrite elem_of_app, list_elem_of_singleton. tauto. Qed.

Lemma created_child fs p x :
    wf fs -> fs !! p = Some Dir -> fs !! (p ++ [x]) = None ->
    mkdir_ok fs (p ++ [x]) /\ created fs (p ++ [x]) = <[p ++ [x] := Dir]> fs.
  Proof.
    intros Hwf Hp Hx.
    assert (mkdir_ok fs (p ++ [x])) as Hok.
    { intros q c Hq. apply prefix_snoc_inv in Hq as [->|Hq]; [congruence|].
      destruct (decide (q = p)) as [->|Hne]; [congruence|].
      rewrite (wf_prefix fs p q); eauto. }
    split; [done|].
    pose proof (mkdirSync_created fs (p ++ [x]) [] Hok) as E1.
    pose proof (mkdirSync_child p x (World fs []) Hwf Hp Hx) as E2.
    rewrite E1 in E2. by injection E2.
  Qed.

  Section Loop.
    Variables (fuel : nat) (source destination : path).
    Variable fs1 : gmap (list string) node.
    Variable cons : list string.

    Hypothesis IH : forall src dst fs,
      wf fs -> fs !! src = Some Dir -> (forall r, fs !! (dst ++ r) = None) ->
      mkdir_ok fs dst -> apart src dst ->
      (forall r, visible (created fs dst) src r = true -> length r < fuel) ->
      exists fs', copy fuel src dst (World fs cons) = Ret tt (World fs' cons) /\
                  copied (created fs dst) src dst fs'.
    Hypothesis Hwf1 : wf fs1.
    Hypothesis Hsrc : fs1 !! source = Some Dir.
    Hypothesis Hdst : fs1 !! destination = Some Dir.
    Hypothesis Hfresh : forall x r, fs1 !! (destination ++ x :: r) = None.
    Hypothesis Hap : apart source destination.
    Hypothesis Hfuel : forall r, visible fs1 source r = true -> length r < S fuel.

    (** The state of the loop after the items [done]. *)
Definition J (done : list string) (fs : gmap (list string) node) : Prop :=
      wf fs /\
      (forall p, ~ destination `prefix_of` p -> fs !! p = fs1 !! p) /\
      fs !! destination = Some Dir /\
      forall x r, fs !! (destination ++ x :: r) =
                  if decide (x ∈ done) then
                    if visible fs1 source (x :: r) then fs1 !! (source ++ x :: r) else None
                  else None.

Lemma not_under : ~ destination `prefix_of` source.
    Proof.
      intros [r ->]. destruct r as [|x r].
      - apply (Hap []); [by rewrite !app_nil_r|constructor].
      - rewrite Hfresh in Hsrc. done.
    Qed.

Lemma J_invisible done fs x :
      J done fs -> x ∉ done -> (forall r, visible fs1 source (x :: r) = false) ->
      J (done ++ [x]) fs.
    Proof.
      intros (J1 & J2 & J3 & J4) Hx Hinv. repeat split; try done.
      intros y r. rewrite J4. destruct (decide (y = x)) as [->|Hne].
      - rewrite decide_False by done. rewrite decide_True by apply elem_of_snoc.
        by rewrite Hinv.
      - destruct (decide (y ∈ done)).
        + by rewrite decide_True by (by apply elem_of_snoc_ne).
        + by rewrite decide_False by (by rewrite elem_of_snoc_ne).
    Qed.

Lemma item_step done fs x :
      J done fs -> x ∉ done -> is_Some (fs1 !! (source ++ [x])) ->
      exists fs', copyItem fuel source destination x (World fs cons) = Ret tt (World fs' cons) /\
                  J (done ++ [x]) fs'.
    Proof.
      intros HJ Hx [n Hn]. pose proof HJ as (J1 & J2 & J3 & J4).
      unfold CopyFacts.copyItem. case_bool_decide as Hsf.
      { exists fs. split; [done|]. apply J_invisible; [done..|].
        intros r. simpl. by rewrite (bool_decide_true _ Hsf). }
      destruct (decide (destination `prefix_of` source ++ [x])) as [Hpre|Hnpre].
      { apply prefix_snoc_inv in Hpre as [E|Hpre]; [|by destruct not_under].
        assert (x ∈ skipDirs) as Hsd.
        { destruct (decide (x ∈ skipDirs)) as [|Hnsd]; [done|].
          destruct (Hap [x] E). by repeat constructor. }
        exists fs. split.
        - erewrite bind_Ret; [|apply statSync_Ret; simpl; rewrite <-E; exact J3].
          simpl. by rewrite (bool_decide_true _ Hsd).
        - apply J_invisible; [done..|]. intros r. simpl.
          rewrite <-E, Hdst. rewrite (bool_decide_true _ Hsd). by rewrite andb_false_r. }
      assert (fs !! (source ++ [x]) = Some n) as Hcur by (by rewrite J2).
      erewrite bind_Ret; [|by apply statSync_Ret].
      assert (forall y r, y <> x ->
                (if decide (y ∈ done ++ [x]) then
                   if visible fs1 source (y :: r) then fs1 !! (source ++ y :: r) else None
                 else None) = fs !! (destination ++ y :: r)) as Hother.
      { intros y r Hne. rewrite J4. destruct (decide (y ∈ done)).
        - by rewrite decide_True by (by apply elem_of_snoc_ne).
        - by rewrite decide_False by (by rewrite elem_of_snoc_ne). }
      assert (destination ++ [x] <> destination) as Hneq.
      { intros E. apply (f_equal length) in E. rewrite length_app in E. simpl in E. lia. }
      assert (fs !! (destination ++ [x]) = None) as Hnew.
      { rewrite J4. by rewrite decide_False. }
      destruct n as [c|]; simpl.
      - (* a regular file *)
        exists (<[destination ++ [x] := File c]> fs). split.
        { apply (copyFileSync_Ret _ _ c (World fs cons)); simpl; [done|congruence|].
          by rewrite parent_snoc. }
        split; [apply wf_insert_file; [done|congruence|by rewrite parent_snoc]|].
        split; [|split].
        + intros p Hp. rewrite lookup_insert_ne; [by apply J2|].
          intros <-. apply Hp. by apply prefix_app_r.
        + by rewrite lookup_insert_ne.
        + intros y r. destruct (decide (y = x)) as [->|Hne].
          * rewrite decide_True by apply elem_of_snoc. simpl.
            rewrite (bool_decide_false _ Hsf), Hn. simpl.
            destruct r as [|z r]; simpl.
            -- by rewrite lookup_insert_eq.
            -- rewrite lookup_insert_ne.
               ++ rewrite J4. by rewrite decide_False.
               ++ intros E. apply app_inv_head in E. done.
          * rewrite Hother by done. rewrite lookup_insert_ne; [done|].
            intros E. apply app_inv_head in E. congruence.
      - (* a directory *)
        case_bool_decide as Hsd.
        { exists fs. split; [done|]. apply J_invisible; [done..|].
          intros r. simpl. rewrite Hn, (bool_decide_true _ Hsd). by rewrite andb_false_r. }
        assert (unskipped x) as Hux by done.
        destruct (created_child fs destination x J1 J3 Hnew) as [Hok Hcr].
        set (fsA := <[destination ++ [x] := Dir]> fs) in *.
        assert (forall p, ~ destination `prefix_of` p -> fsA !! p = fs1 !! p) as HframeA.
        { intros p Hp. unfold fsA. rewrite lookup_insert_ne; [by apply J2|].
          intros <-. apply Hp. by apply prefix_app_r. }
        assert (fsA !! destination = Some Dir) as HdstA.
        { unfold fsA. by rewrite lookup_insert_ne. }
        assert (forall r,
                  visible fsA (source ++ [x]) r = visible fs1 (source ++ [x]) r /\
                  (visible fsA (source ++ [x]) r = true ->
                   fsA !! ((source ++ [x]) ++ r) = fs1 !! ((source ++ [x]) ++ r) /\
                   ~ destination `prefix_of` (source ++ [x]) ++ r)) as Hagree.
        { intros r. apply (CopyFacts2.visible_agree skipFiles destination); try done.
          intros d Hd. by eapply CopyFacts2.apart_step. }
        assert (forall r, visible fs1 source (x :: r) = visible fs1 (source ++ [x]) r) as Hvis.
        { intros r. simpl. rewrite (bool_decide_false _ Hsf), Hn, (bool_decide_false _ Hsd). done. }
        destruct (IH (source ++ [x]) (destination ++ [x]) fs) as (fs' & Hrun & Hc1 & Hc2 & Hc3);
          try done.
        { intros r. rewrite <-app_assoc. simpl. rewrite J4. by rewrite decide_False. }
        { by apply CopyFacts2.apart_child. }
        { intros r Hr. rewrite Hcr in Hr. destruct (Hagree r) as [Hv _].
          rewrite Hv, <-Hvis in Hr. apply Hfuel in Hr. simpl in Hr. lia. }
        rewrite Hcr in Hc1, Hc3.
        exists fs'. split; [done|]. split; [|split; [|split]].
        + destruct (ExampleFacts2.steady_copyDirectoryRecursive fuel (source ++ [x])
                      (destination ++ [x]) skipFiles (World fs cons) (World fs' cons))
            as [_ Hw]; [by rewrite Hrun|]. by apply Hw.
        + intros p Hp. rewrite Hc1; [by apply HframeA|].
          intros Hq. apply Hp. etrans; [|done]. by apply prefix_app_r.
        + rewrite Hc1; [done|]. intros Hq. by apply prefix_snoc_not in Hq.
        + intros y r. destruct (decide (y = x)) as [->|Hne].
          * rewrite decide_True by apply elem_of_snoc. rewrite Hvis.
            destruct r as [|z r].
            -- simpl. rewrite Hc2, Hn. done.
            -- replace (destination ++ x :: z :: r) with ((destination ++ [x]) ++ z :: r)
                 by (by rewrite <-app_assoc).
               rewrite Hc3. destruct (Hagree (z :: r)) as [Hv Hl]. rewrite Hv.
               destruct (visible fs1 (source ++ [x]) (z :: r)) eqn:Ev; [|done].
               rewrite Hv in Hl. destruct (Hl eq_refl) as [-> _].
               by rewrite <-app_assoc.
          * rewrite Hother by done. rewrite Hc1.
            -- unfold fsA. rewrite lookup_insert_ne; [done|].
               intros E. apply app_inv_head in E. congruence.
            -- intros Hq. apply prefix_app_inv in Hq.
               apply prefix_cons_inv_1 in Hq. congruence.
    Qed.

Lemma loop items :
      forall done fs,
        NoDup items -> (forall x, x ∈ items -> x ∉ done) ->
        (forall x, x ∈ items -> is_Some (fs1 !! (source ++ [x]))) ->
        J done fs ->
        exists fs', forEach (copyItem fuel source destination) items (World fs cons)
                    = Ret tt (World fs' cons) /\ J (done ++ items) fs'.
    Proof.
      induction items as [|x items IHitems]; intros done fs Hnd Hfr Hex HJ.
      - exists fs. by rewrite app_nil_r.
      - apply NoDup_cons in Hnd as [Hx Hnd].
        destruct (item_step done fs x HJ) as (fs2 & Hrun & HJ2).
        { apply Hfr. by left. }
        { apply Hex. by left. }
        destruct (IHitems (done ++ [x]) fs2 Hnd) as (fs' & Hrun' & HJ'); [| |done|].
        { intros y Hy. rewrite elem_of_app, list_elem_of_singleton.
          intros [Hd| ->]; [|done]. eapply Hfr; [|done]. by right. }
        { intros y Hy. apply Hex. by right. }
        exists fs'. split.
        + simpl. by rewrite (bind_Ret _ _ _ _ _ Hrun).
        + by rewrite <-app_assoc in HJ'.
    Qed.
  End Loop.

  (** *** The copy is right

      When the destination is fresh and apart from the source, a copy
      with a budget above the depth of the source returns, leaves
      everything outside the destination as [mkdir -p] made it, and
      puts below the destination exactly what it reaches below the
      source. *)
Lemma copy_correct fuel :
    forall source destination fs cons,
      wf fs -> fs !! source = Some Dir -> (forall r, fs !! (destination ++ r) = None) ->
      mkdir_ok fs destination -> apart source destination ->
      (forall r, visible (created fs destination) source r = true -> length r < fuel) ->
      exists fs', copy fuel source destination (World fs cons) = Ret tt (World fs' cons) /\
                  copied (created fs destination) source destination fs'.
  Proof.
    induction fuel as [|fuel IH]; intros source destination fs cons Hwf Hsrc Hfresh Hok Hap Hfuel.
    { specialize (Hfuel [] eq_refl). simpl in Hfuel. lia. }
    set (fs1 := created fs destination) in *.
    assert (forall k, fs1 !! k = match fs !! k with
                                 | Some n => Some n
                                 | None => if decide (k `prefix_of` destination)
                                           then Some Dir else None
                                 end) as Hl.
    { intros k. by apply lookup_created. }
    assert (wf fs1) as Hwf1 by (by apply wf_created).
    assert (fs1 !! source = Some Dir) as Hsrc1 by (by rewrite Hl, Hsrc).
    assert (fs1 !! destination = Some Dir) as Hdst1.
    { rewrite Hl. specialize (Hfresh []). rewrite app_nil_r in Hfresh.
      rewrite Hfresh. by rewrite decide_True. }
    assert (forall x r, fs1 !! (destination ++ x :: r) = None) as Hfresh1.
    { intros x r. rewrite Hl, Hfresh. rewrite decide_False; [done|].
      intros Hp. apply prefix_length in Hp. rewrite length_app in Hp. simpl in Hp. lia. }
    destruct (loop fuel source destination fs1 cons
                (fun src dst fs0 => IH src dst fs0 cons) Hsrc1 Hdst1 Hfresh1 Hap Hfuel
                (FS.entries fs1 source) [] fs1) as (fs' & Hrun & HJ).
    { apply NoDup_entries. }
    { intros x _. apply not_elem_of_nil. }
    { intros x Hx. by apply elem_of_entries. }
    { by repeat split. }
    destruct HJ as (J1 & J2 & J3 & J4). exists fs'. split.
    - rewrite CopyFacts.copy_unfold. unfold bind at 1. rewrite existsSync_eq. simpl.
      specialize (Hfresh []). rewrite app_nil_r in Hfresh. rewrite Hfresh.
      rewrite bool_decide_false by (by intros [? ?]).
      erewrite bind_Ret; [|by apply mkdirSync_created].
      erewrite bind_Ret; [|by apply readdirSync_Ret]. exact Hrun.
    - repeat split; try done. intros x r. rewrite J4. simpl app.
      destruct (decide (x ∈ FS.entries fs1 source)) as [Hin|Hnin]; [done|].
      simpl. destruct (fs1 !! (source ++ [x])) eqn:E.
      + destruct Hnin. apply elem_of_entries. by rewrite E.
      + by rewrite andb_false_r.
  Qed.
End Copy.
End CopyFacts3.

(** ** Scripts that never call [process.exit] *)

Definition never_exits {A} (c : M A) : Prop := forall w code w', c w <> Exit code w'.

Lemma bind_Exit_inv {A B} (c : M A) (k : A -> M B) w code w' :
  bind c k w = Exit code w' ->
  c w = Exit code w' \/ exists a w1, c w = Ret a w1 /\ k a w1 = Exit code w'.
Proof.
  unfold bind. destruct (c w) as [a w1|code1 w1|e w1|]; intros H; simplify_eq; eauto.
Qed.

Section NeverExits.
Lemma never_exits_ret {A} (a : A) : never_exits (ret a).
  Proof. by intros w code w'. Qed.
Lemma never_exits_throw {A} e : never_exits (@throw A e).
  Proof. by intros w code w'. Qed.
Lemma never_exits_diverge {A} : never_exits (@diverge A).
  Proof. by intros w code w'. Qed.
Lemma never_exits_log message color : never_exits (log message color).
  Proof. by intros w code w'. Qed.
Lemma never_exits_success message : never_exits (success message).
  Proof. by intros w code w'. Qed.
Lemma never_exits_info message : never_exits (info message).
  Proof. by intros w code w'. Qed.
Lemma never_exits_bind {A B} (c : M A) (k : A -> M B) :
    never_exits c -> (forall a, never_exits (k a)) -> never_exits (bind c k).
  Proof.
    intros Hc Hk w code w' H. apply bind_Exit_inv in H as [H|(a & w1 & _ & H)].
    - by eapply Hc.
    - by eapply Hk.
  Qed.
Lemma never_exits_forEach {A} (f : A -> M unit) items :
    (forall x, never_exits (f x)) -> never_exits (forEach f items).
  Proof.
    intros H. induction items as [|x items IH]; simpl; [apply never_exits_ret|].
    apply never_exits_bind; [apply H|by intros _].
  Qed.
Lemma never_exits_if {A} (b : bool) (c1 c2 : M A) :
    never_exits c1 -> never_exits c2 -> never_exits (if b then c1 else c2).
  Proof. by destruct b. Qed.
Lemma never_exits_existsSync p : never_exits (FS.existsSync p).
  Proof. by intros w code w'. Qed.
Lemma never_exits_statSync p : never_exits (FS.statSync p).
  Proof. intros w code w'. unfold FS.statSync. by destruct (files w !! p). Qed.
Lemma never_exits_readdirSync p : never_exits (FS.readdirSync p).
  Proof. intros w code w'. unfold FS.readdirSync. by destruct (files w !! p) as [[?|]|]. Qed.
Lemma never_exits_readFileSync p : never_exits (FS.readFileSync p).
  Proof. intros w code w'. unfold FS.readFileSync. by destruct (files w !! p) as [[?|]|]. Qed.
Lemma never_exits_mkdirSync p : never_exits (FS.mkdirSync p).
  Proof. intros w code w'. unfold FS.mkdirSync. by destruct (FS.ensure_dirs _ _). Qed.
Lemma never_exits_writeFileSync p c : never_exits (FS.writeFileSync p c).
  Proof.
    intros w code w'. unfold FS.writeFileSync.
    by destruct (files w !! p) as [[?|]|]; destruct (files w !! FS.parent p) as [[?|]|].
  Qed.
Lemma never_exits_copyFileSync src dst : never_exits (FS.copyFileSync src dst).
  Proof.
    apply never_exits_bind; [apply never_exits_readFileSync|].
    intros c. apply never_exits_writeFileSync.
  Qed.
End NeverExits.

Create HintDb never_exits.
Global Hint Resolve never_exits_ret never_exits_throw never_exits_diverge never_exits_log
  never_exits_success never_exits_info never_exits_existsSync never_exits_statSync
  never_exits_readdirSync never_exits_readFileSync never_exits_mkdirSync
  never_exits_writeFileSync never_exits_copyFileSync : never_exits.

Ltac never_exits :=
  repeat first
    [ progress eauto with never_exits
    | apply never_exits_bind; [|intros ?]
    | apply never_exits_if
    | apply never_exits_forEach; intros ?
    | match goal with
      | |- never_exits (match ?x with _ => _ end) => destruct x
      end ].

Lemma never_exits_copyDirectoryRecursive fuel source destination skipFiles :
  never_exits (Example.copyDirectoryRecursive fuel source destination skipFiles).
Proof.
  revert source destination. induction fuel as [|fuel IH]; intros source destination; simpl.
  - apply never_exits_diverge.
  - never_exits.
Qed.

(** A larger budget does not change a copy that returned. *)
Lemma forEach_Ret_impl {A} (f g : A -> M unit) items w w' :
  (forall x wx wx', f x wx = Ret tt wx' -> g x wx = Ret tt wx') ->
  forEach f items w = Ret tt w' -> forEach g items w = Ret tt w'.
Proof.
  intros Hfg. revert w. induction items as [|x items IH]; intros w; simpl; [done|].
  intros H. apply bind_Ret_inv in H as ([] & w1 & H1 & H2).
  rewrite (bind_Ret _ _ _ _ _ (Hfg _ _ _ H1)). by apply IH.
Qed.

Lemma copy_fuel_mono skipFiles fuel fuel' source destination w w' :
  fuel <= fuel' ->
  Example.copyDirectoryRecursive fuel source destination skipFiles w = Ret tt w' ->
  Example.copyDirectoryRecursive fuel' source destination skipFiles w = Ret tt w'.
Proof.
  revert fuel' source destination w w'.
  induction fuel as [|fuel IH]; intros fuel' source destination w w' Hle H; [done|].
  destruct fuel' as [|fuel']; [lia|].
  rewrite CopyFacts.copy_unfold in *.
  apply bind_Ret_inv in H as (present & w0 & H0 & H). rewrite (bind_Ret _ _ _ _ _ H0).
  apply bind_Ret_inv in H as ([] & w1 & H1 & H). rewrite (bind_Ret _ _ _ _ _ H1).
  apply bind_Ret_inv in H as (items & w2 & H2 & H). rewrite (bind_Ret _ _ _ _ _ H2).
  eapply forEach_Ret_impl; [|done].
  intros x wx wx'. unfold CopyFacts.copyItem.
  case_bool_decide; [done|].
  intros Hx. apply bind_Ret_inv in Hx as (n & w3 & Hst & Hx). rewrite (bind_Ret _ _ _ _ _ Hst).
  destruct (FS.isDirectory n); [|done]. case_bool_decide; [done|].
  apply IH; [lia|done].
Qed.

(** The length of the longest path of the file system. *)
Definition depth (fs : gmap (list string) node) : nat :=
  max_list (length <$> (map_to_list fs).*1).

Lemma depth_lookup fs p : is_Some (fs !! p) -> length p <= depth fs.
Proof.
  intros [n Hn]. unfold depth. apply max_list_elem_of_le.
  apply list_elem_of_fmap. exists p. split; [done|].
  apply list_elem_of_fmap. exists (p, n). split; [done|]. by apply elem_of_map_to_list.
Qed.

(** ** The matcher *)

Module RegexFacts.
  Import Regex.

  (** The least number of characters that a match of [r] consumes. *)
Fixpoint min_len (r : regex) : nat :=
    match r with
    | Eps | Bol | Eol | Star _ _ => 0
    | Chr _ | Class _ => 1
    | Seq r1 r2 => min_len r1 + min_len r2
    | Alt r1 r2 => min_len r1 `min` min_len r2
    | Group _ r1 => min_len r1
    end.

  (** Every group of [r] can only capture text. *)
Fixpoint proper (r : regex) : Prop :=
    match r with
    | Seq r1 r2 | Alt r1 r2 => proper r1 /\ proper r2
    | Star _ r1 => proper r1
    | Group _ r1 => 0 < min_len r1 /\ proper r1
    | _ => True
    end.

Definition captures_text (st : mstate) : Prop :=
    Forall (fun c => c.2 <> "") (caps st).

  (** [st'] is a state of the same attempt, further on in the input. *)
Definition later (st st' : mstate) : Prop :=
    pos st <= pos st' /\
    pos st' + String.length (rest st') = pos st + String.length (rest st).

Definition keeps (st st' : mstate) : Prop := captures_text st -> captures_text st'.

Lemma later_refl st : later st st.
  Proof. by split. Qed.

Lemma later_trans st1 st2 st3 : later st1 st2 -> later st2 st3 -> later st1 st3.
  Proof. intros [? ?] [? ?]. split; lia. Qed.

Lemma orelse_Some {A} (x y : option A) r :
    orelse x y = Some r -> x = Some r \/ y = Some r.
  Proof. destruct x; simpl; auto. Qed.

Lemma step_inv p k st res :
    step p k st = Some res ->
    exists st', k st' = Some res /\ later st st' /\ pos st + 1 <= pos st' /\ keeps st st'.
  Proof.
    unfold step. destruct (rest st) as [|c t] eqn:E; [done|].
    destruct (p c); [|done]. intros H. eexists. split; [exact H|].
    unfold later, keeps, captures_text. simpl. rewrite E. simpl. repeat split; try lia. done.
  Qed.

Lemma star_inv (Q : mstate -> mstate -> Prop) greedy body fuel :
    (forall st, Q st st) -> (forall st1 st2 st3, Q st1 st2 -> Q st2 st3 -> Q st1 st3) ->
    (forall k st res, body k st = Some res -> exists st', k st' = Some res /\ Q st st') ->
    forall k st res,
      star greedy body fuel k st = Some res -> exists st', k st' = Some res /\ Q st st'.
  Proof.
    intros Hrefl Htrans Hbody. induction fuel as [|fuel IH]; intros k st res H; simpl in H.
    - exists st. by split.
    - assert (k st = Some res \/
              body (fun st' => if pos st' =? pos st then None
                               else star greedy body fuel k st') st = Some res) as [Hk|Hb].
      { destruct greedy; apply orelse_Some in H; tauto. }
      + exists st. by split.
      + apply Hbody in Hb as (st1 & H1 & Hl1). destruct (pos st1 =? pos st); [done|].
        apply IH in H1 as (st' & H' & Hl'). exists st'. split; [done|by eapply Htrans].
  Qed.

Lemma substring_nonempty n s : 0 < n -> 0 < String.length s -> substring 0 n s <> "".
  Proof. destruct n, s; simpl; try lia. done. Qed.

  (** A match of [r] reaches its continuation in a later state, at
      least [min_len r] characters on, and with captures that are text
      if the groups of [r] are proper. *)
Lemma run_inv multiline r :
    forall k st res,
      run multiline r k st = Some res ->
      exists st', k st' = Some res /\ later st st' /\ pos st + min_len r <= pos st' /\
                  (proper r -> keeps st st').
  Proof.
    induction r as [|c|p|r1 IH1 r2 IH2|r1 IH1 r2 IH2|g r1 IH1|n r1 IH1| |];
      intros k st res H; cbn [run min_len proper] in *.
    - exists st. split; [done|]. split; [apply later_refl|]. split; [lia|]. by intros _ ?.
    - destruct (step_inv _ _ _ _ H) as (st' & ? & ? & ? & ?). exists st'. eauto.
    - destruct (step_inv _ _ _ _ H) as (st' & ? & ? & ? & ?). exists st'. eauto.
    - apply IH1 in H as (st1 & H1 & Hl1 & Hm1 & Hk1).
      apply IH2 in H1 as (st2 & H2 & Hl2 & Hm2 & Hk2).
      exists st2. split; [done|]. split; [by eapply later_trans|]. split; [lia|].
      intros [Hp1 Hp2] Hc. by apply Hk2, Hk1.
    - apply orelse_Some in H as [H|H].
      + apply IH1 in H as (st1 & H1 & Hl1 & Hm1 & Hk1). exists st1.
        split; [done|]. split; [done|]. split; [lia|]. intros [? ?]. auto.
      + apply IH2 in H as (st1 & H1 & Hl1 & Hm1 & Hk1). exists st1.
        split; [done|]. split; [done|]. split; [lia|]. intros [? ?]. auto.
    - apply (star_inv (fun st st' => later st st' /\ (proper r1 -> keeps st st'))) in H
        as (st' & H' & Hl' & Hk').
      + exists st'. split; [done|]. split; [done|]. split; [|done]. destruct Hl'. lia.
      + intros st0. split; [apply later_refl|]. by intros _ ?.
      + intros st1 st2 st3 [? Hk1] [? Hk2]. split; [by eapply later_trans|].
        intros Hp Hc. by apply Hk2, Hk1.
      + intros k0 st0 res0 H0. apply IH1 in H0 as (st1 & ? & ? & ? & ?). eauto.
    - apply IH1 in H as (st1 & H1 & Hl1 & Hm1 & Hk1).
      eexists. split; [exact H1|]. destruct Hl1 as [Hl1 Hl2].
      split; [by split|]. split; [simpl; lia|].
      intros [Hpos Hp1] Hc. unfold keeps, captures_text in *. simpl.
      constructor; [|by apply Hk1]. simpl. apply substring_nonempty; lia.
    - destruct (at_bol multiline st); [|done]. exists st.
      split; [done|]. split; [apply later_refl|]. split; [lia|]. by intros _ ?.
    - destruct (at_eol multiline st); [|done]. exists st.
      split; [done|]. split; [apply later_refl|]. split; [lia|]. by intros _ ?.
  Qed.

  (** What a successful attempt returns. *)
Lemma match_here_inv multiline r st m :
    match_here multiline r st = Some m ->
    index m = pos st /\ index m + min_len r <= endIndex m /\
    endIndex m <= pos st + String.length (rest st) /\
    (proper r -> captures_text st -> Forall (fun c => c.2 <> "") (groups m)).
  Proof.
    unfold match_here. destruct (run multiline r Some st) as [st1|] eqn:E; [|done].
    intros [= <-]. simpl.
    apply run_inv in E as (st' & [= ->] & [Hl1 Hl2] & Hm & Hk).
    repeat split; [lia|lia|]. intros Hp Hc. by apply Hk.
  Qed.

Lemma search_inv multiline r p s i m :
    search multiline r p s i = Some m ->
    i <= index m /\ index m + min_len r <= endIndex m /\
    endIndex m <= i + String.length s /\
    (proper r -> Forall (fun c => c.2 <> "") (groups m)).
  Proof.
    revert p i. induction s as [|c s IH]; intros p i; simpl.
    - destruct (match_here _ _ _) as [m'|] eqn:E; [|done]. intros [= ->].
      apply match_here_inv in E as (?&?&?&Hc). simpl in *.
      repeat split; [lia|lia|lia|]. intros Hp. apply Hc; [done|constructor].
    - destruct (match_here _ _ _) as [m'|] eqn:E.
      + intros [= ->]. apply match_here_inv in E as (?&?&?&Hc). simpl in *.
        repeat split; [lia|lia|lia|]. intros Hp. apply Hc; [done|constructor].
      + intros H. apply IH in H as (?&?&?&?). repeat split; [lia|lia|lia|done].
  Qed.

Lemma seek_inv p s i n q s' j :
    seek p s i n = Some (q, s', j) ->
    j = i + n /\ String.length s = n + String.length s'.
  Proof.
    revert p s i. induction n as [|n IH]; intros p s i.
    - intros H. simpl in H. injection H as -> -> ->. split; [lia|done].
    - simpl. destruct s as [|c s]; [done|]. intros H. apply IH in H as [-> E]. simpl. lia.
  Qed.

Lemma exec_inv multiline r s lastIndex m :
    exec multiline r s lastIndex = Some m ->
    lastIndex <= index m /\ index m + min_len r <= endIndex m /\
    endIndex m <= String.length s /\
    (proper r -> Forall (fun c => c.2 <> "") (groups m)).
  Proof.
    unfold exec. destruct (seek None s 0 lastIndex) as [[[q s'] j]|] eqn:E; [|done].
    apply seek_inv in E as [-> E]. intros H.
    apply search_inv in H as (?&?&?&?). repeat split; [lia|lia|lia|done].
  Qed.

  (** The loop over the matches of a regular expression that cannot
      match the empty string ends. *)
Lemma exec_loop_ends multiline r s :
    0 < min_len r ->
    forall fuel lastIndex,
      0 < fuel -> String.length s + 1 <= fuel + lastIndex ->
      is_Some (exec_loop fuel multiline r s lastIndex).
  Proof.
    intros Hpos. induction fuel as [|fuel IH]; intros lastIndex Hf Hlen; [lia|].
    simpl. destruct (exec multiline r s lastIndex) as [m|] eqn:E; [|eauto].
    apply exec_inv in E as (?&?&?&?).
    destruct (IH (endIndex m)) as [l Hl]; [lia|lia|]. rewrite Hl. simpl. eauto.
  Qed.

Lemma group_nonempty m n s :
    Forall (fun c : nat * string => c.2 <> "") (groups m) -> group n m = Some s -> s <> "".
  Proof.
    unfold group. intros Hall.
    destruct (find _ (groups m)) as [[n' s']|] eqn:E; [|done].
    intros [= <-]. apply find_some in E as [Hin _].
    rewrite Forall_forall in Hall. apply (Hall (n', s')). by apply list_elem_of_In.
  Qed.
End RegexFacts.

(** Two paths below the same directory differ when what follows the
    directory differs. *)
Ltac path_neq :=
  let E := fresh in
  intros E; apply app_inv_head in E; discriminate E.

Lemma lookup_sibling (fs : gmap (list string) node) (dir : path) (a b : path) n :
  a <> b -> <[dir ++ a := n]> fs !! (dir ++ b) = fs !! (dir ++ b).
Proof. intros H. apply lookup_insert_ne. intros E. by apply app_inv_head in E. Qed.

Module DocsFacts.
Section Facts.
  Variable JSON_stringify : json -> string.
  Variable cwd : path.

  Abbreviation generateDocumentation := (Docs.generateDocumentation JSON_stringify cwd).
  Abbreviation main := (Docs.main JSON_stringify cwd).

Definition docsDir : path := cwd ++ ["docs"].
Definition contractPath : path := cwd ++ ["contracts"; "ArtifactAuction.sol"].
Definition testPath : path := cwd ++ ["test"; "ArtifactAuction.ts"].
Definition contractDocPath : path := cwd ++ ["docs"; "artifact-auction.md"].
Definition apiPath : path := cwd ++ ["docs"; "api.md"].
Definition summaryPath : path := cwd ++ ["SUMMARY.md"].
Definition bookPath : path := cwd ++ ["book.json"].

  (** What the generator prints after the contract document, whether
      it wrote that document or not. *)
Definition closing_lines : list string :=
    [ line Green "Success: Generated api.md";
      line Green "Success: Generated SUMMARY.md";
      line Green "Success: Generated book.json";
      line Green (nl +:+ repeat_str "=" 60);
      line Green "Success: Documentation generated successfully";
      line Green (repeat_str "=" 60);
      line Yellow (nl +:+ "Generated files:");
      line Reset "  - docs/artifact-auction.md";
      line Reset "  - docs/api.md";
      line Reset "  - SUMMARY.md";
      line Reset "  - book.json";
      line Cyan (nl +:+ "To serve documentation locally:");
      line Reset "  npm install -g gitbook-cli";
      line Reset "  gitbook serve" ].

  (** The part of [generateDocumentation] after the contract document. *)
Definition writeRest : M unit :=
    FS.writeFileSync apiPath Docs.apiDoc ;;
    success "Generated api.md" ;;
    FS.writeFileSync summaryPath Docs.generateSummary ;;
    success "Generated SUMMARY.md" ;;
    FS.writeFileSync bookPath (JSON_stringify Docs.bookConfig) ;;
    success "Generated book.json" ;;
    log (nl +:+ repeat_str "=" 60) Green ;;
    success "Documentation generated successfully" ;;
    log (repeat_str "=" 60) Green ;;
    log (nl +:+ "Generated files:") Yellow ;;
    log "  - docs/artifact-auction.md" Reset ;;
    log "  - docs/api.md" Reset ;;
    log "  - SUMMARY.md" Reset ;;
    log "  - book.json" Reset ;;
    log (nl +:+ "To serve documentation locally:") Cyan ;;
    log "  npm install -g gitbook-cli" Reset ;;
    log "  gitbook serve" Reset.

Definition rest_files (fs : gmap (list string) node) : gmap (list string) node :=
    <[bookPath := File (JSON_stringify Docs.bookConfig)]>
      (<[summaryPath := File Docs.generateSummary]>
         (<[apiPath := File Docs.apiDoc]> fs)).

Lemma writeRest_Ret w :
    files w !! docsDir = Some Dir -> files w !! cwd = Some Dir ->
    files w !! apiPath <> Some Dir -> files w !! summaryPath <> Some Dir ->
    files w !! bookPath <> Some Dir ->
    writeRest w = Ret tt (World (rest_files (files w)) (console w ++ closing_lines)).
  Proof.
    intros Hdocs Hcwd Hapi Hsum Hbook. unfold writeRest.
    erewrite bind_Ret; [|apply writeFileSync_Ret; [done|]].
    2:{ unfold apiPath. change (cwd ++ ["docs"; "api.md"]) with (cwd ++ ["docs"] ++ ["api.md"]).
        rewrite app_assoc, parent_snoc. exact Hdocs. }
    erewrite bind_Ret; [|reflexivity].
    erewrite bind_Ret; [|apply writeFileSync_Ret; simpl].
    2:{ unfold summaryPath, apiPath. rewrite lookup_sibling by done. exact Hsum. }
    2:{ unfold summaryPath, apiPath. rewrite parent_snoc.
        rewrite lookup_insert_ne; [done|]. intros E.
        apply (f_equal length) in E. rewrite length_app in E. simpl in E. lia. }
    erewrite bind_Ret; [|reflexivity].
    erewrite bind_Ret; [|apply writeFileSync_Ret; simpl].
    2:{ unfold bookPath, summaryPath, apiPath. rewrite !lookup_sibling by done. exact Hbook. }
    2:{ unfold bookPath, summaryPath, apiPath. rewrite parent_snoc.
        rewrite !lookup_insert_ne; [done| |]; intros E;
          apply (f_equal length) in E; rewrite length_app in E; simpl in E; lia. }
    cbv beta iota zeta delta [bind success log]. simpl files. simpl console.
    unfold rest_files, closing_lines. f_equal. f_equal.
    repeat rewrite <-app_assoc. reflexivity.
  Qed.

Lemma writeRest_inv w w' :
    writeRest w = Ret tt w' ->
    files w !! apiPath <> Some Dir /\ files w !! summaryPath <> Some Dir /\
    files w !! bookPath <> Some Dir /\ files w !! docsDir = Some Dir /\
    files w !! cwd = Some Dir.
  Proof.
    unfold writeRest. intros H.
    apply bind_Ret_inv in H as ([] & w1 & H1 & H).
    apply writeFileSync_inv in H1 as (Hnodir & Hparent & ->).
    apply bind_Ret_inv in H as ([] & w1 & H1 & H).
    apply log_inv in H1 as ->.
    apply bind_Ret_inv in H as ([] & w1 & H1 & H).
    apply writeFileSync_inv in H1 as (Hnodir0 & Hparent0 & ->).
    apply bind_Ret_inv in H as ([] & w1 & H1 & H).
    apply log_inv in H1 as ->.
    apply bind_Ret_inv in H as ([] & w1 & H1 & H).
    apply writeFileSync_inv in H1 as (Hnodir1 & Hparent1 & ->).
    clear H.
    cbn [files console] in *.
    assert (FS.parent apiPath = docsDir) as E1.
    { unfold apiPath, docsDir. change (cwd ++ ["docs"; "api.md"]) with (cwd ++ ["docs"] ++ ["api.md"]).
      by rewrite app_assoc, parent_snoc. }
    rewrite E1 in *.
    unfold summaryPath, bookPath in *. rewrite !parent_snoc in *.
    unfold apiPath in *. rewrite !lookup_sibling in * by done.
    repeat split; try done.
    rewrite !lookup_insert_ne in Hparent0; [done|].
    intros E; apply (f_equal length) in E; rewrite length_app in E; simpl in E; lia.
  Qed.
End Facts.
End DocsFacts.

Module DocsFacts2.
Section Facts.
  Variable JSON_stringify : json -> string.
  Variable cwd : path.

  Abbreviation generateDocumentation := (Docs.generateDocumentation JSON_stringify cwd).
  Abbreviation main := (Docs.main JSON_stringify cwd).
  Abbreviation docsDir := (DocsFacts.docsDir cwd).
  Abbreviation contractPath := (DocsFacts.contractPath cwd).
  Abbreviation testPath := (DocsFacts.testPath cwd).
  Abbreviation contractDocPath := (DocsFacts.contractDocPath cwd).
  Abbreviation apiPath := (DocsFacts.apiPath cwd).
  Abbreviation summaryPath := (DocsFacts.summaryPath cwd).
  Abbreviation bookPath := (DocsFacts.bookPath cwd).
  Abbreviation writeRest := (DocsFacts.writeRest JSON_stringify cwd).
  Abbreviation rest_files := (DocsFacts.rest_files JSON_stringify cwd).

  (** The step of [generateDocumentation] that writes the contract
      document. *)
Definition writeContractDoc (hasContract hasTest : bool) : M unit :=
    if hasContract && hasTest then
      let* doc := Docs.generateContractDoc "ArtifactAuction" contractPath testPath in
      (FS.writeFileSync contractDocPath doc ;;
       success "Generated artifact-auction.md")
    else ret tt.

Lemma generateDocumentation_unfold :
    generateDocumentation =
    (log "Generating documentation..." Cyan ;;
     let* hasDocs := FS.existsSync docsDir in
     ((if hasDocs then ret tt else FS.mkdirSync docsDir) ;;
      let* hasContract := FS.existsSync contractPath in
      let* hasTest := FS.existsSync testPath in
      (writeContractDoc hasContract hasTest ;; writeRest))).
  Proof.
    unfold Docs.generateDocumentation, writeContractDoc, DocsFacts.writeRest,
      DocsFacts.contractDocPath, DocsFacts.apiPath.
    assert (cwd ++ ["docs"; "artifact-auction.md"] = (cwd ++ ["docs"]) ++ ["artifact-auction.md"])
      as -> by (by rewrite <-app_assoc).
    assert (cwd ++ ["docs"; "api.md"] = (cwd ++ ["docs"]) ++ ["api.md"])
      as -> by (by rewrite <-app_assoc).
    reflexivity.
  Qed.

Lemma rest_files_lookup fs k :
    k <> apiPath -> k <> summaryPath -> k <> bookPath -> rest_files fs !! k = fs !! k.
  Proof.
    intros H1 H2 H3. unfold DocsFacts.rest_files. by rewrite !lookup_insert_ne.
  Qed.

Lemma rest_files_idem fs : rest_files (rest_files fs) = rest_files fs.
  Proof.
    apply map_eq. intros k. unfold DocsFacts.rest_files.
    rewrite !lookup_insert. repeat case_decide; congruence.
  Qed.

  (** *** The directory of the documents *)
Lemma docsDir_step w cons :
    wf (files w) -> files w !! cwd = Some Dir ->
    (forall c, files w !! docsDir <> Some (File c)) ->
    exists fs1,
      (if bool_decide (is_Some (files w !! docsDir)) then ret tt else FS.mkdirSync docsDir)
        (World (files w) cons)
      = Ret tt (World fs1 cons) /\
      fs1 !! docsDir = Some Dir /\
      forall k, k <> docsDir -> fs1 !! k = files w !! k.
  Proof.
    intros Hwf Hcwd Hdocs. case_bool_decide as Hex.
    - exists (files w). split; [done|]. split; [|done].
      destruct Hex as [[c|] Hn]; [by destruct (Hdocs c)|done].
    - exists (<[docsDir := Dir]> (files w)). split.
      + apply (mkdirSync_child cwd "docs" (World (files w) _)); [done..|].
        destruct (files w !! (cwd ++ ["docs"])) eqn:E; [|done]. destruct Hex. eauto.
      + split; [by rewrite lookup_insert_eq|]. intros k Hk. by rewrite lookup_insert_ne.
  Qed.

  (** *** The generator without its sources *)
Lemma generateDocumentation_skip w :
    wf (files w) -> files w !! cwd = Some Dir ->
    (forall c, files w !! docsDir <> Some (File c)) ->
    files w !! apiPath <> Some Dir -> files w !! summaryPath <> Some Dir ->
    files w !! bookPath <> Some Dir ->
    files w !! contractPath = None \/ files w !! testPath = None ->
    exists fs1,
      fs1 !! docsDir = Some Dir /\
      (forall k, k <> docsDir -> fs1 !! k = files w !! k) /\
      generateDocumentation w
      = Ret tt (World (rest_files fs1)
                  (console w ++ [line Cyan "Generating documentation..."]
                   ++ DocsFacts.closing_lines)).
  Proof.
    intros Hwf Hcwd Hdocs Hapi Hsum Hbook Habsent.
    rewrite generateDocumentation_unfold.
    erewrite bind_Ret; [|reflexivity]. erewrite bind_Ret; [|reflexivity].
    cbn [files console].
    destruct (docsDir_step w (console w ++ [line Cyan "Generating documentation..."])
                Hwf Hcwd Hdocs) as (fs1 & E1 & Hd1 & Hk1).
    exists fs1. split; [done|]. split; [done|].
    rewrite (bind_Ret _ _ _ _ _ E1).
    erewrite bind_Ret; [|reflexivity]. erewrite bind_Ret; [|reflexivity].
    cbn [files console]. unfold writeContractDoc.
    assert (bool_decide (is_Some (fs1 !! contractPath))
            && bool_decide (is_Some (fs1 !! testPath)) = false) as ->.
    { rewrite !Hk1 by (unfold DocsFacts.contractPath, DocsFacts.testPath, DocsFacts.docsDir; path_neq).
      destruct Habsent as [E|E]; rewrite E.
      - rewrite bool_decide_false; [done|]. by intros [? ?].
      - rewrite (bool_decide_false (is_Some None)); [by rewrite andb_false_r|]. by intros [? ?]. }
    erewrite bind_Ret; [|reflexivity].
    rewrite (DocsFacts.writeRest_Ret JSON_stringify cwd); cbn [files console].
    - by rewrite <-app_assoc.
    - done.
    - rewrite Hk1; [done|]. unfold DocsFacts.docsDir. intros E.
      apply (f_equal length) in E. rewrite length_app in E. simpl in E. lia.
    - rewrite Hk1; [done|]. unfold DocsFacts.apiPath, DocsFacts.docsDir. path_neq.
    - rewrite Hk1; [done|]. unfold DocsFacts.summaryPath, DocsFacts.docsDir. path_neq.
    - rewrite Hk1; [done|]. unfold DocsFacts.bookPath, DocsFacts.docsDir. path_neq.
  Qed.

  (** *** The generator with its sources *)

  (** The loops of [generateContractDoc] end, whatever the texts. *)
Lemma contractDocOf_total contractName contractContent testContent :
    is_Some (Docs.contractDocOf contractName contractContent testContent).
  Proof.
    unfold Docs.contractDocOf, Docs.testDescriptionsOf.
    destruct (RegexFacts.exec_loop_ends false Docs.describeRegex testContent ltac:(cbn; lia)
                (S (String.length testContent)) 0 ltac:(lia) ltac:(lia)) as [describes ->].
    destruct (RegexFacts.exec_loop_ends true Docs.varRegex contractContent ltac:(cbn; lia)
                (S (String.length contractContent)) 0 ltac:(lia) ltac:(lia)) as [vars ->].
    destruct (RegexFacts.exec_loop_ends false Docs.functionRegex contractContent
                ltac:(cbn; lia) (S (String.length contractContent)) 0 ltac:(lia) ltac:(lia))
      as [funcs ->].
    eauto.
  Qed.

Lemma generateDocumentation_complete w contractContent testContent :
    wf (files w) -> files w !! cwd = Some Dir ->
    (forall c, files w !! docsDir <> Some (File c)) ->
    files w !! contractDocPath <> Some Dir ->
    files w !! apiPath <> Some Dir -> files w !! summaryPath <> Some Dir ->
    files w !! bookPath <> Some Dir ->
    files w !! contractPath = Some (File contractContent) ->
    files w !! testPath = Some (File testContent) ->
    exists fs1 doc,
      Docs.contractDocOf "ArtifactAuction" contractContent testContent = Some doc /\
      fs1 !! docsDir = Some Dir /\
      (forall k, k <> docsDir -> fs1 !! k = files w !! k) /\
      generateDocumentation w
      = Ret tt (World (rest_files (<[contractDocPath := File doc]> fs1))
                  (console w
                   ++ [line Cyan "Generating documentation...";
                       line Green "Success: Generated artifact-auction.md"]
                   ++ DocsFacts.closing_lines)).
  Proof.
    intros Hwf Hcwd Hdocs Hdoc Hapi Hsum Hbook Hc Ht.
    destruct (contractDocOf_total "ArtifactAuction" contractContent testContent)
      as [doc Edoc].
    rewrite generateDocumentation_unfold.
    erewrite bind_Ret; [|reflexivity]. erewrite bind_Ret; [|reflexivity].
    cbn [files console].
    destruct (docsDir_step w (console w ++ [line Cyan "Generating documentation..."])
                Hwf Hcwd Hdocs) as (fs1 & E1 & Hd1 & Hk1).
    exists fs1, doc. split; [done|]. split; [done|]. split; [done|].
    rewrite (bind_Ret _ _ _ _ _ E1).
    erewrite bind_Ret; [|reflexivity]. erewrite bind_Ret; [|reflexivity].
    cbn [files console]. unfold writeContractDoc.
    assert (fs1 !! contractPath = Some (File contractContent)) as Hc1.
    { rewrite Hk1; [done|]. unfold DocsFacts.contractPath, DocsFacts.docsDir. path_neq. }
    assert (fs1 !! testPath = Some (File testContent)) as Ht1.
    { rewrite Hk1; [done|]. unfold DocsFacts.testPath, DocsFacts.docsDir. path_neq. }
    rewrite Hc1, Ht1. rewrite !bool_decide_true by eauto. cbn [andb].
    erewrite bind_Ret.
    2:{ erewrite bind_Ret.
        2:{ unfold Docs.generateContractDoc.
            erewrite bind_Ret; [|by apply readFileSync_Ret].
            erewrite bind_Ret; [|by apply readFileSync_Ret].
            rewrite Edoc. reflexivity. }
        erewrite bind_Ret.
        2:{ apply writeFileSync_Ret; cbn [files].
            - rewrite Hk1; [done|]. unfold DocsFacts.contractDocPath, DocsFacts.docsDir. path_neq.
            - unfold DocsFacts.contractDocPath.
              change (cwd ++ ["docs"; "artifact-auction.md"])
                with (cwd ++ ["docs"] ++ ["artifact-auction.md"]).
              rewrite app_assoc, parent_snoc. exact Hd1. }
        reflexivity. }
    cbn [files console].
    rewrite (DocsFacts.writeRest_Ret JSON_stringify cwd); cbn [files console].
    - by rewrite <-!app_assoc.
    - rewrite lookup_insert_ne; [done|].
      unfold DocsFacts.contractDocPath, DocsFacts.docsDir. path_neq.
    - rewrite lookup_insert_ne.
      + rewrite Hk1; [done|]. unfold DocsFacts.docsDir. intros E.
        apply (f_equal length) in E. rewrite length_app in E. simpl in E. lia.
      + unfold DocsFacts.contractDocPath. intros E.
        apply (f_equal length) in E. rewrite length_app in E. simpl in E. lia.
    - rewrite lookup_insert_ne.
      + rewrite Hk1; [done|]. unfold DocsFacts.apiPath, DocsFacts.docsDir. path_neq.
      + unfold DocsFacts.contractDocPath, DocsFacts.apiPath. path_neq.
    - rewrite lookup_insert_ne.
      + rewrite Hk1; [done|]. unfold DocsFacts.summaryPath, DocsFacts.docsDir. path_neq.
      + unfold DocsFacts.contractDocPath, DocsFacts.summaryPath. path_neq.
    - rewrite lookup_insert_ne.
      + rewrite Hk1; [done|]. unfold DocsFacts.bookPath, DocsFacts.docsDir. path_neq.
      + unfold DocsFacts.contractDocPath, DocsFacts.bookPath. path_neq.
  Qed.

  (** C6: after a run of the generator that returned, a second run in
      the world that the first one left returns too, and leaves every
      file as the first run wrote it: the contract's document, the API
      reference, the table of contents and the renderer's
      configuration are byte for byte the same. *)
Theorem generateDocumentation_again w w1 :
    generateDocumentation w = Ret tt w1 ->
    exists w2, generateDocumentation w1 = Ret tt w2 /\ files w2 = files w1.
  Proof.
    rewrite generateDocumentation_unfold. intros H.
    apply bind_Ret_inv in H as ([] & wl & Hl & H). apply log_inv in Hl as ->.
    apply bind_Ret_inv in H as (hasDocs & w0 & H0 & H). apply existsSync_inv in H0 as [-> ->].
    apply bind_Ret_inv in H as ([] & wa & Ha & H).
    apply bind_Ret_inv in H as (hasContract & w0 & H0 & H). apply existsSync_inv in H0 as [-> ->].
    apply bind_Ret_inv in H as (hasTest & w0 & H0 & H). apply existsSync_inv in H0 as [-> ->].
    apply bind_Ret_inv in H as ([] & wb & Hb & H).
    clear Ha.
    pose proof (DocsFacts.writeRest_inv _ _ _ _ H) as (Hapi & Hsum & Hbook & Hdocs & Hcwd).
    rewrite (DocsFacts.writeRest_Ret JSON_stringify cwd) in H by done.
    injection H as <-. cbn [files console].
    (* the sources as the first run saw them *)
    assert (forall k, k <> contractDocPath -> files wb !! k = files wa !! k) as Hsame.
    { intros k Hk. unfold writeContractDoc in Hb. destruct (_ && _).
      - apply bind_Ret_inv in Hb as (doc & w0 & Hd & Hb).
        unfold Docs.generateContractDoc in Hd. inv_run Hd.
        destruct (Docs.contractDocOf _ _ _); [|done]. apply ret_inv in Hd as [_ ->].
        inv_run Hb. cbn [files]. by rewrite lookup_insert_ne.
      - by apply ret_inv in Hb as [_ ->]. }
    assert (forall k, k <> contractDocPath -> k <> apiPath -> k <> summaryPath -> k <> bookPath ->
              rest_files (files wb) !! k = files wa !! k) as Hsrc.
    { intros k ? ? ? ?. rewrite rest_files_lookup by done. by apply Hsame. }
    erewrite bind_Ret; [|reflexivity]. erewrite bind_Ret; [|reflexivity]. cbn [files console].
    rewrite bool_decide_true.
    2:{ rewrite rest_files_lookup; [by rewrite Hdocs| | |];
          unfold DocsFacts.docsDir, DocsFacts.apiPath, DocsFacts.summaryPath, DocsFacts.bookPath;
          path_neq. }
    erewrite bind_Ret; [|reflexivity].
    erewrite bind_Ret; [|reflexivity]. erewrite bind_Ret; [|reflexivity]. cbn [files console].
    rewrite !Hsrc by (unfold DocsFacts.contractPath, DocsFacts.testPath, DocsFacts.contractDocPath,
                        DocsFacts.apiPath, DocsFacts.summaryPath, DocsFacts.bookPath; path_neq).
    (* the contract document is written again, with the same text *)
    assert (exists lines,
      writeContractDoc (bool_decide (is_Some (files wa !! contractPath)))
        (bool_decide (is_Some (files wa !! testPath)))
        (World (rest_files (files wb))
           ((console wb ++ DocsFacts.closing_lines) ++ [line Cyan "Generating documentation..."]))
      = Ret tt (World (rest_files (files wb)) lines)) as [lines Hagain].
    { unfold writeContractDoc in *. destruct (_ && _); [|by eexists].
      apply bind_Ret_inv in Hb as (doc & w0 & Hd & Hb).
      unfold Docs.generateContractDoc in *. inv_run Hd.
      destruct (Docs.contractDocOf _ _ _) as [doc'|] eqn:Edoc; [|done].
      apply ret_inv in Hd as [-> ->]. inv_run Hb. cbn [files console] in *.
      erewrite bind_Ret.
      2:{ erewrite bind_Ret; [|apply readFileSync_Ret; cbn [files]].
          2:{ rewrite rest_files_lookup, lookup_insert_ne; [exact Hread| | | |];
                unfold DocsFacts.contractPath, DocsFacts.contractDocPath, DocsFacts.apiPath,
                  DocsFacts.summaryPath, DocsFacts.bookPath; path_neq. }
          erewrite bind_Ret; [|apply readFileSync_Ret; cbn [files]].
          2:{ rewrite rest_files_lookup, lookup_insert_ne; [exact Hread0| | | |];
                unfold DocsFacts.testPath, DocsFacts.contractDocPath, DocsFacts.apiPath,
                  DocsFacts.summaryPath, DocsFacts.bookPath; path_neq. }
          rewrite Edoc. reflexivity. }
      assert (rest_files (<[contractDocPath := File doc]> (files wa)) !! contractDocPath
              = Some (File doc)) as Hdoc.
      { rewrite rest_files_lookup; [by rewrite lookup_insert_eq| | |];
          unfold DocsFacts.contractDocPath, DocsFacts.apiPath, DocsFacts.summaryPath,
            DocsFacts.bookPath; path_neq. }
      erewrite bind_Ret.
      2:{ apply writeFileSync_Ret; cbn [files].
          - by rewrite Hdoc.
          - replace (FS.parent contractDocPath) with docsDir.
            + rewrite rest_files_lookup; [exact Hdocs| | |];
                unfold DocsFacts.docsDir, DocsFacts.apiPath, DocsFacts.summaryPath,
                  DocsFacts.bookPath; path_neq.
            + unfold DocsFacts.contractDocPath, DocsFacts.docsDir.
              change (cwd ++ ["docs"; "artifact-auction.md"])
                with (cwd ++ ["docs"] ++ ["artifact-auction.md"]).
              by rewrite app_assoc, parent_snoc. }
      cbn [files console]. rewrite (insert_id _ _ _ Hdoc). by eexists. }
    rewrite (bind_Ret _ _ _ _ _ Hagain).
    rewrite (DocsFacts.writeRest_Ret JSON_stringify cwd); cbn [files console].
    - eexists. split; [done|]. cbn [files]. apply rest_files_idem.
    - rewrite rest_files_lookup; [exact Hdocs| | |];
        unfold DocsFacts.docsDir, DocsFacts.apiPath, DocsFacts.summaryPath, DocsFacts.bookPath;
        path_neq.
    - rewrite rest_files_lookup; [exact Hcwd| | |];
        unfold DocsFacts.apiPath, DocsFacts.summaryPath, DocsFacts.bookPath;
        intros E; apply (f_equal length) in E; rewrite length_app in E; simpl in E; lia.
    - unfold DocsFacts.rest_files, DocsFacts.bookPath, DocsFacts.summaryPath, DocsFacts.apiPath.
      rewrite !lookup_sibling by done. by rewrite lookup_insert_eq.
    - unfold DocsFacts.rest_files, DocsFacts.bookPath, DocsFacts.summaryPath.
      rewrite !lookup_sibling by done. by rewrite lookup_insert_eq.
    - unfold DocsFacts.rest_files. by rewrite lookup_insert_eq.
  Qed.
End Facts.
End DocsFacts2.

Module ExtractFacts.
  Import Regex RegexFacts.

  (** The name that [getContractName] returns is never empty. *)
Lemma contractNameOf_nonempty content name :
    Example.contractNameOf content = Some name -> name <> "".
  Proof.
    unfold Example.contractNameOf, match_first.
    destruct (exec true Example.contractRegex content 0) as [m|] eqn:E; [|done].
    apply exec_inv in E as (_ & _ & _ & Hc). intros Hg.
    eapply group_nonempty; [|exact Hg]. apply Hc. cbn. repeat split; lia.
  Qed.

  (** The loop of [extractTestDescriptions] ends. *)
Lemma describe_loop_ends content :
    is_Some (exec_loop (S (String.length content)) false Docs.describeRegex content 0).
  Proof. apply exec_loop_ends; [cbn; lia|lia|lia]. Qed.

  (** A comment starts where the text reads [/**]. *)
Lemma jsDoc_here st :
    String.prefix "/**" (rest st) = false -> match_here false Docs.jsDocRegex st = None.
  Proof.
    intros H. unfold match_here, Docs.jsDocRegex. cbn [seqs lit run].
    unfold step at 1. destruct (rest st) as [|c1 s1]; [done|].
    simpl in H. destruct (Ascii.eqb_spec "/" c1) as [<-|Hne]; [|done].
    destruct (ascii_dec "/" "/") as [_|?]; [|done].
    unfold step at 1. cbn [rest]. destruct s1 as [|c2 s2]; [done|].
    simpl in H. destruct (Ascii.eqb_spec "*" c2) as [<-|Hne]; [|done].
    destruct (ascii_dec "*" "*") as [_|?]; [|done].
    unfold step at 1. cbn [rest]. destruct s2 as [|c3 s3]; [done|].
    simpl in H. destruct (Ascii.eqb_spec "*" c3) as [<-|Hne]; [|done].
    destruct (ascii_dec "*" "*") as [_|?]; [|done]. by destruct s3.
  Qed.

Lemma jsDoc_search p s i :
    includes "/**" s = false -> search false Docs.jsDocRegex p s i = None.
  Proof.
    revert p i. induction s as [|c s IH]; intros p i H.
    - cbn [search]. by rewrite jsDoc_here.
    - cbn [includes] in H. apply orb_false_elim in H as [H1 H2].
      cbn [search]. rewrite jsDoc_here by done. by apply IH.
  Qed.

Lemma jsDoc_none s : includes "/**" s = false -> matchAll false Docs.jsDocRegex s = [].
  Proof.
    intros H. unfold matchAll. cbn [matchAll_from]. unfold exec. cbn [seek].
    by rewrite jsDoc_search.
  Qed.

  (** A declaration with no [/**] before it gets no entry. *)
Lemma describeEntry_none content m :
    includes "/**" (substring 0 (index m) content) = false ->
    Docs.describeEntry content m = None.
  Proof. intros H. unfold Docs.describeEntry. by rewrite jsDoc_none. Qed.

Lemma describeEntry_Some content m entry :
    Docs.describeEntry content m = Some entry ->
    exists lastJsDoc,
      last (matchAll false Docs.jsDocRegex (substring 0 (index m) content)) = Some lastJsDoc /\
      Docs.title entry = default "" (group 1 m) /\
      Docs.description entry = Docs.cleanComment (matched lastJsDoc).
  Proof.
    unfold Docs.describeEntry. destruct (last _) as [lastJsDoc|]; [|done].
    intros [= <-]. by exists lastJsDoc.
  Qed.
End ExtractFacts.

(** ** Copies into a fresh destination *)

(** The file system after [if (fs.existsSync(src)) fs.copyFileSync(src, dst)],
    for a source that is not a directory. *)
Definition copy_opt (fs : gmap (list string) node) (src dst : path)
  : gmap (list string) node :=
  match fs !! src with
  | Some (File c) => <[dst := File c]> fs
  | _ => fs
  end.

Section CopyOpt.
  Implicit Types (fs : gmap (list string) node) (p q k src dst : path).

Lemma lookup_copy_opt_ne fs src dst k :
    k <> dst -> copy_opt fs src dst !! k = fs !! k.
  Proof.
    intros H. unfold copy_opt. destruct (fs !! src) as [[c|]|]; [|done..].
    by rewrite lookup_insert_ne.
  Qed.

Lemma lookup_copy_opt_eq fs src dst :
    fs !! src <> Some Dir -> fs !! dst = None -> copy_opt fs src dst !! dst = fs !! src.
  Proof.
    intros Hs Hd. unfold copy_opt. destruct (fs !! src) as [[c|]|] eqn:E; [|done..].
    by rewrite lookup_insert_eq.
  Qed.

Lemma wf_copy_opt fs src dst :
    wf fs -> fs !! dst <> Some Dir -> fs !! FS.parent dst = Some Dir -> wf (copy_opt fs src dst).
  Proof.
    intros Hwf Hd Hp. unfold copy_opt. destruct (fs !! src) as [[c|]|]; [|done..].
    by apply wf_insert_file.
  Qed.

  (** [if (fs.existsSync(src)) { fs.copyFileSync(src, dst); then }] *)
Lemma copy_if_exists src dst fs cons :
    fs !! src <> Some Dir -> fs !! dst <> Some Dir -> fs !! FS.parent dst = Some Dir ->
    (if bool_decide (is_Some (fs !! src)) then FS.copyFileSync src dst else ret tt)
      (World fs cons) = Ret tt (World (copy_opt fs src dst) cons).
  Proof.
    intros Hs Hd Hp. unfold copy_opt. destruct (fs !! src) as [[c|]|] eqn:E.
    - rewrite bool_decide_true by eauto.
      by apply (copyFileSync_Ret src dst c (World fs cons)).
    - done.
    - by rewrite bool_decide_false by (by intros [? ?]).
  Qed.

  (** [if (fs.existsSync(src)) { fs.copyFileSync(src, dst); success(message); }] *)
Lemma copy_if_exists_success src dst message fs cons :
    fs !! src <> Some Dir -> fs !! dst <> Some Dir -> fs !! FS.parent dst = Some Dir ->
    (if bool_decide (is_Some (fs !! src))
     then (FS.copyFileSync src dst ;; success message) else ret tt) (World fs cons) =
    Ret tt (World (copy_opt fs src dst)
              (cons ++ if bool_decide (is_Some (fs !! src))
                       then [line Green ("Success: " +:+ message)] else [])).
  Proof.
    intros Hs Hd Hp. unfold copy_opt. destruct (fs !! src) as [[c|]|] eqn:E.
    - rewrite bool_decide_true by eauto.
      by rewrite (bind_Ret _ _ _ _ _ (copyFileSync_Ret src dst c (World fs cons) E Hd Hp)).
    - done.
    - rewrite bool_decide_false by (by intros [? ?]). by rewrite app_nil_r.
  Qed.

Lemma lookup_insert_outside fs dst r n p :
    ~ dst `prefix_of` p -> <[dst ++ r := n]> fs !! p = fs !! p.
  Proof. intros H. apply lookup_insert_ne. intros <-. apply H. by apply prefix_app_r. Qed.

Lemma lookup_copy_opt_outside fs src dst r p :
    ~ dst `prefix_of` p -> copy_opt fs src (dst ++ r) !! p = fs !! p.
  Proof. intros H. apply lookup_copy_opt_ne. intros ->. apply H. by apply prefix_app_r. Qed.

Lemma lookup_copy_opt_sibling fs src dst a b :
    a <> b -> copy_opt fs src (dst ++ a) !! (dst ++ b) = fs !! (dst ++ b).
  Proof. intros H. apply lookup_copy_opt_ne. intros E. by apply app_inv_head in E. Qed.

Lemma lookup_created_outside fs dst p :
    mkdir_ok fs dst -> ~ p `prefix_of` dst -> created fs dst !! p = fs !! p.
  Proof.
    intros Hok H. rewrite lookup_created by done. destruct (fs !! p); [done|].
    by rewrite decide_False.
  Qed.

Lemma lookup_created_self fs dst :
    mkdir_ok fs dst -> fs !! dst = None -> created fs dst !! dst = Some Dir.
  Proof. intros Hok H. rewrite lookup_created by done. rewrite H. by rewrite decide_True. Qed.

Lemma lookup_created_below fs dst x r :
    mkdir_ok fs dst -> fs !! (dst ++ x :: r) = None -> created fs dst !! (dst ++ x :: r) = None.
  Proof.
    intros Hok H. rewrite lookup_created by done. rewrite H. rewrite decide_False; [done|].
    intros Hp. apply prefix_length in Hp. rewrite length_app in Hp. simpl in Hp. lia.
  Qed.

Lemma wf_fresh_below fs dst r : wf fs -> fs !! dst = None -> fs !! (dst ++ r) = None.
  Proof.
    intros Hwf H. destruct (fs !! (dst ++ r)) eqn:E; [|done].
    destruct r as [|x r]; [by rewrite app_nil_r in E; congruence|].
    rewrite (wf_prefix fs (dst ++ x :: r) dst) in H; [done|done|eauto|by apply prefix_app_r|].
    intros E'. apply (f_equal length) in E'. rewrite length_app in E'. simpl in E'. lia.
  Qed.

Lemma wf_insert_dir fs p x :
    wf fs -> fs !! p = Some Dir -> fs !! (p ++ [x]) = None -> wf (<[p ++ [x] := Dir]> fs).
  Proof.
    intros Hwf Hp Hx.
    destruct (steady_mkdirSync (p ++ [x]) (World fs []) (World (<[p ++ [x] := Dir]> fs) []))
      as [_ H]; [|by apply H].
    by rewrite (mkdirSync_child p x (World fs [])).
  Qed.
End CopyOpt.

Module CategoryFacts.
Section Facts.
  Variable JSON_parse : string -> option json.
  Variable JSON_stringify : json -> string.
  Variable rootDir : path.
  Variable cwd : path.

  Abbreviation createCategory := (Category.createCategory JSON_parse JSON_stringify rootDir cwd).
  Abbreviation copyExample := (Category.copyExample rootDir).

  (** The lines that report the copies of one member. *)
Definition copied_lines (fs : gmap (list string) node) (info : Category.ExampleInfo)
    : list string :=
    (if bool_decide (is_Some (fs !! path_join rootDir (Category.contract info)))
     then [line Green ("Success: " +:+ "Copied contract: " +:+ basename (Category.contract info))]
     else []) ++
    (if bool_decide (is_Some (fs !! path_join rootDir (Category.test info)))
     then [line Green ("Success: " +:+ "Copied test: " +:+ basename (Category.test info))]
     else []).

  (** The file system after the loop body has run for one member. *)
Definition member_files (out : path) (m : string) (info : Category.ExampleInfo)
      (fs : gmap (list string) node) : gmap (list string) node :=
    <[out ++ ["examples"; m; "README.md"] := File (Category.exampleReadme m info)]>
      (copy_opt
         (copy_opt
            (<[out ++ ["examples"; m; "test"] := Dir]>
               (<[out ++ ["examples"; m; "contracts"] := Dir]>
                  (<[out ++ ["examples"; m] := Dir]> fs)))
            (path_join rootDir (Category.contract info))
            (out ++ ["examples"; m; "contracts"; basename (Category.contract info)]))
         (path_join rootDir (Category.test info))
         (out ++ ["examples"; m; "test"; basename (Category.test info)])).

Lemma snoc2 (out : path) (a b : string) : (out ++ [a]) ++ [b] = out ++ [a; b].
  Proof. by rewrite <-app_assoc. Qed.
Lemma snoc3 (out : path) (a b c : string) : (out ++ [a; b]) ++ [c] = out ++ [a; b; c].
  Proof. by rewrite <-app_assoc. Qed.
Lemma snoc4 (out : path) (a b c d : string) : (out ++ [a; b; c]) ++ [d] = out ++ [a; b; c; d].
  Proof. by rewrite <-app_assoc. Qed.
Lemma snoc32 (out : path) (a b c d : string) : (out ++ [a; b]) ++ [c; d] = out ++ [a; b; c; d].
  Proof. by rewrite <-app_assoc. Qed.

Lemma copyExample_Ret out m info fs cons :
    js_get Category.EXAMPLES m = Own info -> split_path m = [m] ->
    wf fs -> fs !! (out ++ ["examples"]) = Some Dir ->
    (forall r, fs !! (out ++ "examples" :: m :: r) = None) ->
    ~ out `prefix_of` path_join rootDir (Category.contract info) ->
    ~ out `prefix_of` path_join rootDir (Category.test info) ->
    fs !! path_join rootDir (Category.contract info) <> Some Dir ->
    fs !! path_join rootDir (Category.test info) <> Some Dir ->
    copyExample out m (World fs cons) =
      Ret tt (World (member_files out m info fs) (cons ++ copied_lines fs info)) /\
    wf (member_files out m info fs).
  Proof.
    intros Hget Hsplit Hwf Hex Hfresh Hc Ht Hcd Htd.
    unfold Category.copyExample. rewrite Hget, Hsplit.
    change (out ++ ["examples"] ++ [m]) with (out ++ ["examples"; m]).
    set (fs1 := <[out ++ ["examples"; m] := Dir]> fs).
    set (fs2 := <[out ++ ["examples"; m; "contracts"] := Dir]> fs1).
    set (fs3 := <[out ++ ["examples"; m; "test"] := Dir]> fs2).
    set (cp := path_join rootDir (Category.contract info)) in *.
    set (tp := path_join rootDir (Category.test info)) in *.
    set (cd := out ++ ["examples"; m; "contracts"; basename (Category.contract info)]).
    set (td := out ++ ["examples"; m; "test"; basename (Category.test info)]).
    assert (wf fs1) as Hwf1.
    { unfold fs1. rewrite <-snoc2. apply wf_insert_dir; [done..|]. rewrite snoc2. apply Hfresh. }
    assert (fs1 !! (out ++ ["examples"; m]) = Some Dir) as Hd1 by apply lookup_insert_eq.
    assert (wf fs2) as Hwf2.
    { unfold fs2. rewrite <-snoc3. apply wf_insert_dir; [done..|]. rewrite snoc3.
      unfold fs1. rewrite lookup_sibling by done. apply Hfresh. }
    assert (fs2 !! (out ++ ["examples"; m]) = Some Dir) as Hd2.
    { unfold fs2. by rewrite lookup_sibling. }
    assert (wf fs3) as Hwf3.
    { unfold fs3. rewrite <-snoc3. apply wf_insert_dir; [done..|]. rewrite snoc3.
      unfold fs2, fs1. rewrite !lookup_sibling by done. apply Hfresh. }
    assert (forall p, ~ out `prefix_of` p -> fs3 !! p = fs !! p) as Hout3.
    { intros p Hp. unfold fs3, fs2, fs1. by rewrite !lookup_insert_outside. }
    assert (fs3 !! cd = None) as Hcd3.
    { unfold fs3, fs2, fs1, cd. rewrite !lookup_sibling by done. apply Hfresh. }
    assert (fs3 !! (out ++ ["examples"; m; "contracts"]) = Some Dir) as Hpc.
    { unfold fs3. rewrite lookup_sibling by done. apply lookup_insert_eq. }
    assert (wf (copy_opt fs3 cp cd)) as Hwf4.
    { apply wf_copy_opt; [done|by rewrite Hcd3|]. unfold cd. rewrite <-snoc4, parent_snoc. done. }
    assert (copy_opt fs3 cp cd !! td = None) as Htd4.
    { unfold td, cd. rewrite lookup_copy_opt_sibling by done.
      unfold fs3, fs2, fs1. rewrite !lookup_sibling by done. apply Hfresh. }
    assert (copy_opt fs3 cp cd !! (out ++ ["examples"; m; "test"]) = Some Dir) as Hpt.
    { unfold cd. rewrite lookup_copy_opt_sibling by done. apply lookup_insert_eq. }
    assert (wf (copy_opt (copy_opt fs3 cp cd) tp td)) as Hwf5.
    { apply wf_copy_opt; [done|by rewrite Htd4|]. unfold td. rewrite <-snoc4, parent_snoc. done. }
    assert (copy_opt fs3 cp cd !! tp = fs !! tp) as Htp4.
    { unfold cd. rewrite lookup_copy_opt_outside by done. by apply Hout3. }
    assert (copy_opt (copy_opt fs3 cp cd) tp td !! (out ++ ["examples"; m; "README.md"]) = None)
      as Hrd.
    { unfold td, cd. rewrite !lookup_copy_opt_sibling by done.
      unfold fs3, fs2, fs1. rewrite !lookup_sibling by done. apply Hfresh. }
    assert (copy_opt (copy_opt fs3 cp cd) tp td !! (out ++ ["examples"; m]) = Some Dir) as Hpr.
    { unfold td, cd. rewrite !lookup_copy_opt_sibling by done.
      unfold fs3. by rewrite lookup_sibling. }
    split.
    - erewrite bind_Ret.
      2:{ rewrite <-snoc2.
          apply (mkdirSync_child (out ++ ["examples"]) m (World fs cons)); [done..|].
          cbn [files]. rewrite snoc2. apply Hfresh. }
      cbn [files console]. rewrite !snoc2. rewrite !snoc3. fold fs1.
      erewrite bind_Ret.
      2:{ rewrite <-snoc3.
          apply (mkdirSync_child (out ++ ["examples"; m]) "contracts" (World fs1 cons));
            [done..|].
          cbn [files]. rewrite snoc3. unfold fs1. rewrite lookup_sibling by done. apply Hfresh. }
      cbn [files console]. rewrite !snoc3. fold fs2.
      erewrite bind_Ret.
      2:{ rewrite <-snoc3.
          apply (mkdirSync_child (out ++ ["examples"; m]) "test" (World fs2 cons)); [done..|].
          cbn [files]. rewrite snoc3. unfold fs2, fs1. rewrite !lookup_sibling by done.
          apply Hfresh. }
      cbn [files console]. rewrite !snoc3. fold fs3.
      erewrite bind_Ret; [|reflexivity]. cbn [files console].
      rewrite !snoc32. fold cp tp cd td.
      erewrite bind_Ret.
      2:{ apply copy_if_exists_success.
          - by rewrite Hout3.
          - by rewrite Hcd3.
          - unfold cd. by rewrite <-snoc4, parent_snoc. }
      erewrite bind_Ret; [|reflexivity]. cbn [files console].
      erewrite bind_Ret.
      2:{ apply copy_if_exists_success.
          - by rewrite Htp4.
          - by rewrite Htd4.
          - unfold td. by rewrite <-snoc4, parent_snoc. }
      rewrite Htp4, Hout3 by done. rewrite <-app_assoc. fold (copied_lines fs info).
      apply writeFileSync_Ret; cbn [files].
      + by rewrite Hrd.
      + by rewrite <-snoc3, parent_snoc.
    - unfold member_files. fold fs1 fs2 fs3 cp tp cd td.
      apply wf_insert_file; [done|by rewrite Hrd|]. by rewrite <-snoc3, parent_snoc.
  Qed.
End Facts.
End CategoryFacts.

Lemma assoc_elem {A} key (obj : list (string * A)) v :
  assoc key obj = Some v -> (key, v) ∈ obj.
Proof.
  induction obj as [|[k x] obj IH]; simpl; [done|].
  destruct (String.eqb_spec k key) as [->|Hne].
  - intros [= ->]. by left.
  - intros H. right. by apply IH.
Qed.

Lemma js_get_Own {A} (obj : list (string * A)) key v :
  js_get obj key = Own v <-> assoc key obj = Some v.
Proof.
  unfold js_get. destruct (assoc key obj).
  - split; by intros [= ->].
  - case_bool_decide; split; done.
Qed.

Module CategoryFacts2.
Section Facts.
  Variable JSON_parse : string -> option json.
  Variable JSON_stringify : json -> string.
  Variable rootDir : path.
  Variable cwd : path.

  Abbreviation createCategory := (Category.createCategory JSON_parse JSON_stringify rootDir cwd).
  Abbreviation copyExample := (Category.copyExample rootDir).
  Abbreviation member_files := (CategoryFacts.member_files rootDir).
  Abbreviation copied_lines := (CategoryFacts.copied_lines rootDir).

  (** The members of every category are registered examples, each
      named by a single path component, and no category lists a member
      twice. *)
Definition member_ok (m : string) : bool :=
    match js_get Category.EXAMPLES m with
    | Own _ => bool_decide (split_path m = [m])
    | _ => false
    end.

Lemma members_ok categoryName category :
    js_get Category.CATEGORIES categoryName = Own category ->
    NoDup (Category.examples category) /\
    Forall (fun m => member_ok m = true) (Category.examples category).
  Proof.
    intros H. apply js_get_Own, assoc_elem in H.
    assert (Forall (fun entry : string * Category.CategoryConfig =>
                      NoDup (Category.examples entry.2) /\
                      Forall (fun m => member_ok m = true) (Category.examples entry.2))
                   Category.CATEGORIES) as Hall.
    { repeat constructor; simpl; try (by vm_compute);
        rewrite ?list_elem_of_singleton; by try apply not_elem_of_nil. }
    rewrite Forall_forall in Hall. apply (Hall _ H).
  Qed.

Definition contract_source (info : Category.ExampleInfo) : path :=
    path_join rootDir (Category.contract info).
Definition test_source (info : Category.ExampleInfo) : path :=
    path_join rootDir (Category.test info).
Definition template_source (file : string) : path :=
    rootDir ++ ["base-template"; file].

  (** The files that the generator reads for a category. *)
Definition member_sources (m : string) : list path :=
    match js_get Category.EXAMPLES m with
    | Own info => [contract_source info; test_source info]
    | _ => []
    end.

Definition sources (category : Category.CategoryConfig) : list path :=
    map template_source Category.templateFiles
    ++ flat_map member_sources (Category.examples category).

  (** A source that the destination does not disturb: neither of the
      two paths lies on the other, and the source is not a directory. *)
Definition undisturbed (fs : gmap (list string) node) (out p : path) : Prop :=
    ~ out `prefix_of` p /\ ~ p `prefix_of` out /\ fs !! p <> Some Dir.

Definition member_step (out : path) (fs : gmap (list string) node) (m : string)
    : gmap (list string) node :=
    match js_get Category.EXAMPLES m with
    | Own info => member_files out m info fs
    | _ => fs
    end.

Definition member_lines (fs : gmap (list string) node) (m : string) : list string :=
    match js_get Category.EXAMPLES m with
    | Own info => copied_lines fs info
    | _ => []
    end.

Lemma member_files_outside out m info fs p :
    ~ out ++ ["examples"; m] `prefix_of` p -> member_files out m info fs !! p = fs !! p.
  Proof.
    intros Hp. unfold CategoryFacts.member_files.
    rewrite <-(CategoryFacts.snoc3 out "examples" m "README.md").
    rewrite <-(CategoryFacts.snoc32 out "examples" m "test").
    rewrite <-(CategoryFacts.snoc32 out "examples" m "contracts").
    rewrite <-(CategoryFacts.snoc3 out "examples" m "test").
    rewrite <-(CategoryFacts.snoc3 out "examples" m "contracts").
    rewrite lookup_insert_outside, !lookup_copy_opt_outside, !lookup_insert_outside by done.
    apply lookup_insert_ne. intros <-. by apply Hp.
  Qed.

Lemma member_files_inside out m info fs :
    (forall r, fs !! (out ++ "examples" :: m :: r) = None) ->
    ~ out `prefix_of` contract_source info -> ~ out `prefix_of` test_source info ->
    fs !! contract_source info <> Some Dir -> fs !! test_source info <> Some Dir ->
    member_files out m info fs !! (out ++ ["examples"; m]) = Some Dir /\
    member_files out m info fs !! (out ++ ["examples"; m; "contracts"]) = Some Dir /\
    member_files out m info fs !! (out ++ ["examples"; m; "test"]) = Some Dir /\
    member_files out m info fs !! (out ++ ["examples"; m; "README.md"])
      = Some (File (Category.exampleReadme m info)) /\
    member_files out m info fs
      !! (out ++ ["examples"; m; "contracts"; basename (Category.contract info)])
      = fs !! contract_source info /\
    member_files out m info fs
      !! (out ++ ["examples"; m; "test"; basename (Category.test info)])
      = fs !! test_source info.
  Proof.
    intros Hfresh Hc Ht Hcd Htd. unfold CategoryFacts.member_files.
    fold (contract_source info) (test_source info).
    repeat split.
    - rewrite lookup_sibling, !lookup_copy_opt_sibling, !lookup_sibling by done.
      apply lookup_insert_eq.
    - rewrite lookup_sibling, !lookup_copy_opt_sibling, !lookup_sibling by done.
      apply lookup_insert_eq.
    - rewrite lookup_sibling, !lookup_copy_opt_sibling by done. apply lookup_insert_eq.
    - apply lookup_insert_eq.
    - rewrite lookup_sibling, lookup_copy_opt_sibling by done.
      rewrite lookup_copy_opt_eq.
      + by rewrite !lookup_insert_outside.
      + by rewrite !lookup_insert_outside.
      + rewrite !lookup_sibling by done. apply Hfresh.
    - rewrite lookup_sibling by done. rewrite lookup_copy_opt_eq.
      + rewrite lookup_copy_opt_outside by done. by rewrite !lookup_insert_outside.
      + rewrite lookup_copy_opt_outside by done. by rewrite !lookup_insert_outside.
      + rewrite lookup_copy_opt_sibling, !lookup_sibling by done. apply Hfresh.
  Qed.

Lemma not_prefix_member (out : path) m m' r :
    m <> m' -> ~ out ++ ["examples"; m] `prefix_of` out ++ "examples" :: m' :: r.
  Proof.
    intros Hne Hp. apply prefix_app_inv in Hp.
    apply prefix_cons_inv_2, prefix_cons_inv_1 in Hp. done.
  Qed.

Lemma not_prefix_outside (out : path) p r : ~ out `prefix_of` p -> ~ out ++ r `prefix_of` p.
  Proof. intros H Hp. apply H. etrans; [|done]. by apply prefix_app_r. Qed.

  (** The loop over the members. *)
Lemma members_loop out members :
    forall fs cons,
      NoDup members -> Forall (fun m => member_ok m = true) members ->
      wf fs -> fs !! (out ++ ["examples"]) = Some Dir ->
      (forall m r, m ∈ members -> fs !! (out ++ "examples" :: m :: r) = None) ->
      Forall (undisturbed fs out) (flat_map member_sources members) ->
      exists fs',
        forEach (copyExample out) members (World fs cons) =
          Ret tt (World fs' (cons ++ flat_map (member_lines fs) members)) /\
        wf fs' /\
        (forall p, (forall m, m ∈ members -> ~ out ++ ["examples"; m] `prefix_of` p) ->
                   fs' !! p = fs !! p) /\
        Forall (fun m => exists info,
                  js_get Category.EXAMPLES m = Own info /\
                  fs' !! (out ++ ["examples"; m]) = Some Dir /\
                  fs' !! (out ++ ["examples"; m; "contracts"]) = Some Dir /\
                  fs' !! (out ++ ["examples"; m; "test"]) = Some Dir /\
                  fs' !! (out ++ ["examples"; m; "README.md"])
                    = Some (File (Category.exampleReadme m info)) /\
                  fs' !! (out ++ ["examples"; m; "contracts"; basename (Category.contract info)])
                    = fs !! contract_source info /\
                  fs' !! (out ++ ["examples"; m; "test"; basename (Category.test info)])
                    = fs !! test_source info) members.
  Proof.
    induction members as [|m members IH]; intros fs cons Hnd Hok Hwf Hex Hfresh Hsrc.
    { exists fs. simpl. rewrite app_nil_r. by repeat split. }
    apply NoDup_cons in Hnd as [Hm Hnd]. apply Forall_cons in Hok as [Hokm Hok].
    unfold member_ok in Hokm.
    destruct (js_get Category.EXAMPLES m) as [info| |] eqn:Hget; [|done..].
    apply bool_decide_eq_true in Hokm.
    simpl in Hsrc. unfold member_sources at 1 in Hsrc. rewrite Hget in Hsrc.
    apply Forall_cons in Hsrc as [(Hc1 & Hc2 & Hc3) Hsrc].
    apply Forall_cons in Hsrc as [(Ht1 & Ht2 & Ht3) Hsrc].
    destruct (CategoryFacts.copyExample_Ret rootDir out m info fs cons) as [Hrun Hwf']; try done.
    { intros r. apply Hfresh. by left. }
    set (fs1 := member_files out m info fs) in *.
    assert (forall p, ~ out ++ ["examples"; m] `prefix_of` p -> fs1 !! p = fs !! p) as Hout1.
    { intros p Hp. by apply member_files_outside. }
    destruct (IH fs1 (cons ++ copied_lines fs info))
      as (fs' & Hrun' & Hwf'' & Hframe & Hall); try done.
    { rewrite Hout1; [done|]. intros Hp. apply prefix_length in Hp.
      rewrite !length_app in Hp. simpl in Hp. lia. }
    { intros m' r Hm'. rewrite Hout1.
      - apply Hfresh. by right.
      - apply not_prefix_member. intros ->. done. }
    { eapply Forall_impl; [exact Hsrc|]. intros p (Hp1 & Hp2 & Hp3).
      split; [done|]. split; [done|]. rewrite Hout1; [done|]. by apply not_prefix_outside. }
    destruct (member_files_inside out m info fs) as (Hi1 & Hi2 & Hi3 & Hi4 & Hi5 & Hi6); try done.
    { intros r. apply Hfresh. by left. }
    exists fs'. split; [|split; [done|split]].
    - simpl. rewrite (bind_Ret _ _ _ _ _ Hrun). rewrite Hrun'. f_equal. f_equal.
      rewrite <-app_assoc. f_equal. unfold member_lines at 2. rewrite Hget. f_equal.
      clear -Hsrc Hout1. induction members as [|m' members IHm]; [done|]. simpl.
      simpl in Hsrc. apply Forall_app in Hsrc as [Hs1 Hs2]. rewrite IHm by done. f_equal.
      unfold member_lines, member_sources in *.
      destruct (js_get Category.EXAMPLES m') as [info'| |]; [|done..].
      apply Forall_cons in Hs1 as [(Hc1 & _) Hs1]. apply Forall_cons in Hs1 as [(Ht1 & _) _].
      unfold CategoryFacts.copied_lines.
      fold (contract_source info') (test_source info').
      rewrite !Hout1 by (by apply not_prefix_outside). done.
    - intros p Hp. rewrite Hframe.
      + apply Hout1, Hp. by left.
      + intros m' Hm'. apply Hp. by right.
    - constructor.
      + exists info. split; [done|].
        assert (forall r, fs' !! (out ++ "examples" :: m :: r) = fs1 !! (out ++ "examples" :: m :: r))
          as Hkeep.
        { intros r. apply Hframe. intros m' Hm'. apply not_prefix_member. intros ->. done. }
        rewrite !Hkeep. done.
      + rewrite Forall_forall in Hall |- *. intros m' Hm'.
        destruct (Hall m' Hm') as (info' & Hget' & ? & ? & ? & ? & E1 & E2).
        exists info'. repeat split; try done.
        * rewrite E1. apply Hout1. apply not_prefix_outside.
          rewrite Forall_forall in Hsrc. apply (Hsrc (contract_source info')).
          apply list_elem_of_In, in_flat_map. exists m'. split; [by apply list_elem_of_In|].
          unfold member_sources. rewrite Hget'. by left.
        * rewrite E2. apply Hout1. apply not_prefix_outside.
          rewrite Forall_forall in Hsrc. apply (Hsrc (test_source info')).
          apply list_elem_of_In, in_flat_map. exists m'. split; [by apply list_elem_of_In|].
          unfold member_sources. rewrite Hget'. right. by left.
  Qed.
End Facts.
End CategoryFacts2.

(** A line that is not a warning. *)
Definition no_warning (l : string) : Prop :=
  String.prefix (color_code Yellow +:+ "Warning") l = false.

Module CategoryFacts3.
Section Facts.
  Variable JSON_parse : string -> option json.
  Variable JSON_stringify : json -> string.
  Variable rootDir : path.
  Variable cwd : path.

  Abbreviation createCategory := (Category.createCategory JSON_parse JSON_stringify rootDir cwd).
  Abbreviation template_source := (CategoryFacts2.template_source rootDir).
  Abbreviation undisturbed := (CategoryFacts2.undisturbed).

Definition template_step (out : path) (fs : gmap (list string) node) (file : string)
    : gmap (list string) node :=
    copy_opt fs (template_source file) (out ++ [file]).

  (** The body of the loop over the files of the base template. *)
Definition copyTemplate (out : path) (file : string) : M unit :=
    let sourcePath := (rootDir ++ ["base-template"]) ++ [file] in
    let* hasFile := FS.existsSync sourcePath in
    if hasFile then FS.copyFileSync sourcePath (out ++ [file]) else ret tt.

Lemma examples_not_template : "examples" ∉ Category.templateFiles.
  Proof. apply (bool_decide_unpack _). by vm_compute. Qed.

Lemma templates_loop out names :
    forall fs cons,
      NoDup names -> wf fs -> fs !! out = Some Dir ->
      (forall f, f ∈ names -> fs !! (out ++ [f]) = None) ->
      Forall (undisturbed fs out) (map template_source names) ->
      forEach (copyTemplate out) names (World fs cons)
        = Ret tt (World (foldl (template_step out) fs names) cons) /\
      wf (foldl (template_step out) fs names) /\
      (forall p, (forall f, f ∈ names -> p <> out ++ [f]) ->
                 foldl (template_step out) fs names !! p = fs !! p) /\
      (forall f, f ∈ names ->
                 foldl (template_step out) fs names !! (out ++ [f]) = fs !! template_source f).
  Proof.
    induction names as [|f names IH]; intros fs cons Hnd Hwf Hout Hfresh Hsrc.
    { simpl. repeat split; try done. intros f Hf. by apply not_elem_of_nil in Hf. }
    apply NoDup_cons in Hnd as [Hf Hnd]. simpl in Hsrc.
    apply Forall_cons in Hsrc as [(Hs1 & Hs2 & Hs3) Hsrc].
    set (fs1 := template_step out fs f).
    assert (forall p, p <> out ++ [f] -> fs1 !! p = fs !! p) as Hfs1.
    { intros p Hp. unfold fs1, template_step. by rewrite lookup_copy_opt_ne. }
    assert (fs1 !! (out ++ [f]) = fs !! template_source f) as Hnew.
    { unfold fs1, template_step. apply lookup_copy_opt_eq; [done|]. apply Hfresh. by left. }
    assert (forall p, ~ out `prefix_of` p -> p <> out ++ [f]) as Hne.
    { intros p Hp ->. apply Hp. by apply prefix_app_r. }
    destruct (IH fs1 cons) as (Hrun & Hwf' & Hframe & Hcopies); try done.
    { unfold fs1, template_step. apply wf_copy_opt; [done| |by rewrite parent_snoc].
      rewrite Hfresh; [done|by left]. }
    { rewrite Hfs1; [done|]. intros E. apply (f_equal length) in E.
      rewrite length_app in E. simpl in E. lia. }
    { intros f' Hf'. rewrite Hfs1.
      - apply Hfresh. by right.
      - intros E. apply app_inv_head in E. injection E as ->. done. }
    { eapply Forall_impl; [exact Hsrc|]. intros p (Hp1 & Hp2 & Hp3).
      split; [done|]. split; [done|]. rewrite Hfs1; [done|by apply Hne]. }
    split; [|split; [done|split]].
    - simpl. unfold copyTemplate at 1.
      erewrite bind_Ret.
      2:{ erewrite bind_Ret; [|reflexivity]. cbn [files console].
          rewrite CategoryFacts.snoc2. apply copy_if_exists; [done| |by rewrite parent_snoc].
          rewrite Hfresh; [done|by left]. }
      exact Hrun.
    - intros p Hp. simpl. rewrite Hframe.
      + apply Hfs1, Hp. by left.
      + intros f' Hf'. apply Hp. by right.
    - intros f' Hf'. simpl. apply elem_of_cons in Hf' as [->|Hf'].
      + rewrite Hframe; [done|]. intros f' Hf' E. apply app_inv_head in E.
        injection E as ->. done.
      + rewrite Hcopies by done. apply Hfs1, Hne.
        rewrite Forall_forall in Hsrc. apply (Hsrc (template_source f')).
        apply list_elem_of_fmap. by exists f'.
  Qed.

Lemma templates_absent out names fs :
    (forall f, f ∈ names -> fs !! template_source f = None) ->
    foldl (template_step out) fs names = fs.
  Proof.
    revert fs. induction names as [|f names IH]; intros fs H; simpl; [done|].
    assert (template_step out fs f = fs) as ->.
    { unfold template_step, copy_opt. rewrite H; [done|by left]. }
    apply IH. intros f' Hf'. apply H. by right.
  Qed.

  (** The file system and the lines after step 1. *)
Definition structure_files (out : path) (fs : gmap (list string) node)
    : gmap (list string) node :=
    foldl (template_step out) (<[out ++ ["examples"] := Dir]> (created fs out))
      Category.templateFiles.

Definition structure_lines (categoryName outputDir : string) : list string :=
    [ line Blue ("Info: " +:+ "Creating category: " +:+ categoryName);
      line Blue ("Info: " +:+ "Output directory: " +:+ outputDir);
      line Cyan (nl +:+ "Step 1: Creating project structure...");
      line Green ("Success: " +:+ "Project structure created");
      line Cyan (nl +:+ "Step 2: Copying examples...") ].

Lemma createStructure_Ret categoryName outputDir w :
    let out := resolve cwd outputDir in
    wf (files w) -> files w !! out = None -> mkdir_ok (files w) out ->
    Forall (undisturbed (files w) out) (map template_source Category.templateFiles) ->
    Category.createStructure rootDir cwd categoryName outputDir w =
      Ret tt (World (structure_files out (files w))
                (console w ++ structure_lines categoryName outputDir)) /\
    wf (structure_files out (files w)) /\
    structure_files out (files w) !! out = Some Dir /\
    structure_files out (files w) !! (out ++ ["examples"]) = Some Dir /\
    (forall x r, ~ (x ∈ Category.templateFiles /\ r = []) -> ~ (x = "examples" /\ r = []) ->
                 structure_files out (files w) !! (out ++ x :: r) = None) /\
    (forall f, f ∈ Category.templateFiles ->
               structure_files out (files w) !! (out ++ [f]) = files w !! template_source f) /\
    (forall p, ~ out `prefix_of` p -> ~ p `prefix_of` out ->
               structure_files out (files w) !! p = files w !! p).
  Proof.
    intros out Hwf Hfresh Hok Hsrc.
    set (fs1 := created (files w) out).
    set (fs2 := <[out ++ ["examples"] := Dir]> fs1).
    assert (wf fs1) as Hwf1 by (by apply wf_created).
    assert (fs1 !! out = Some Dir) as Hout1 by (by apply lookup_created_self).
    assert (forall x r, fs1 !! (out ++ x :: r) = None) as Hbelow1.
    { intros x r. apply lookup_created_below; [done|]. by apply wf_fresh_below. }
    assert (wf fs2) as Hwf2 by (by apply wf_insert_dir).
    assert (fs2 !! out = Some Dir) as Hout2.
    { unfold fs2. rewrite lookup_insert_ne; [done|]. intros E. apply (f_equal length) in E.
      rewrite length_app in E. simpl in E. lia. }
    assert (forall p, ~ out `prefix_of` p -> ~ p `prefix_of` out -> fs2 !! p = files w !! p)
      as Hframe2.
    { intros p Hp1 Hp2. unfold fs2. rewrite lookup_insert_outside by done.
      by apply lookup_created_outside. }
    assert (Forall (undisturbed fs2 out) (map template_source Category.templateFiles)) as Hsrc2.
    { eapply Forall_impl; [exact Hsrc|]. intros p (Hp1 & Hp2 & Hp3).
      split; [done|]. split; [done|]. by rewrite Hframe2. }
    destruct (templates_loop out Category.templateFiles fs2
                ((((console w ++ [line Blue ("Info: " +:+ "Creating category: " +:+ categoryName)])
                   ++ [line Blue ("Info: " +:+ "Output directory: " +:+ outputDir)])
                  ++ [line Cyan (nl +:+ "Step 1: Creating project structure...")])))
      as (Hrun & Hwf3 & Hframe3 & Hcopies); try done.
    { apply (bool_decide_unpack _). by vm_compute. }
    { intros f Hf. unfold fs2. rewrite lookup_sibling.
      - apply Hbelow1.
      - intros [= <-]. by apply examples_not_template. }
    fold (structure_files out (files w)) in *.
    split; [|split; [done|split; [|split; [|split; [|split]]]]].
    - unfold Category.createStructure. fold out.
      erewrite bind_Ret; [|reflexivity]. erewrite bind_Ret; [|reflexivity].
      erewrite bind_Ret; [|reflexivity]. erewrite bind_Ret; [|reflexivity].
      cbn [files console]. rewrite Hfresh. rewrite bool_decide_false by (by intros [? ?]).
      erewrite bind_Ret; [|reflexivity].
      erewrite bind_Ret; [|by apply mkdirSync_created]. fold fs1.
      erewrite bind_Ret; [|by apply mkdirSync_child; [|cbn [files]..]]. cbn [files console].
      fold fs2.
      erewrite bind_Ret; [|reflexivity]. cbn [files console].
      erewrite (bind_Ret _ _ _ tt (World (structure_files out (files w)) _)).
      2:{ case_bool_decide as Htemplate.
          - exact Hrun.
          - unfold structure_files. fold fs1 fs2. rewrite templates_absent; [done|].
            intros f _. destruct (fs2 !! template_source f) eqn:E; [|done].
            destruct Htemplate. unfold CategoryFacts2.template_source in E.
            rewrite <-CategoryFacts.snoc2 in E.
            rewrite (wf_parent fs2 (rootDir ++ ["base-template"]) f); eauto. }
      cbv beta iota zeta delta [bind success log]. cbn [files console].
      unfold structure_lines. f_equal. f_equal. by rewrite <-!app_assoc.
    - rewrite Hframe3; [done|]. intros f _ E. apply (f_equal length) in E.
      rewrite length_app in E. simpl in E. lia.
    - rewrite Hframe3.
      + apply lookup_insert_eq.
      + intros f Hf E. apply app_inv_head in E. injection E as <-.
        by apply examples_not_template.
    - intros x r Hx1 Hx2. rewrite Hframe3.
      + unfold fs2. rewrite lookup_sibling; [apply Hbelow1|].
        intros E. simplify_eq. by apply Hx2.
      + intros f Hf E. apply app_inv_head in E. simplify_eq. by apply Hx1.
    - intros f Hf. rewrite Hcopies by done.
      rewrite Forall_forall in Hsrc.
      destruct (Hsrc (template_source f)) as (? & ? & ?); [|by apply Hframe2].
      apply list_elem_of_fmap. by exists f.
    - intros p Hp1 Hp2. rewrite Hframe3; [by apply Hframe2|].
      intros f _ ->. apply Hp1. by apply prefix_app_r.
  Qed.
End Facts.
End CategoryFacts3.

Module CategoryFacts4.
Section Facts.
  Variable JSON_parse : string -> option json.
  Variable JSON_stringify : json -> string.
  Variable rootDir : path.
  Variable cwd : path.

  Abbreviation createCategory := (Category.createCategory JSON_parse JSON_stringify rootDir cwd).
  Abbreviation finishCategory := (Category.finishCategory JSON_parse JSON_stringify cwd).
  Abbreviation template_source := (CategoryFacts2.template_source rootDir).
  Abbreviation contract_source := (CategoryFacts2.contract_source rootDir).
  Abbreviation test_source := (CategoryFacts2.test_source rootDir).
  Abbreviation sources := (CategoryFacts2.sources rootDir).
  Abbreviation undisturbed := (CategoryFacts2.undisturbed).

  (** The manifest that the generator writes from the fields of the
      template's manifest. *)
Definition manifest_fields (categoryName : string) (category : Category.CategoryConfig)
      (fields : list (string * json)) : list (string * json) :=
    assoc_set "description" (JStr (Category.description category))
      (assoc_set "name" (JStr ("fhevm-" +:+ categoryName +:+ "-examples")) fields).

Lemma log_members_Ret (members : list string) fs cons :
    forEach
      (fun ex => log ("  - " +:+ ex +:+ ": " +:+ default "undefined" (Category.description_of ex))
                   Reset)
      members (World fs cons) =
    Ret tt (World fs
              (cons ++ map (fun ex => line Reset ("  - " +:+ ex +:+ ": "
                              +:+ default "undefined" (Category.description_of ex))) members)).
  Proof.
    revert cons. induction members as [|m members IH]; intros cons; simpl.
    - by rewrite app_nil_r.
    - erewrite bind_Ret; [|reflexivity]. cbn [files console]. rewrite IH.
      by rewrite <-app_assoc.
  Qed.

Lemma finishCategory_Ret categoryName outputDir category fs cons :
    let out := resolve cwd outputDir in
    fs !! out = Some Dir -> fs !! (out ++ ["README.md"]) = None ->
    fs !! (out ++ ["package.json"]) <> Some Dir ->
    (forall text, fs !! (out ++ ["package.json"]) = Some (File text) ->
                  exists fields, JSON_parse text = Some (JObj fields)) ->
    exists fs' lines,
      finishCategory categoryName outputDir category (World fs cons)
        = Ret tt (World fs' (cons ++ lines)) /\
      Forall no_warning lines /\
      (forall p, p <> out ++ ["README.md"] -> p <> out ++ ["package.json"] ->
                 fs' !! p = fs !! p) /\
      fs' !! (out ++ ["README.md"])
        = Some (File (Category.generateCategoryReadme categoryName category)) /\
      (forall text fields,
         fs !! (out ++ ["package.json"]) = Some (File text) ->
         JSON_parse text = Some (JObj fields) ->
         fs' !! (out ++ ["package.json"])
           = Some (File (JSON_stringify
                           (JObj (manifest_fields categoryName category fields))))) /\
      (fs !! (out ++ ["package.json"]) = None -> fs' !! (out ++ ["package.json"]) = None).
  Proof.
    intros out Hout Hreadme Hnd Hparse. unfold Category.finishCategory. fold out.
    erewrite bind_Ret; [|reflexivity].
    erewrite bind_Ret; [|apply writeFileSync_Ret; cbn [files];
                         [by rewrite Hreadme|by rewrite parent_snoc]].
    erewrite bind_Ret; [|reflexivity]. erewrite bind_Ret; [|reflexivity]. cbn [files console].
    set (fs1 := <[out ++ ["README.md"] := File (Category.generateCategoryReadme categoryName category)]> fs).
    assert (fs1 !! (out ++ ["package.json"]) = fs !! (out ++ ["package.json"])) as Hpkg.
    { unfold fs1. by rewrite lookup_sibling. }
    rewrite Hpkg.
    set (tail_lines :=
      [ line Green (nl +:+ repeat_str "=" 70);
        line Green ("Success: " +:+ "Category " +:+ dq +:+ categoryName +:+ dq
                    +:+ " created successfully!");
        line Green (repeat_str "=" 70);
        line Yellow (nl +:+ "Next steps:");
        line Reset ("  cd " +:+ relative cwd out);
        line Reset "  npm install";
        line Reset "  npm run compile";
        line Reset "  npm run test";
        line Cyan (nl +:+ "Category includes:") ]
      ++ map (fun ex => line Reset ("  - " +:+ ex +:+ ": "
                           +:+ default "undefined" (Category.description_of ex)))
             (Category.examples category)).
    assert (Forall no_warning tail_lines) as Htail.
    { unfold tail_lines. apply Forall_app. split; [by repeat constructor|].
      apply Forall_fmap, Forall_forall. by intros ex _. }
    assert (forall fs2 cons2,
      (log (nl +:+ repeat_str "=" 70) Green ;;
       success ("Category " +:+ dq +:+ categoryName +:+ dq +:+ " created successfully!") ;;
       log (repeat_str "=" 70) Green ;;
       log (nl +:+ "Next steps:") Yellow ;;
       log ("  cd " +:+ relative cwd out) Reset ;;
       log "  npm install" Reset ;;
       log "  npm run compile" Reset ;;
       log "  npm run test" Reset ;;
       log (nl +:+ "Category includes:") Cyan ;;
       forEach
         (fun ex => log ("  - " +:+ ex +:+ ": "
                         +:+ default "undefined" (Category.description_of ex)) Reset)
         (Category.examples category)) (World fs2 cons2)
      = Ret tt (World fs2 (cons2 ++ tail_lines))) as Hrest.
    { intros fs2 cons2. do 9 (erewrite bind_Ret; [|reflexivity]). cbn [files console].
      rewrite log_members_Ret. unfold tail_lines. by rewrite <-!app_assoc. }
    destruct (fs !! (out ++ ["package.json"])) as [[text|]|] eqn:Epkg; [|done|].
    - destruct (Hparse text eq_refl) as [fields Hfields].
      rewrite bool_decide_true by eauto.
      exists (<[out ++ ["package.json"] :=
                 File (JSON_stringify (JObj (manifest_fields categoryName category fields)))]> fs1).
      exists (line Cyan (nl +:+ "Step 3: Generating documentation...")
              :: line Green ("Success: " +:+ "Documentation generated") :: tail_lines).
      split; [|split; [|split; [|split; [|split]]]].
      + erewrite bind_Ret.
        2:{ erewrite bind_Ret; [|by apply readFileSync_Ret].
            rewrite Hfields. cbn [set_field].
            apply writeFileSync_Ret; cbn [files]; [by rewrite Hpkg|].
            rewrite parent_snoc. unfold fs1. rewrite lookup_insert_ne; [done|].
            intros E. apply (f_equal length) in E. rewrite length_app in E. simpl in E. lia. }
        cbn [files console]. rewrite Hrest. by rewrite <-!app_assoc.
      + constructor; [done|]. constructor; [done|exact Htail].
      + intros p Hp1 Hp2. unfold fs1. by rewrite !lookup_insert_ne.
      + unfold fs1. rewrite lookup_sibling by done. apply lookup_insert_eq.
      + intros text' fields' [= <-] Hf. rewrite Hfields in Hf. injection Hf as <-.
        apply lookup_insert_eq.
      + done.
    - rewrite bool_decide_false by (by intros [? ?]).
      exists fs1.
      exists (line Cyan (nl +:+ "Step 3: Generating documentation...")
              :: line Green ("Success: " +:+ "Documentation generated") :: tail_lines).
      split; [|split; [|split; [|split; [|split]]]].
      + erewrite bind_Ret; [|reflexivity]. rewrite Hrest. by rewrite <-!app_assoc.
      + constructor; [done|]. constructor; [done|exact Htail].
      + intros p Hp1 Hp2. unfold fs1. by rewrite lookup_insert_ne.
      + apply lookup_insert_eq.
      + done.
      + intros _. by rewrite Hpkg.
  Qed.
End Facts.
End CategoryFacts4.

Module CategoryFacts5.
Section Facts.
  Variable JSON_parse : string -> option json.
  Variable JSON_stringify : json -> string.
  Variable rootDir : path.
  Variable cwd : path.

  Abbreviation createCategory := (Category.createCategory JSON_parse JSON_stringify rootDir cwd).
  Abbreviation template_source := (CategoryFacts2.template_source rootDir).
  Abbreviation contract_source := (CategoryFacts2.contract_source rootDir).
  Abbreviation test_source := (CategoryFacts2.test_source rootDir).
  Abbreviation sources := (CategoryFacts2.sources rootDir).
  Abbreviation undisturbed := (CategoryFacts2.undisturbed).

Lemma steady_copyExample out m : steady (Category.copyExample rootDir out m).
  Proof. unfold Category.copyExample. steady. Qed.

Lemma steady_createCategory categoryName outputDir :
    steady (createCategory categoryName outputDir).
  Proof.
    unfold Category.createCategory, Category.createStructure, Category.finishCategory.
    pose proof steady_copyExample. steady.
  Qed.

Lemma copied_lines_no_warning fs info :
    Forall no_warning (CategoryFacts.copied_lines rootDir fs info).
  Proof.
    unfold CategoryFacts.copied_lines. apply Forall_app.
    split; case_bool_decide; by repeat constructor.
  Qed.

  (** What the generator leaves for one member [m] of a category. *)
Definition member_copied (w w' : world) (out : path) (m : string) : Prop :=
    exists info,
      js_get Category.EXAMPLES m = Own info /\
      files w' !! (out ++ ["examples"; m]) = Some Dir /\
      files w' !! (out ++ ["examples"; m; "contracts"]) = Some Dir /\
      files w' !! (out ++ ["examples"; m; "test"]) = Some Dir /\
      files w' !! (out ++ ["examples"; m; "README.md"])
        = Some (File (Category.exampleReadme m info)) /\
      files w' !! (out ++ ["examples"; m; "contracts"; basename (Category.contract info)])
        = files w !! contract_source info /\
      files w' !! (out ++ ["examples"; m; "test"; basename (Category.test info)])
        = files w !! test_source info.

  (** The outcome of the generator for a category of the registry, at
      a fresh destination. *)
Lemma createCategory_outcome categoryName outputDir category w :
    let out := resolve cwd outputDir in
    js_get Category.CATEGORIES categoryName = Own category ->
    wf (files w) -> files w !! out = None -> mkdir_ok (files w) out ->
    Forall (undisturbed (files w) out) (sources category) ->
    (forall text, files w !! template_source "package.json" = Some (File text) ->
                  exists fields, JSON_parse text = Some (JObj fields)) ->
    exists w' lines,
      createCategory categoryName outputDir w = Ret tt w' /\
      console w' = console w ++ lines /\ Forall no_warning lines /\
      Forall (member_copied w w' out) (Category.examples category) /\
      files w' !! out = Some Dir /\
      files w' !! (out ++ ["README.md"])
      = Some (File (Category.generateCategoryReadme categoryName category)) /\
      (forall f, f ∈ Category.templateFiles -> f <> "package.json" ->
                 files w' !! (out ++ [f]) = files w !! template_source f) /\
      (forall text fields,
         files w !! template_source "package.json" = Some (File text) ->
         JSON_parse text = Some (JObj fields) ->
         files w' !! (out ++ ["package.json"])
         = Some (File (JSON_stringify
                         (JObj (CategoryFacts4.manifest_fields categoryName category
                                  fields))))) /\
      (files w !! template_source "package.json" = None ->
       files w' !! (out ++ ["package.json"]) = None).
  Proof.
    intros out Hget Hwf Hfresh Hok Hsrc Hparse.
    unfold CategoryFacts2.sources in Hsrc. apply Forall_app in Hsrc as [Hsrc_t Hsrc_m].
    destruct (CategoryFacts2.members_ok _ _ Hget) as [Hnd Hmok].
    destruct (CategoryFacts3.createStructure_Ret rootDir cwd categoryName outputDir w)
      as (Hrun1 & Hwf1 & Hout1 & Hex1 & Hnone1 & Htempl1 & Hframe1); try done.
    fold out in Hrun1, Hwf1, Hout1, Hex1, Hnone1, Htempl1, Hframe1.
    set (fs1 := CategoryFacts3.structure_files rootDir out (files w)) in *.
    assert (Forall (undisturbed fs1 out)
              (flat_map (CategoryFacts2.member_sources rootDir) (Category.examples category)))
      as Hsrc1.
    { eapply Forall_impl; [exact Hsrc_m|]. intros p (Hp1 & Hp2 & Hp3).
      split; [done|]. split; [done|]. by rewrite Hframe1. }
    destruct (CategoryFacts2.members_loop rootDir out (Category.examples category) fs1
                (console w ++ CategoryFacts3.structure_lines categoryName outputDir))
      as (fs2 & Hrun2 & Hwf2 & Hframe2 & Hall2); try done.
    { intros m r _. apply Hnone1; [|by intros [? ?]].
      intros [Hm _]. by apply CategoryFacts3.examples_not_template. }
    assert (forall x r, x <> "examples" -> fs2 !! (out ++ x :: r) = fs1 !! (out ++ x :: r))
      as Hother.
    { intros x r Hx. apply Hframe2. intros m _ Hp. apply prefix_app_inv in Hp.
      apply prefix_cons_inv_1 in Hp. done. }
    assert (fs2 !! out = Some Dir) as Hout2.
    { rewrite Hframe2; [done|]. intros m _ Hp. apply prefix_length in Hp.
      rewrite length_app in Hp. simpl in Hp. lia. }
    assert ("package.json" ∈ Category.templateFiles) as Hpkg_in.
    { apply (bool_decide_unpack _). by vm_compute. }
    assert ("README.md" ∉ Category.templateFiles) as Hreadme_out.
    { apply (bool_decide_unpack _). by vm_compute. }
    assert (fs2 !! (out ++ ["package.json"]) = files w !! template_source "package.json")
      as Hpkg2.
    { rewrite Hother by done. by apply Htempl1. }
    destruct (CategoryFacts4.finishCategory_Ret JSON_parse JSON_stringify cwd
                categoryName outputDir category fs2
                ((console w ++ CategoryFacts3.structure_lines categoryName outputDir)
                 ++ flat_map (CategoryFacts2.member_lines rootDir fs1)
                      (Category.examples category)))
      as (fs3 & lines3 & Hrun3 & Hnw3 & Hframe3 & Hreadme3 & Hmanifest3 & Hnone3); fold out.
    { done. }
    { rewrite Hother by done. apply Hnone1; [|by intros [? ?]]. by intros [? _]. }
    { rewrite Hpkg2. rewrite Forall_forall in Hsrc_t.
      apply (Hsrc_t (template_source "package.json")).
      apply list_elem_of_fmap. by exists "package.json". }
    { intros text Htext. apply Hparse. by rewrite <-Hpkg2. }
    exists (World fs3 (((console w ++ CategoryFacts3.structure_lines categoryName outputDir)
                        ++ flat_map (CategoryFacts2.member_lines rootDir fs1)
                             (Category.examples category)) ++ lines3)).
    exists (CategoryFacts3.structure_lines categoryName outputDir
            ++ flat_map (CategoryFacts2.member_lines rootDir fs1) (Category.examples category)
            ++ lines3).
    fold out in Hframe3, Hreadme3, Hmanifest3, Hnone3.
    split; [|split; [|split; [|split; [|split; [|split; [|split; [|split]]]]]]].
    - unfold Category.createCategory. rewrite Hget.
      rewrite (bind_Ret _ _ _ _ _ Hrun1). fold out. rewrite (bind_Ret _ _ _ _ _ Hrun2).
      exact Hrun3.
    - cbn [console]. by rewrite <-!app_assoc.
    - apply Forall_app. split; [by repeat constructor|]. apply Forall_app. split; [|done].
      apply Forall_forall. intros l Hl. apply list_elem_of_In, in_flat_map in Hl as (m & _ & Hl).
      unfold CategoryFacts2.member_lines in Hl.
      destruct (js_get Category.EXAMPLES m) as [info| |]; [|done..].
      pose proof (copied_lines_no_warning fs1 info) as Hnw. rewrite Forall_forall in Hnw.
      apply Hnw. by apply list_elem_of_In.
    - rewrite Forall_forall in Hall2 |- *. intros m Hm.
      destruct (Hall2 m Hm) as (info & Hi & H1 & H2 & H3 & H4 & H5 & H6).
      assert (forall r, fs3 !! (out ++ "examples" :: r) = fs2 !! (out ++ "examples" :: r)) as Hk.
      { intros r. apply Hframe3; intros E; apply app_inv_head in E; done. }
      assert (fs1 !! contract_source info = files w !! contract_source info /\
              fs1 !! test_source info = files w !! test_source info) as [E1 E2].
      { rewrite Forall_forall in Hsrc_m.
        destruct (Hsrc_m (contract_source info)) as (? & ? & _).
        { apply list_elem_of_In, in_flat_map. exists m. split; [by apply list_elem_of_In|].
          unfold CategoryFacts2.member_sources. rewrite Hi. by left. }
        destruct (Hsrc_m (test_source info)) as (? & ? & _).
        { apply list_elem_of_In, in_flat_map. exists m. split; [by apply list_elem_of_In|].
          unfold CategoryFacts2.member_sources. rewrite Hi. right. by left. }
        split; by apply Hframe1. }
      exists info. cbn [files]. rewrite !Hk, <-E1, <-E2. done.
    - cbn [files]. rewrite Hframe3; [done| |]; intros E; apply (f_equal length) in E;
        rewrite length_app in E; simpl in E; lia.
    - exact Hreadme3.
    - intros f Hf Hne. cbn [files].
      rewrite Hframe3; [|intros E; apply app_inv_head in E; congruence..].
      rewrite Hother; [by apply Htempl1|].
      intros ->. revert Hf. apply (bool_decide_unpack _). by vm_compute.
    - intros text fields Htext Hfields. cbn [files]. apply (Hmanifest3 text fields); [|done].
      by rewrite Hpkg2.
    - intros Hnone. cbn [files]. apply Hnone3. by rewrite Hpkg2.
  Qed.

  (** The generator stops at a destination that exists. *)
Lemma createCategory_exists categoryName outputDir w :
    is_Some (files w !! resolve cwd outputDir) ->
    exists w', createCategory categoryName outputDir w = Exit 1 w' /\ files w' = files w /\
      (js_get Category.CATEGORIES categoryName <> Undefined ->
       last (console w')
         = Some (line Red ("Error: " +:+ "Output directory already exists: " +:+ outputDir))).
  Proof.
    intros Hd. unfold Category.createCategory.
    assert (exists w', Category.createStructure rootDir cwd categoryName outputDir w = Exit 1 w' /\
              files w' = files w /\
              last (console w')
                = Some (line Red ("Error: " +:+ "Output directory already exists: "
                                  +:+ outputDir))) as (w' & Hrun & Hf & Hl).
    { unfold Category.createStructure.
      cbv beta iota zeta delta [bind FS.existsSync info log ret]. cbn [files console].
      rewrite (bool_decide_true _ Hd). rewrite error_eq. eexists. split; [done|].
      cbn [files console]. split; [done|]. by rewrite last_snoc. }
    destruct (js_get Category.CATEGORIES categoryName) as [category| |].
    - exists w'. unfold bind. rewrite Hrun. done.
    - exists w'. unfold bind. rewrite Hrun. done.
    - rewrite error_eq. eexists. split; [done|]. split; [done|]. done.
  Qed.

Lemma createCategory_Ret_exists categoryName outputDir w w' :
    createCategory categoryName outputDir w = Ret tt w' ->
    is_Some (files w' !! resolve cwd outputDir).
  Proof.
    unfold Category.createCategory. intros H.
    destruct (js_get _ _) as [category| |]; [| |done].
    - apply bind_Ret_inv in H as ([] & w1 & H1 & H).
      assert (is_Some (files w1 !! resolve cwd outputDir)) as Hex.
      { unfold Category.createStructure in H1.
        apply bind_Ret_inv in H1 as ([] & w0 & H0 & H1). apply log_inv in H0 as ->.
        apply bind_Ret_inv in H1 as ([] & w0 & H0 & H1). apply log_inv in H0 as ->.
        apply bind_Ret_inv in H1 as ([] & w0 & H0 & H1). apply log_inv in H0 as ->.
        apply bind_Ret_inv in H1 as (present & w0 & H0 & H1).
        apply existsSync_inv in H0 as [-> ->].
        apply bind_Ret_inv in H1 as ([] & w0 & H0 & H1).
        apply if_error_inv in H0 as [_ H0]. apply ret_inv in H0 as [_ ->].
        apply bind_Ret_inv in H1 as ([] & w2 & H2 & H1).
        apply mkdirSync_inv in H2 as (_ & _ & Hl).
        assert (is_Some (files w2 !! resolve cwd outputDir)) as Hex2.
        { rewrite Hl. cbn [files].
          destruct (files w !! resolve cwd outputDir); [eauto|]. rewrite decide_True by done.
          eauto. }
        assert (steady (FS.mkdirSync (resolve cwd outputDir ++ ["examples"]) ;;
                        let* hasTemplate := FS.existsSync (rootDir ++ ["base-template"]) in
                        ((if hasTemplate then
                            forEach
                              (fun file =>
                                 let* hasFile :=
                                   FS.existsSync ((rootDir ++ ["base-template"]) ++ [file]) in
                                 if hasFile then
                                   FS.copyFileSync ((rootDir ++ ["base-template"]) ++ [file])
                                     (resolve cwd outputDir ++ [file])
                                 else ret tt)
                              Category.templateFiles
                          else ret tt) ;;
                         success "Project structure created" ;;
                         log (nl +:+ "Step 2: Copying examples...") Cyan))) as Hst by steady.
        destruct (Hst w2 w1) as [Hext _]; [by rewrite H1|]. by apply Hext. }
      assert (steady (forEach (Category.copyExample rootDir (resolve cwd outputDir))
                        (Category.examples category) ;;
                      Category.finishCategory JSON_parse JSON_stringify cwd categoryName
                        outputDir category)) as Hst.
      { unfold Category.finishCategory. pose proof steady_copyExample. steady. }
      destruct (Hst w1 w') as [Hext _]; [by rewrite H|]. by apply Hext.
    - apply bind_Ret_inv in H as ([] & w1 & H1 & H). done.
  Qed.
End Facts.
End CategoryFacts5.

Module TemplateFacts.
Section Facts.
  Variable rootDir : path.

  Abbreviation copy := (fun fuel source destination =>
    Example.copyDirectoryRecursive fuel source destination ["scripts"]).
  Abbreviation visible := (CopyFacts2.visible ["scripts"]).
  Abbreviation apart := (CopyFacts2.apart ["scripts"]).
  Abbreviation copied := (CopyFacts2.copied ["scripts"]).

  (** A budget above the length of every path in sight. *)
Definition deep_enough (fuel : nat) (fs : gmap (list string) node) (out : path) : Prop :=
    depth fs < fuel /\ length out < fuel.

Lemma visible_bound fuel fs out r :
    mkdir_ok fs out -> deep_enough fuel fs out ->
    visible (created fs out) rootDir r = true -> length r < fuel.
  Proof.
    intros Hok [Hd Hl]. destruct r as [|x r]; [simpl; lia|]. intros Hv.
    apply CopyFacts2.visible_exists in Hv as [n Hn]. rewrite lookup_created in Hn by done.
    assert (length (rootDir ++ x :: r) < fuel) as Hlen.
    { destruct (fs !! (rootDir ++ x :: r)) eqn:E.
      - pose proof (depth_lookup fs (rootDir ++ x :: r)) as Hdl. rewrite E in Hdl.
        specialize (Hdl ltac:(eauto)). lia.
      - case_decide as Hp; [|done]. apply prefix_length in Hp. lia. }
    rewrite length_app in Hlen. lia.
  Qed.

  (** The copy of the template returns when the destination is fresh
      and apart from the template. *)
Lemma copy_template_Ret fuel out fs cons :
    wf fs -> fs !! rootDir = Some Dir -> fs !! out = None -> mkdir_ok fs out ->
    apart rootDir out -> deep_enough fuel fs out ->
    exists fs', copy fuel rootDir out (World fs cons) = Ret tt (World fs' cons) /\
                copied (created fs out) rootDir out fs' /\ wf fs'.
  Proof.
    intros Hwf Hroot Hfresh Hok Hap Hdeep.
    destruct (CopyFacts3.copy_correct ["scripts"] fuel rootDir out fs cons)
      as (fs' & Hrun & Hcopied); try done.
    { intros r. by apply wf_fresh_below. }
    { intros r. by apply visible_bound. }
    exists fs'. split; [done|]. split; [done|].
    destruct (ExampleFacts2.steady_copyDirectoryRecursive fuel rootDir out ["scripts"]
                (World fs cons) (World fs' cons)) as [_ Hw]; [by rewrite Hrun|]. by apply Hw.
  Qed.

  (** A copy of the template that returned: the destination was apart
      from the template, and the outcome is the one above. *)
Lemma copy_template_inv fuel out w w1 :
    wf (files w) -> files w !! rootDir = Some Dir -> files w !! out = None ->
    copy fuel rootDir out w = Ret tt w1 ->
    mkdir_ok (files w) out /\ apart rootDir out /\ console w1 = console w /\
    copied (created (files w) out) rootDir out (files w1).
  Proof.
    intros Hwf Hroot Hfresh Hrun.
    assert (apart rootDir out) as Hap.
    { intros d -> Hd. destruct d as [|x d].
      - rewrite app_nil_r in Hfresh. congruence.
      - eapply (CopyFacts.copy_into_itself ["scripts"] (x :: d) ltac:(done) Hd fuel rootDir 0 w);
          [done|simpl; lia|].
        rewrite take_0, !app_nil_r. exact Hrun. }
    assert (mkdir_ok (files w) out) as Hok.
    { destruct fuel as [|fuel]; [done|]. rewrite CopyFacts.copy_unfold in Hrun.
      apply bind_Ret_inv in Hrun as (present & w0 & H0 & Hrun).
      apply existsSync_inv in H0 as [-> ->]. rewrite Hfresh in Hrun.
      rewrite bool_decide_false in Hrun by (by intros [? ?]).
      apply bind_Ret_inv in Hrun as ([] & w2 & H2 & _).
      by apply mkdirSync_inv in H2 as (_ & Hok & _). }
    split; [done|]. split; [done|].
    set (big := S (fuel `max` (depth (files w) `max` length out))).
    destruct (copy_template_Ret big out (files w) (console w)) as (fs' & Hbig & Hcopied & _);
      try done.
    { unfold deep_enough, big. lia. }
    assert (copy big rootDir out w = Ret tt w1) as Hbig'.
    { eapply copy_fuel_mono; [|exact Hrun]. unfold big. lia. }
    destruct w as [fs cons]. cbn [files console] in *. rewrite Hbig in Hbig'.
    injection Hbig' as <-. done.
  Qed.

  (** What is visible before [mkdir -p] is visible after it, unchanged. *)
Lemma visible_created fs out r source :
    mkdir_ok fs out -> visible fs source r = true ->
    visible (created fs out) source r = true /\
    (r <> [] -> created fs out !! (source ++ r) = fs !! (source ++ r)).
  Proof.
    intros Hok. revert source. induction r as [|x r IH]; intros source; simpl; [done|].
    case_bool_decide; [done|]. simpl. rewrite lookup_created by done.
    destruct (fs !! (source ++ [x])) as [[c|]|] eqn:E; [| |done].
    - intros Hr. apply bool_decide_eq_true in Hr as ->. split; [done|]. intros _.
      rewrite lookup_created by done. by rewrite E.
    - case_bool_decide; [done|]. simpl. intros Hv. destruct (IH _ Hv) as [IH1 IH2].
      split; [done|]. intros _. destruct r as [|y r].
      + rewrite lookup_created by done. by rewrite E.
      + rewrite <-app_assoc in IH2. by apply IH2.
  Qed.

  (** The files of a copied template. *)
Lemma copied_tree fs out fs' :
    mkdir_ok fs out -> copied (created fs out) rootDir out fs' ->
    (forall r, r <> [] -> visible fs rootDir r = true ->
               fs' !! (out ++ r) = fs !! (rootDir ++ r)) /\
    (forall r c, r <> [] -> fs' !! (out ++ r) = Some (File c) ->
                 fs !! (rootDir ++ r) = Some (File c)).
  Proof.
    intros Hok (Hc1 & Hc2 & Hc3). split.
    - intros [|x r] Hne Hv; [done|]. rewrite Hc3.
      destruct (visible_created fs out (x :: r) rootDir Hok Hv) as [-> E]. by apply E.
    - intros [|x r] c Hne; [done|]. rewrite Hc3.
      destruct (visible (created fs out) rootDir (x :: r)); [|done].
      rewrite lookup_created by done.
      destruct (fs !! (rootDir ++ x :: r)); [done|]. by case_decide.
  Qed.
End Facts.
End TemplateFacts.

Lemma prefix_app_string (t b : string) : String.prefix t (t +:+ b) = true.
Proof.
  induction t as [|c t IH]; simpl; [by destruct b|].
  destruct (ascii_dec c c); [exact IH|done].
Qed.

Lemma includes_prefix (t s : string) : String.prefix t s = true -> includes t s = true.
Proof. intros H. destruct s; cbn [includes]; by rewrite H. Qed.

Lemma includes_here (t b : string) : includes t (t +:+ b) = true.
Proof. apply includes_prefix, prefix_app_string. Qed.

Lemma includes_app (t a s : string) : includes t s = true -> includes t (a +:+ s) = true.
Proof.
  intros H. induction a as [|c a IH]; [done|].
  simpl. rewrite IH. apply orb_true_r.
Qed.

Lemma assoc_assoc_set {A} key (v : A) obj : assoc key (assoc_set key v obj) = Some v.
Proof.
  induction obj as [|[k x] obj IH]; simpl.
  - by rewrite String.eqb_refl.
  - destruct (String.eqb k key) eqn:E; simpl; by rewrite E.
Qed.

Lemma assoc_assoc_set_ne {A} key key' (v : A) obj :
  key <> key' -> assoc key' (assoc_set key v obj) = assoc key' obj.
Proof.
  intros Hne. induction obj as [|[k x] obj IH]; simpl.
  - destruct (String.eqb_spec key key'); done.
  - destruct (String.eqb_spec k key) as [->|]; simpl.
    + destruct (String.eqb_spec key key'); done.
    + by rewrite IH.
Qed.

Module ExampleFacts3.
Section Facts.
  Variable JSON_parse : string -> option json.
  Variable JSON_stringify : json -> string.
  Variable rootDir : path.
  Variable cwd : path.

  Abbreviation createExample := (Example.createExample JSON_parse JSON_stringify rootDir cwd).
  Abbreviation copy := (fun fuel source destination =>
    Example.copyDirectoryRecursive fuel source destination ["scripts"]).
  Abbreviation visible := (CopyFacts2.visible ["scripts"]).
  Abbreviation apart := (CopyFacts2.apart ["scripts"]).
  Abbreviation copied := (CopyFacts2.copied ["scripts"]).
  Abbreviation deep_enough := TemplateFacts.deep_enough.

Definition auction : Example.ExampleConfig :=
    {| Example.contract := "contracts/ArtifactAuction.sol";
       Example.test := "test/ArtifactAuction.ts";
       Example.description :=
         "Confidential artifact auction with encrypted bids and authentication";
       Example.category := "advanced" |}.

Lemma registered_inv exampleName example :
    js_get Example.EXAMPLES_MAP exampleName = Own example ->
    exampleName = "artifact-auction" /\ example = auction.
  Proof.
    unfold js_get, Example.EXAMPLES_MAP. cbn [assoc].
    destruct (String.eqb_spec "artifact-auction" exampleName) as [<-|].
    - intros [= <-]. done.
    - by case_bool_decide.
  Qed.

  (** The manifest of the generated project, from the fields of the
      template's manifest. *)
Definition manifest_fields (exampleName description : string)
      (fields : list (string * json)) : list (string * json) :=
    assoc_set "description" (JStr description)
      (assoc_set "name" (JStr ("fhevm-" +:+ exampleName)) fields).

Definition copy_lines (exampleName : string) : list string :=
    [ line Blue ("Info: " +:+ "Creating example: " +:+ exampleName);
      line Cyan (nl +:+ "Copying template...");
      line Green ("Success: " +:+ "Template copied") ].

Definition parse_error_line : string :=
    line Red ("Error: " +:+ "Could not extract contract name").

Definition done_lines (exampleName outputDir : string) : list string :=
    [ line Cyan (nl +:+ "Updating configuration...");
      line Green ("Success: " +:+ "Configuration updated");
      line Cyan (nl +:+ "Generating documentation...");
      line Green ("Success: " +:+ "Documentation generated");
      line Green (nl +:+ repeat_str "=" 60);
      line Green ("Success: " +:+ "Example created: " +:+ exampleName);
      line Green (repeat_str "=" 60);
      line Yellow (nl +:+ "Next steps:");
      line Reset ("  cd " +:+ relative cwd (resolve cwd outputDir));
      line Reset "  npm install";
      line Reset "  npm run compile";
      line Reset "  npm run test" ].

Definition closing_lines (exampleName outputDir : string) : list string :=
    [ line Green ("Success: " +:+ "Documentation generated");
      line Green (nl +:+ repeat_str "=" 60);
      line Green ("Success: " +:+ "Example created: " +:+ exampleName);
      line Green (repeat_str "=" 60);
      line Yellow (nl +:+ "Next steps:");
      line Reset ("  cd " +:+ relative cwd (resolve cwd outputDir));
      line Reset "  npm install";
      line Reset "  npm run compile";
      line Reset "  npm run test" ].

Lemma closing_Ret exampleName outputDir fs cons :
    (success "Documentation generated" ;;
     log (nl +:+ repeat_str "=" 60) Green ;;
     success ("Example created: " +:+ exampleName) ;;
     log (repeat_str "=" 60) Green ;;
     log (nl +:+ "Next steps:") Yellow ;;
     log ("  cd " +:+ relative cwd (resolve cwd outputDir)) Reset ;;
     log "  npm install" Reset ;;
     log "  npm run compile" Reset ;;
     log "  npm run test" Reset) (World fs cons)
    = Ret tt (World fs (cons ++ closing_lines exampleName outputDir)).
  Proof.
    do 8 (erewrite bind_Ret; [|reflexivity]). unfold log. cbn [files console].
    unfold closing_lines. f_equal. f_equal. by rewrite <-!app_assoc.
  Qed.

Lemma createExample_outcome fuel exampleName outputDir example content fs cons :
    let out := resolve cwd outputDir in
    js_get Example.EXAMPLES_MAP exampleName = Own example ->
    wf fs ->
    fs !! path_join rootDir (Example.contract example) = Some (File content) ->
    is_Some (fs !! path_join rootDir (Example.test example)) ->
    fs !! out = None -> mkdir_ok fs out -> apart rootDir out -> deep_enough fuel fs out ->
    exists fs1,
      copied (created fs out) rootDir out fs1 /\ wf fs1 /\
      match Example.contractNameOf content with
      | None =>
          createExample fuel exampleName outputDir (World fs cons)
          = Exit 1 (World fs1 (cons ++ copy_lines exampleName ++ [parse_error_line]))
      | Some contractName =>
          forall text fields,
            fs !! (rootDir ++ ["package.json"]) = Some (File text) ->
            JSON_parse text = Some (JObj fields) ->
            fs !! (rootDir ++ ["README.md"]) <> Some Dir ->
            ~ (rootDir ++ ["README.md"]) `prefix_of` out ->
            createExample fuel exampleName outputDir (World fs cons)
            = Ret tt
                (World
                   (<[out ++ ["README.md"] :=
                        File (Example.generateReadme exampleName
                                (Example.description example) contractName)]>
                      (<[out ++ ["package.json"] :=
                           File (JSON_stringify
                                   (JObj (manifest_fields exampleName
                                            (Example.description example) fields)))]> fs1))
                   (cons ++ copy_lines exampleName ++ done_lines exampleName outputDir))
      end.
  Proof.
    intros out Hget Hwf Hc Ht Hfresh Hok Hap Hdeep.
    destruct (registered_inv _ _ Hget) as [-> ->].
    assert (path_join rootDir (Example.contract auction)
            = rootDir ++ ["contracts"; "ArtifactAuction.sol"]) as Ecp by done.
    assert (fs !! rootDir = Some Dir) as Hroot.
    { rewrite Ecp in Hc. apply (wf_prefix fs (rootDir ++ ["contracts"; "ArtifactAuction.sol"]));
        [done|eauto|by apply prefix_app_r|].
      intros E. apply (f_equal length) in E. rewrite length_app in E. simpl in E. lia. }
    destruct (TemplateFacts.copy_template_Ret rootDir fuel out fs
                (cons ++ [line Blue ("Info: " +:+ "Creating example: " +:+ "artifact-auction");
                          line Cyan (nl +:+ "Copying template...")]))
      as (fs1 & Hcopy & Hcopied & Hwf1); try done.
    exists fs1. split; [done|]. split; [done|].
    assert (fs1 !! path_join rootDir (Example.contract auction) = Some (File content)) as Hc1.
    { destruct Hcopied as (Hout & _). rewrite Hout.
      - rewrite lookup_created by done. by rewrite Hc.
      - intros [r Hr]. rewrite Hr, wf_fresh_below in Hc; done. }
    unfold Example.createExample. rewrite Hget. fold out.
    erewrite bind_Ret; [|reflexivity]. cbn [files]. rewrite Hc.
    rewrite bool_decide_true by eauto.
    erewrite bind_Ret; [|reflexivity].
    erewrite bind_Ret; [|reflexivity]. cbn [files].
    rewrite bool_decide_true by done.
    erewrite bind_Ret; [|reflexivity].
    erewrite bind_Ret; [|reflexivity].
    erewrite bind_Ret; [|reflexivity].
    erewrite bind_Ret; [|reflexivity]. cbn [files console]. rewrite Hfresh.
    rewrite bool_decide_false by (by intros [? ?]).
    erewrite bind_Ret; [|reflexivity].
    rewrite <-!app_assoc. cbn [app].
    erewrite bind_Ret; [|exact Hcopy].
    erewrite bind_Ret; [|reflexivity]. cbn [files console].
    erewrite bind_Ret.
    2:{ unfold Example.getContractName. erewrite bind_Ret; [|by apply readFileSync_Ret].
        reflexivity. }
    destruct (Example.contractNameOf content) as [contractName|] eqn:Ename.
    - pose proof (ExtractFacts.contractNameOf_nonempty _ _ Ename) as Hne.
      destruct contractName as [|c contractName]; [done|].
      intros text fields Hpkg Hparse Hreadme Hnp.
      destruct Hcopied as (Hout & Hdir & Hin).
      assert (fs1 !! (out ++ ["package.json"]) = Some (File text)) as Hpkg1.
      { rewrite Hin. cbn [CopyFacts2.visible]. rewrite lookup_created by done.
        rewrite Hpkg. rewrite bool_decide_false; [done|].
        intros E. by apply list_elem_of_singleton in E. }
      assert (fs1 !! (out ++ ["README.md"]) <> Some Dir) as Hreadme1.
      { rewrite Hin. cbn [CopyFacts2.visible]. rewrite lookup_created by done.
        rewrite decide_False by done.
        destruct (fs !! (rootDir ++ ["README.md"])) as [[?|]|]; try done;
          repeat case_match; done. }
      erewrite bind_Ret; [|reflexivity].
      erewrite bind_Ret.
      2:{ unfold Example.updatePackageJson.
          erewrite bind_Ret; [|by apply readFileSync_Ret].
          rewrite Hparse. cbn [set_field].
          apply writeFileSync_Ret; cbn [files]; [by rewrite Hpkg1|by rewrite parent_snoc]. }
      erewrite bind_Ret; [|reflexivity].
      erewrite bind_Ret; [|reflexivity].
      erewrite bind_Ret.
      2:{ apply writeFileSync_Ret; cbn [files console].
          - by rewrite lookup_sibling.
          - rewrite parent_snoc. rewrite lookup_insert_ne; [done|].
            intros E. apply (f_equal length) in E. rewrite length_app in E. simpl in E. lia. }
      etrans; [apply (closing_Ret "artifact-auction" outputDir)|].
      cbn [files console]. unfold copy_lines, done_lines, closing_lines.
      f_equal. f_equal. rewrite <-!app_assoc. reflexivity.
    - unfold error. erewrite bind_Ret; [|reflexivity]. unfold exit. cbn [files console].
      unfold copy_lines, parse_error_line. f_equal. f_equal. by rewrite <-!app_assoc.
  Qed.
End Facts.
End ExampleFacts3.

Module ExampleFacts4.
Section Facts.
  Variable JSON_parse : string -> option json.
  Variable JSON_stringify : json -> string.
  Variable rootDir : path.
  Variable cwd : path.

  Abbreviation createExample := (Example.createExample JSON_parse JSON_stringify rootDir cwd).
  Abbreviation copy := (fun fuel source destination =>
    Example.copyDirectoryRecursive fuel source destination ["scripts"]).
  Abbreviation visible := (CopyFacts2.visible ["scripts"]).
  Abbreviation unskipped := (CopyFacts.unskipped ["scripts"]).
  Abbreviation apart := (CopyFacts2.apart ["scripts"]).
  Abbreviation copied := (CopyFacts2.copied ["scripts"]).
  Abbreviation deep_enough := TemplateFacts.deep_enough.
  Abbreviation parse_error_line := ExampleFacts3.parse_error_line.

  (** A source of the template that exists puts the template's
      directory in place. *)
Lemma template_exists fs rel :
    wf fs -> is_Some (fs !! path_join rootDir rel) -> fs !! rootDir = Some Dir \/
    (split_path rel = [] /\ is_Some (fs !! rootDir)).
  Proof.
    intros Hwf Hs. unfold path_join in Hs. destruct (split_path rel) as [|x r] eqn:E.
    - right. by rewrite app_nil_r in Hs.
    - left. apply (wf_prefix fs (rootDir ++ x :: r)); [done|done|by apply prefix_app_r|].
      intros E'. apply (f_equal length) in E'. rewrite length_app in E'. simpl in E'. lia.
  Qed.

  (** A run that returned went through the copy of the template. *)
Lemma createExample_Ret_inv fuel exampleName outputDir w a w' :
    createExample fuel exampleName outputDir w = Ret a w' ->
    exists example w1 w2,
      js_get Example.EXAMPLES_MAP exampleName = Own example /\
      is_Some (files w !! path_join rootDir (Example.contract example)) /\
      is_Some (files w !! path_join rootDir (Example.test example)) /\
      files w !! resolve cwd outputDir = None /\
      files w1 = files w /\
      copy fuel rootDir (resolve cwd outputDir) w1 = Ret tt w2.
  Proof.
    unfold Example.createExample. intros H.
    destruct (js_get _ _) as [example| |]; [|done|done].
    exists example.
    apply bind_Ret_inv in H as (hasContract & w1 & H1 & H). apply existsSync_inv in H1 as [-> ->].
    apply bind_Ret_inv in H as ([] & w1 & H1 & H). apply if_else_error_inv in H1 as [Hc H1].
    apply ret_inv in H1 as [_ ->].
    apply bind_Ret_inv in H as (hasTest & w1 & H1 & H). apply existsSync_inv in H1 as [-> ->].
    apply bind_Ret_inv in H as ([] & w1 & H1 & H). apply if_else_error_inv in H1 as [Ht H1].
    apply ret_inv in H1 as [_ ->].
    apply bind_Ret_inv in H as ([] & w1 & H1 & H). apply log_inv in H1 as ->.
    apply bind_Ret_inv in H as ([] & w1 & H1 & H). apply log_inv in H1 as ->.
    apply bind_Ret_inv in H as (present & w1 & H1 & H). apply existsSync_inv in H1 as [-> ->].
    apply bind_Ret_inv in H as ([] & w1 & H1 & H). apply if_error_inv in H1 as [Hno H1].
    apply ret_inv in H1 as [_ ->].
    apply bind_Ret_inv in H as ([] & w2 & Hcopy & H).
    match type of Hcopy with _ ?w1 = _ => exists w1, w2 end. split; [done|].
    apply bool_decide_eq_true in Hc, Ht. apply bool_decide_eq_false in Hno.
    cbn [files console] in *. repeat split; try done.
    by apply eq_None_not_Some.
  Qed.

Lemma error_line_inj message message' :
    line Red ("Error: " +:+ message) = line Red ("Error: " +:+ message') ->
    message +:+ color_code Reset = message' +:+ color_code Reset.
  Proof. unfold line. simpl. by intros [= H]. Qed.

Lemma wrong_line message :
    Some (line Red ("Error: " +:+ message)) = Some parse_error_line ->
    message +:+ color_code Reset = "Could not extract contract name" +:+ color_code Reset.
  Proof. intros H. apply (inj Some) in H. by apply error_line_inj in H. Qed.

  (** A run that stopped on the contract's name went through the copy
      of the template, and stopped right after it. *)
Lemma createExample_parse_error_inv fuel exampleName outputDir w w' :
    wf (files w) ->
    createExample fuel exampleName outputDir w = Exit 1 w' ->
    last (console w') = Some parse_error_line ->
    exists example content,
      js_get Example.EXAMPLES_MAP exampleName = Own example /\
      files w !! path_join rootDir (Example.contract example) = Some (File content) /\
      Example.contractNameOf content = None /\
      is_Some (files w !! path_join rootDir (Example.test example)) /\
      files w !! resolve cwd outputDir = None /\
      mkdir_ok (files w) (resolve cwd outputDir) /\
      apart rootDir (resolve cwd outputDir) /\
      copied (created (files w) (resolve cwd outputDir)) rootDir (resolve cwd outputDir)
        (files w').
  Proof.
    unfold Example.createExample. intros Hwf H Hl.
    destruct (js_get _ _) as [example| |] eqn:Hget; [|done|].
    2:{ rewrite error_eq in H. injection H as <-. cbn [console] in Hl.
        rewrite last_snoc in Hl. by apply wrong_line in Hl. }
    exists example.
    apply bind_Exit_inv in H as [H|(hasContract & w1 & H1 & H)]; [done|].
    apply existsSync_inv in H1 as [-> ->].
    apply bind_Exit_inv in H as [H|([] & w1 & H1 & H)].
    { case_bool_decide; [done|]. rewrite error_eq in H. injection H as <-. cbn [console] in Hl.
      rewrite last_snoc in Hl. by apply wrong_line in Hl. }
    apply if_else_error_inv in H1 as [Hc H1]. apply ret_inv in H1 as [_ ->].
    apply bind_Exit_inv in H as [H|(hasTest & w1 & H1 & H)]; [done|].
    apply existsSync_inv in H1 as [-> ->].
    apply bind_Exit_inv in H as [H|([] & w1 & H1 & H)].
    { case_bool_decide; [done|]. rewrite error_eq in H. injection H as <-. cbn [console] in Hl.
      rewrite last_snoc in Hl. by apply wrong_line in Hl. }
    apply if_else_error_inv in H1 as [Ht H1]. apply ret_inv in H1 as [_ ->].
    apply bind_Exit_inv in H as [H|([] & w1 & H1 & H)]; [done|]. apply log_inv in H1 as ->.
    apply bind_Exit_inv in H as [H|([] & w1 & H1 & H)]; [done|]. apply log_inv in H1 as ->.
    apply bind_Exit_inv in H as [H|(present & w1 & H1 & H)]; [done|].
    apply existsSync_inv in H1 as [-> ->].
    apply bind_Exit_inv in H as [H|([] & w1 & H1 & H)].
    { case_bool_decide; [|done]. rewrite error_eq in H. injection H as <-. cbn [console] in Hl.
      rewrite last_snoc in Hl. by apply wrong_line in Hl. }
    apply if_error_inv in H1 as [Hno H1]. apply ret_inv in H1 as [_ ->].
    apply bind_Exit_inv in H as [H|([] & w2 & Hcopy & H)].
    { by apply never_exits_copyDirectoryRecursive in H. }
    apply bind_Exit_inv in H as [H|([] & w3 & H1 & H)]; [done|]. apply log_inv in H1 as ->.
    apply bind_Exit_inv in H as [H|(found & w3 & H1 & H)].
    { unfold Example.getContractName in H.
      apply bind_Exit_inv in H as [H|(? & ? & _ & H)]; [|done].
      by apply never_exits_readFileSync in H. }
    unfold Example.getContractName in H1.
    apply bind_Ret_inv in H1 as (content & w4 & H1 & H4).
    apply readFileSync_inv in H1 as [-> Hcontent]. apply ret_inv in H4 as [<- ->].
    cbn [files console] in *.
    apply bool_decide_eq_true in Hc, Ht. apply bool_decide_eq_false in Hno.
    apply eq_None_not_Some in Hno.
    destruct (ExampleFacts3.registered_inv _ _ Hget) as [-> ->].
    assert (files w !! rootDir = Some Dir) as Hroot.
    { destruct (template_exists _ _ Hwf Hc) as [E|[E _]]; [done|]. by vm_compute in E. }
    match type of Hcopy with _ ?w1 = _ =>
      destruct (TemplateFacts.copy_template_inv rootDir fuel (resolve cwd outputDir) w1 w2)
        as (Hok & Hap & _ & Hcopied); try done
    end.
    cbn [files] in Hok, Hcopied.
    assert (files w !! path_join rootDir (Example.contract ExampleFacts3.auction)
            = Some (File content)) as Hcontent0.
    { destruct Hcopied as (Hout & _). rewrite Hout in Hcontent.
      - rewrite lookup_created in Hcontent by done. destruct Hc as [n Hn].
        by rewrite Hn in Hcontent |- *.
      - intros [r Hr]. destruct Hc as [n Hn]. rewrite Hr, wf_fresh_below in Hn; done. }
    destruct (Example.contractNameOf content) as [contractName|] eqn:Ename.
    - pose proof (ExtractFacts.contractNameOf_nonempty _ _ Ename) as Hne.
      destruct contractName as [|c contractName]; [done|].
      exfalso. revert H.
      assert (never_exits
        (log (nl +:+ "Updating configuration...") Cyan ;;
         Example.updatePackageJson JSON_parse JSON_stringify (resolve cwd outputDir)
           "artifact-auction" (Example.description ExampleFacts3.auction) ;;
         success "Configuration updated" ;;
         log (nl +:+ "Generating documentation...") Cyan ;;
         FS.writeFileSync (resolve cwd outputDir ++ ["README.md"])
           (Example.generateReadme "artifact-auction"
              (Example.description ExampleFacts3.auction) (String c contractName)) ;;
         success "Documentation generated" ;;
         log (nl +:+ repeat_str "=" 60) Green ;;
         success ("Example created: " +:+ "artifact-auction") ;;
         log (repeat_str "=" 60) Green ;;
         log (nl +:+ "Next steps:") Yellow ;;
         log ("  cd " +:+ relative cwd (resolve cwd outputDir)) Reset ;;
         log "  npm install" Reset ;;
         log "  npm run compile" Reset ;;
         log "  npm run test" Reset)) as Hnever.
      { unfold Example.updatePackageJson. never_exits. }
      apply Hnever.
    - rewrite error_eq in H. injection H as <-. cbn [files console] in *.
      exists content. split_and!; done.
  Qed.
End Facts.
End ExampleFacts4.

(** ** What a pattern matches *)

Module PatternFacts.
  Import Regex RegexFacts.

  (** The state after the character [c] of the input, with [t] left. *)
Definition consume (c : ascii) (t : string) (st : mstate) : mstate :=
    MState (Some c) t (S (pos st)) (caps st).

  (** The state [st'], with the text read since [st] as group [n]. *)
Definition capture (n : nat) (st st' : mstate) : mstate :=
    MState (prev st') (rest st') (pos st')
      ((n, substring 0 (pos st' - pos st) (rest st)) :: caps st').

  (** [matches multiline r st st']: the regular expression [r] matches
      the input between the states [st] and [st'].  This is the
      meaning of a regular expression; the lemmas [run_sound] and
      [run_complete] relate the backtracking matcher to it. *)
Inductive matches (multiline : bool) : regex -> mstate -> mstate -> Prop :=
  | matches_Eps st : matches multiline Eps st st
  | matches_Chr c t st :
      rest st = String c t -> matches multiline (Chr c) st (consume c t st)
  | matches_Class p c t st :
      rest st = String c t -> p c = true ->
      matches multiline (Class p) st (consume c t st)
  | matches_Seq r1 r2 st st1 st2 :
      matches multiline r1 st st1 -> matches multiline r2 st1 st2 ->
      matches multiline (Seq r1 r2) st st2
  | matches_Alt_l r1 r2 st st' :
      matches multiline r1 st st' -> matches multiline (Alt r1 r2) st st'
  | matches_Alt_r r1 r2 st st' :
      matches multiline r2 st st' -> matches multiline (Alt r1 r2) st st'
  | matches_Star_stop greedy r st : matches multiline (Star greedy r) st st
  | matches_Star_more greedy r st st1 st2 :
      matches multiline r st st1 -> pos st1 <> pos st ->
      matches multiline (Star greedy r) st1 st2 ->
      matches multiline (Star greedy r) st st2
  | matches_Group n r st st' :
      matches multiline r st st' -> matches multiline (Group n r) st (capture n st st')
  | matches_Bol st : at_bol multiline st = true -> matches multiline Bol st st
  | matches_Eol st : at_eol multiline st = true -> matches multiline Eol st st.

Lemma matches_later multiline r st st' : matches multiline r st st' -> later st st'.
  Proof.
    induction 1; try apply later_refl; try (by eapply later_trans); try done.
    - unfold later. simpl. rewrite H. simpl. lia.
    - unfold later. simpl. rewrite H. simpl. lia.
  Qed.

  (** *** The matcher finds only matches *)

Lemma step_sound p k st res :
    step p k st = Some res ->
    exists c t, rest st = String c t /\ p c = true /\ k (consume c t st) = Some res.
  Proof.
    unfold step. destruct (rest st) as [|c t]; [done|].
    destruct (p c) eqn:E; [|done]. intros H. by exists c, t.
  Qed.

Lemma star_sound multiline greedy r fuel :
    (forall k st res,
        run multiline r k st = Some res ->
        exists st', matches multiline r st st' /\ k st' = Some res) ->
    forall k st res,
      star greedy (run multiline r) fuel k st = Some res ->
      exists st', matches multiline (Star greedy r) st st' /\ k st' = Some res.
  Proof.
    intros Hbody. induction fuel as [|fuel IH]; intros k st res H; simpl in H.
    - exists st. split; [constructor|done].
    - assert (k st = Some res \/
              run multiline r (fun st' => if pos st' =? pos st then None
                                          else star greedy (run multiline r) fuel k st') st
              = Some res) as [Hk|Hb].
      { destruct greedy; apply orelse_Some in H; tauto. }
      + exists st. split; [constructor|done].
      + apply Hbody in Hb as (st1 & Hm & H1).
        destruct (pos st1 =? pos st) eqn:E; [done|].
        apply IH in H1 as (st2 & Hm2 & H2). exists st2. split; [|done].
        eapply matches_Star_more; [exact Hm|by apply Nat.eqb_neq|exact Hm2].
  Qed.

Lemma run_sound multiline r :
    forall k st res,
      run multiline r k st = Some res ->
      exists st', matches multiline r st st' /\ k st' = Some res.
  Proof.
    induction r as [|c|p|r1 IH1 r2 IH2|r1 IH1 r2 IH2|g r1 IH1|n r1 IH1| |];
      intros k st res H; cbn [run] in H.
    - exists st. split; [constructor|done].
    - apply step_sound in H as (d & t & Hr & Hp & Hk).
      apply Ascii.eqb_eq in Hp as <-. eexists. split; [by apply matches_Chr|done].
    - apply step_sound in H as (d & t & Hr & Hp & Hk).
      eexists. split; [by apply matches_Class|done].
    - apply IH1 in H as (st1 & Hm1 & H1). apply IH2 in H1 as (st2 & Hm2 & H2).
      exists st2. split; [by eapply matches_Seq|done].
    - apply orelse_Some in H as [H|H].
      + apply IH1 in H as (st1 & Hm1 & H1). exists st1. split; [by apply matches_Alt_l|done].
      + apply IH2 in H as (st1 & Hm1 & H1). exists st1. split; [by apply matches_Alt_r|done].
    - by eapply star_sound.
    - apply IH1 in H as (st1 & Hm1 & H1). exists (capture n st st1).
      split; [by apply matches_Group|done].
    - destruct (at_bol multiline st) eqn:E; [|done].
      exists st. split; [by apply matches_Bol|done].
    - destruct (at_eol multiline st) eqn:E; [|done].
      exists st. split; [by apply matches_Eol|done].
  Qed.

  (** *** The matcher finds a match wherever there is one *)

  (** A repetition is run with enough fuel for the input that is left,
      so its property is stated for every such fuel. *)
Definition reaches (multiline : bool) (r : regex) (k : mstate -> option mstate)
      (st : mstate) : Prop :=
    match r with
    | Star greedy r1 =>
        forall fuel, String.length (rest st) < fuel ->
                     is_Some (star greedy (run multiline r1) fuel k st)
    | _ => is_Some (run multiline r k st)
    end.

Lemma reaches_run multiline r k st :
    reaches multiline r k st -> is_Some (run multiline r k st).
  Proof. destruct r; try done. intros H. cbn [run]. apply H. lia. Qed.

Lemma orelse_is_Some_l {A} (x y : option A) : is_Some x -> is_Some (orelse x y).
  Proof. by intros [? ->]. Qed.

Lemma orelse_is_Some_r {A} (x y : option A) : is_Some y -> is_Some (orelse x y).
  Proof. destruct x; simpl; eauto. Qed.

Lemma run_complete multiline r st st' :
    matches multiline r st st' ->
    forall k, is_Some (k st') -> reaches multiline r k st.
  Proof.
    induction 1; intros k Hk; cbn [reaches run].
    - done.
    - unfold step. rewrite H. by rewrite Ascii.eqb_refl.
    - unfold step. rewrite H. by rewrite H0.
    - by apply reaches_run, IHmatches1, reaches_run, IHmatches2.
    - by apply orelse_is_Some_l, reaches_run, IHmatches.
    - by apply orelse_is_Some_r, reaches_run, IHmatches.
    - intros [|fuel] Hf; [lia|]. simpl.
      destruct greedy; [by apply orelse_is_Some_r|by apply orelse_is_Some_l].
    - intros [|fuel] Hf; [lia|]. simpl.
      assert (is_Some (run multiline r
                         (fun st' => if pos st' =? pos st then None
                                     else star greedy (run multiline r) fuel k st') st))
        as Hagain.
      { apply reaches_run, IHmatches1.
        destruct (pos st1 =? pos st) eqn:E; [by apply Nat.eqb_eq in E|].
        apply (IHmatches2 k Hk). apply matches_later in H as [? ?]. lia. }
      destruct greedy; [by apply orelse_is_Some_l|by apply orelse_is_Some_r].
    - apply reaches_run, IHmatches. exact Hk.
    - by rewrite H.
    - by rewrite H.
  Qed.

  (** *** Texts *)

Lemma app_cons_string c a b : String c a +:+ b = String c (a +:+ b).
  Proof. reflexivity. Qed.

Lemma app_string_assoc a b c : (a +:+ b) +:+ c = a +:+ (b +:+ c).
  Proof. induction a as [|x a IH]; [done|]. rewrite !app_cons_string. by rewrite IH. Qed.

Lemma length_app_string a b :
    String.length (a +:+ b) = String.length a + String.length b.
  Proof. induction a as [|x a IH]; [done|]. rewrite app_cons_string. simpl. by rewrite IH. Qed.

Lemma app_string_inj a x y : a +:+ x = a +:+ y -> x = y.
  Proof.
    induction a as [|c a IH]; [done|]. rewrite !app_cons_string. intros [= H]. auto.
  Qed.

Lemma substring_app_string a b : substring 0 (String.length a) (a +:+ b) = a.
  Proof.
    induction a as [|c a IH]; [by destruct b|]. rewrite app_cons_string. simpl. by rewrite IH.
  Qed.

  (** The character before the position that follows [s]. *)
Fixpoint last_of (s : string) (p : option ascii) : option ascii :=
    match s with
    | EmptyString => p
    | String c t => last_of t (Some c)
    end.

Lemma last_of_app a b p : last_of (a +:+ b) p = last_of b (last_of a p).
  Proof.
    revert p. induction a as [|c a IH]; intros p; [done|].
    rewrite app_cons_string. simpl. apply IH.
  Qed.

  (** Every character of [s] is in the class [p]. *)
Fixpoint every (p : ascii -> bool) (s : string) : bool :=
    match s with
    | EmptyString => true
    | String c t => p c && every p t
    end.

  (** [s] does not go on with a character of the class [p]. *)
Definition stops (p : ascii -> bool) (s : string) : Prop :=
    match s with
    | EmptyString => True
    | String c _ => p c = false
    end.

  (** A run of characters of a class that stops is determined by the
      text it is read from. *)
Lemma every_unique p a b a' b' :
    every p a = true -> every p a' = true -> stops p b -> stops p b' ->
    a +:+ b = a' +:+ b' -> a = a' /\ b = b'.
  Proof.
    revert a'. induction a as [|c a IH]; intros [|c' a'] Ha Ha' Hb Hb' E.
    - done.
    - change ("" +:+ b) with b in E. rewrite app_cons_string in E. subst b.
      simpl in Ha', Hb. apply andb_true_iff in Ha' as [? ?]. congruence.
    - change ("" +:+ b') with b' in E. rewrite app_cons_string in E. subst b'.
      simpl in Ha, Hb'. apply andb_true_iff in Ha as [? ?]. congruence.
    - rewrite !app_cons_string in E. injection E as -> E.
      simpl in Ha, Ha'. apply andb_true_iff in Ha as [? Ha].
      apply andb_true_iff in Ha' as [? Ha'].
      destruct (IH a' Ha Ha' Hb Hb' E) as [-> ->]. done.
  Qed.

  (** [st'] is the state [st] after reading [text]. *)
Definition reads (text : string) (st st' : mstate) : Prop :=
    rest st = text +:+ rest st' /\ pos st' = pos st + String.length text /\
    prev st' = last_of text (prev st) /\ caps st' = caps st.

Lemma reads_nil st : reads "" st st.
  Proof. unfold reads. simpl. repeat split. lia. Qed.

Lemma reads_nil_inv st st' : reads "" st st' -> st' = st.
  Proof.
    destruct st, st'. unfold reads. simpl. intros (-> & -> & -> & ->).
    f_equal. lia.
  Qed.

Lemma reads_consume c t st : rest st = String c t -> reads (String c "") st (consume c t st).
  Proof. intros H. unfold reads. simpl. rewrite H. repeat split. lia. Qed.

Lemma reads_trans a b st st1 st2 :
    reads a st st1 -> reads b st1 st2 -> reads (a +:+ b) st st2.
  Proof.
    intros (Hr1 & Hp1 & Hv1 & Hc1) (Hr2 & Hp2 & Hv2 & Hc2). unfold reads.
    rewrite app_string_assoc, <-Hr2, <-Hr1, length_app_string, last_of_app, <-Hv1.
    repeat split; [lia|done|congruence].
  Qed.

  (** Reading a text goes through the state after its first character. *)
Lemma reads_cons_inv c t st st' :
    reads (String c t) st st' ->
    rest st = String c (t +:+ rest st') /\ reads t (consume c (t +:+ rest st') st) st'.
  Proof.
    intros (Hr & Hp & Hv & Hc). rewrite app_cons_string in Hr. split; [done|].
    unfold reads. simpl in *. repeat split; [lia|done|done].
  Qed.

Lemma reads_exists text t st :
    rest st = text +:+ t -> exists st', reads text st st' /\ rest st' = t.
  Proof.
    intros H.
    exists (MState (last_of text (prev st)) t (pos st + String.length text) (caps st)).
    by unfold reads.
  Qed.

  (** *** What the parts of a pattern read *)

Lemma matches_Seq_inv multiline r1 r2 st st' :
    matches multiline (Seq r1 r2) st st' ->
    exists st1, matches multiline r1 st st1 /\ matches multiline r2 st1 st'.
  Proof. inversion 1; subst. eauto. Qed.

Lemma matches_Chr_reads multiline c st st' :
    matches multiline (Chr c) st st' -> reads (String c "") st st'.
  Proof. inversion 1; subst. by apply reads_consume. Qed.

Lemma matches_Class_reads multiline p st st' :
    matches multiline (Class p) st st' ->
    exists c, p c = true /\ reads (String c "") st st'.
  Proof. inversion 1; subst. eexists. split; [done|]. by apply reads_consume. Qed.

Lemma matches_lit_reads multiline s :
    forall st st', matches multiline (lit s) st st' -> reads s st st'.
  Proof.
    induction s as [|c s IH]; intros st st' H.
    - inversion H; subst. apply reads_nil.
    - destruct s as [|d t].
      + by apply matches_Chr_reads in H.
      + cbn [lit] in H. apply matches_Seq_inv in H as (st1 & H1 & H2).
        apply matches_Chr_reads in H1. apply IH in H2.
        apply (reads_trans (String c "") _ _ _ _ H1 H2).
  Qed.

Lemma matches_Star_Class_reads multiline greedy p st st' :
    matches multiline (Star greedy (Class p)) st st' ->
    exists text, every p text = true /\ reads text st st'.
  Proof.
    remember (Star greedy (Class p)) as r eqn:Er. intros H.
    induction H; try discriminate.
    - exists "". split; [done|apply reads_nil].
    - injection Er as -> ->.
      apply matches_Class_reads in H as (c & Hc & H).
      destruct (IHmatches2 eq_refl) as (text & Hall & Hreads).
      exists (String c text). split; [by simpl; rewrite Hc|].
      apply (reads_trans (String c "") _ _ _ _ H Hreads).
  Qed.

Lemma matches_Plus_Class_reads multiline p st st' :
    matches multiline (Plus (Class p)) st st' ->
    exists text, text <> "" /\ every p text = true /\ reads text st st'.
  Proof.
    unfold Plus. intros H. apply matches_Seq_inv in H as (st1 & H1 & H2).
    apply matches_Class_reads in H1 as (c & Hc & H1).
    apply matches_Star_Class_reads in H2 as (text & Hall & H2).
    exists (String c text). split; [done|]. split; [by simpl; rewrite Hc|].
    apply (reads_trans (String c "") _ _ _ _ H1 H2).
  Qed.

Lemma reads_matches_lit multiline s :
    forall st st', reads s st st' -> matches multiline (lit s) st st'.
  Proof.
    induction s as [|c s IH]; intros st st' H.
    - apply reads_nil_inv in H as ->. constructor.
    - apply reads_cons_inv in H as [Hr H]. destruct s as [|d t].
      + apply reads_nil_inv in H as ->. by apply matches_Chr.
      + cbn [lit]. eapply matches_Seq; [by apply matches_Chr|by apply IH].
  Qed.

Lemma reads_matches_Star_Class multiline greedy p text :
    forall st st',
      every p text = true -> reads text st st' ->
      matches multiline (Star greedy (Class p)) st st'.
  Proof.
    induction text as [|c text IH]; intros st st' Hall H.
    - apply reads_nil_inv in H as ->. constructor.
    - apply reads_cons_inv in H as [Hr H]. simpl in Hall.
      apply andb_true_iff in Hall as [Hc Hall].
      eapply matches_Star_more; [by apply matches_Class| |by apply IH].
      simpl. lia.
  Qed.

Lemma reads_matches_Plus_Class multiline p text st st' :
    text <> "" -> every p text = true -> reads text st st' ->
    matches multiline (Plus (Class p)) st st'.
  Proof.
    destruct text as [|c text]; [done|]. intros _ Hall H.
    apply reads_cons_inv in H as [Hr H]. simpl in Hall.
    apply andb_true_iff in Hall as [Hc Hall].
    eapply matches_Seq; [by apply matches_Class|by eapply reads_matches_Star_Class].
  Qed.

  (** *** The first match in a text *)

Lemma match_here_sound multiline r st m :
    match_here multiline r st = Some m ->
    exists st', matches multiline r st st' /\ groups m = caps st'.
  Proof.
    unfold match_here. destruct (run multiline r Some st) as [st1|] eqn:E; [|done].
    intros [= <-]. apply run_sound in E as (st' & Hm & [= ->]). by exists st1.
  Qed.

Lemma match_here_complete multiline r st st' :
    matches multiline r st st' -> is_Some (match_here multiline r st).
  Proof.
    intros H. unfold match_here.
    destruct (reaches_run _ _ _ _ (run_complete _ _ _ _ H Some (mk_is_Some _ _ eq_refl)))
      as [st1 ->].
    eauto.
  Qed.

  (** The state of an attempt that starts after [before]. *)
Definition start (p : option ascii) (before after : string) (i : nat) : mstate :=
    MState (last_of before p) after (i + String.length before) [].

  (** [search] returns the match at the first position that has one. *)
Lemma search_sound multiline r s :
    forall p i m,
      search multiline r p s i = Some m ->
      exists before after st',
        s = before +:+ after /\
        matches multiline r (start p before after i) st' /\ groups m = caps st' /\
        forall before' after' st'',
          s = before' +:+ after' ->
          matches multiline r (start p before' after' i) st'' ->
          String.length before <= String.length before'.
  Proof.
    induction s as [|c s IH]; intros p i m H; simpl in H.
    - destruct (match_here multiline r (MState p "" i [])) as [m'|] eqn:E; [|done].
      injection H as ->. apply match_here_sound in E as (st' & Hm & Hg).
      exists "", "", st'. unfold start. simpl. rewrite Nat.add_0_r.
      repeat split; [done|done|]. intros. lia.
    - destruct (match_here multiline r (MState p (String c s) i [])) as [m'|] eqn:E.
      + injection H as ->. apply match_here_sound in E as (st' & Hm & Hg).
        exists "", (String c s), st'. unfold start. simpl. rewrite Nat.add_0_r.
        repeat split; [done|done|]. intros. lia.
      + apply IH in H as (before & after & st' & -> & Hm & Hg & Hfirst).
        exists (String c before), after, st'. unfold start in *. simpl.
        rewrite <-Nat.add_succ_comm. repeat split; [done|done|].
        intros [|c' before'] after' st'' Hs Hm'.
        * change ("" +:+ after') with after' in Hs. subst after'. simpl in Hm'.
          rewrite Nat.add_0_r in Hm'. apply match_here_complete in Hm' as [? Hm'].
          congruence.
        * rewrite !app_cons_string in Hs. injection Hs as <- Hs. simpl in Hm'.
          rewrite <-Nat.add_succ_comm in Hm'.
          specialize (Hfirst before' after' st'' Hs Hm'). simpl. lia.
  Qed.

Lemma search_complete multiline r before :
    forall after p i st',
      matches multiline r (start p before after i) st' ->
      is_Some (search multiline r p (before +:+ after) i).
  Proof.
    induction before as [|c before IH]; intros after p i st' H.
    - unfold start in H. simpl in H. rewrite Nat.add_0_r in H.
      apply match_here_complete in H as [m Hm].
      change ("" +:+ after) with after. destruct after; simpl; rewrite Hm; eauto.
    - rewrite app_cons_string. simpl.
      destruct (match_here multiline r (MState p (String c (before +:+ after)) i []));
        [eauto|].
      apply (IH after (Some c) (S i) st'). unfold start in *. simpl in H.
      by rewrite Nat.add_succ_comm.
  Qed.

Lemma match_first_sound multiline r s m :
    match_first multiline r s = Some m ->
    exists before after st',
      s = before +:+ after /\
      matches multiline r (start None before after 0) st' /\ groups m = caps st' /\
      forall before' after' st'',
        s = before' +:+ after' ->
        matches multiline r (start None before' after' 0) st'' ->
        String.length before <= String.length before'.
  Proof. apply search_sound. Qed.

Lemma match_first_complete multiline r before after st' :
    matches multiline r (start None before after 0) st' ->
    is_Some (match_first multiline r (before +:+ after)).
  Proof. apply search_complete. Qed.

End PatternFacts.

(** ** The pattern of [getContractName] *)

Module DeclarationFacts.
  Import Regex RegexFacts PatternFacts.

  (** The position after [before] is the start of a line. *)
Definition line_start (before : string) : bool :=
    match last_of before None with
    | None => true
    | Some c => is_line_terminator c
    end.

  (** What has to follow the name: blanks, [is] and blanks, or a brace
      after blanks or none. *)
Definition follows (after : string) : Prop :=
    (exists gap1 gap2 tail,
        after = gap1 +:+ "is" +:+ gap2 +:+ tail /\
        gap1 <> "" /\ every is_space gap1 = true /\
        gap2 <> "" /\ every is_space gap2 = true) \/
    (exists gap tail, after = gap +:+ "{" +:+ tail /\ every is_space gap = true).

  (** [content] has, after [before], a contract declaration with the
      name [name]: at the start of a line and after blanks or none the
      word [contract], blanks, the name, a run of letters, digits and
      underscores, and then [is] or the brace. *)
Definition declaration (content before name : string) : Prop :=
    exists blanks gap after,
      content = before +:+ blanks +:+ "contract" +:+ gap +:+ name +:+ after /\
      line_start before = true /\ every is_space blanks = true /\
      gap <> "" /\ every is_space gap = true /\
      name <> "" /\ every is_word name = true /\ follows after.

  (** [name] is the name of the first contract declaration of [content]. *)
Definition first_declaration (content name : string) : Prop :=
    exists before,
      declaration content before name /\
      forall before' name',
        declaration content before' name' -> String.length before <= String.length before'.

Lemma at_bol_start before after i :
    at_bol true (start None before after i) = line_start before.
  Proof. unfold at_bol, start, line_start. simpl. by destruct (last_of before None). Qed.

  (** A match of the pattern is a declaration. *)
Lemma contractRegex_sound st st' :
    matches true Example.contractRegex st st' ->
    at_bol true st = true /\
    exists blanks gap name after,
      rest st = blanks +:+ "contract" +:+ gap +:+ name +:+ after /\
      every is_space blanks = true /\ gap <> "" /\ every is_space gap = true /\
      name <> "" /\ every is_word name = true /\ follows after /\
      caps st' = (1, name) :: caps st.
  Proof.
    unfold Example.contractRegex. cbn [seqs]. intros H.
    apply matches_Seq_inv in H as (st0 & Hbol & H). inversion Hbol; subst. split; [done|].
    apply matches_Seq_inv in H as (st1 & Hblanks & H).
    apply matches_Star_Class_reads in Hblanks as (blanks & Hblanks & R1).
    apply matches_Seq_inv in H as (st2 & Hword & H).
    apply (matches_lit_reads true "contract") in Hword as R2.
    apply matches_Seq_inv in H as (st3 & Hgap & H).
    apply matches_Plus_Class_reads in Hgap as (gap & Hgap0 & Hgap & R3).
    apply matches_Seq_inv in H as (st4 & Hname & H).
    inversion Hname as [| | | | | | | |n r sta st5 Hname' | |]; subst. clear Hname.
    apply matches_Plus_Class_reads in Hname' as (name & Hname0 & Hname & R4).
    assert (substring 0 (pos st5 - pos st3) (rest st3) = name) as Hsub.
    { destruct R4 as (-> & -> & _). replace (_ + _ - _) with (String.length name) by lia.
      apply substring_app_string. }
    pose proof (reads_trans _ _ _ _ _ R1 (reads_trans _ _ _ _ _ R2 (reads_trans _ _ _ _ _ R3 R4)))
      as (Hrest & _ & _ & Hcaps).
    exists blanks, gap, name, (rest st5). rewrite !app_string_assoc in Hrest.
    split; [exact Hrest|]. do 5 (split; [done|]).
    assert (forall st6 text, reads text (capture 1 st3 st5) st6 ->
                             rest st5 = text +:+ rest st6 /\
                             caps st6 = (1, name) :: caps st0) as Hend.
    { intros st6 text (Hr & _ & _ & Hc). simpl in Hr, Hc. rewrite Hsub in Hc.
      split; [done|]. congruence. }
    inversion H as [| | |  |r1 r2 sta stb Hl|r1 r2 sta stb Hr| | | | |]; subst.
    - cbn [seqs] in Hl.
      apply matches_Seq_inv in Hl as (st6 & Hg1 & Hl).
      apply matches_Plus_Class_reads in Hg1 as (gap1 & Hg10 & Hg1 & R5).
      apply matches_Seq_inv in Hl as (st7 & His & Hg2).
      apply (matches_lit_reads true "is") in His as R6.
      apply matches_Plus_Class_reads in Hg2 as (gap2 & Hg20 & Hg2 & R7).
      pose proof (reads_trans _ _ _ _ _ R5 (reads_trans _ _ _ _ _ R6 R7)) as R.
      apply Hend in R as [Hr Hc]. split; [|done].
      left. exists gap1, gap2, (rest st'). by rewrite !app_string_assoc in Hr.
    - cbn [seqs] in Hr.
      apply matches_Seq_inv in Hr as (st6 & Hg & Hbrace).
      apply matches_Star_Class_reads in Hg as (gap1 & Hg1 & R5).
      apply matches_Chr_reads in Hbrace as R6.
      pose proof (reads_trans _ _ _ _ _ R5 R6) as R.
      apply Hend in R as [Hr Hc]. split; [|done].
      right. exists gap1, (rest st'). by rewrite !app_string_assoc in Hr.
  Qed.

  (** The pattern matches every declaration. *)
Lemma contractRegex_complete st blanks gap name after :
    at_bol true st = true ->
    rest st = blanks +:+ "contract" +:+ gap +:+ name +:+ after ->
    every is_space blanks = true -> gap <> "" -> every is_space gap = true ->
    name <> "" -> every is_word name = true -> follows after ->
    exists st', matches true Example.contractRegex st st'.
  Proof.
    intros Hbol Hrest Hblanks Hgap0 Hgap Hname0 Hname Hafter.
    destruct (reads_exists _ _ _ Hrest) as (st1 & R1 & E1).
    destruct (reads_exists _ _ _ E1) as (st2 & R2 & E2).
    destruct (reads_exists _ _ _ E2) as (st3 & R3 & E3).
    destruct (reads_exists _ _ _ E3) as (st4 & R4 & E4).
    assert (exists st', matches true
              (Alt (seqs [Plus ws; lit "is"; Plus ws]) (seqs [Star true ws; Chr "{"]))
              (capture 1 st3 st4) st') as [st' Hend].
    { cbn [seqs]. destruct Hafter as [(gap1 & gap2 & tail & -> & ? & ? & ? & ?)|
                                      (gap1 & tail & -> & ?)].
      - assert (rest (capture 1 st3 st4) = gap1 +:+ "is" +:+ gap2 +:+ tail) as E5 by done.
        destruct (reads_exists _ _ _ E5) as (st5 & R5 & E6).
        destruct (reads_exists _ _ _ E6) as (st6 & R6 & E7).
        destruct (reads_exists _ _ _ E7) as (st7 & R7 & E8).
        exists st7. apply matches_Alt_l.
        apply (matches_Seq _ _ _ _ st5); [by apply (reads_matches_Plus_Class _ _ gap1)|].
        apply (matches_Seq _ _ _ _ st6); [by apply (reads_matches_lit _ "is")|].
        by apply (reads_matches_Plus_Class _ _ gap2).
      - assert (rest (capture 1 st3 st4) = gap1 +:+ "{" +:+ tail) as E5 by done.
        destruct (reads_exists _ _ _ E5) as (st5 & R5 & E6).
        destruct (reads_exists _ _ _ E6) as (st6 & R6 & E7).
        exists st6. apply matches_Alt_r.
        apply (matches_Seq _ _ _ _ st5); [by apply (reads_matches_Star_Class _ _ _ gap1)|].
        apply (reads_matches_lit true "{"). exact R6. }
    exists st'. unfold Example.contractRegex. cbn [seqs].
    apply (matches_Seq _ _ _ _ st); [by apply matches_Bol|].
    apply (matches_Seq _ _ _ _ st1); [by apply (reads_matches_Star_Class _ _ _ blanks)|].
    apply (matches_Seq _ _ _ _ st2); [by apply (reads_matches_lit _ "contract")|].
    apply (matches_Seq _ _ _ _ st3); [by apply (reads_matches_Plus_Class _ _ gap)|].
    apply (matches_Seq _ _ _ _ (capture 1 st3 st4)); [|exact Hend].
    apply matches_Group. by apply (reads_matches_Plus_Class _ _ name).
  Qed.

Lemma declaration_matches content before name :
    declaration content before name ->
    exists after st',
      content = before +:+ after /\
      matches true Example.contractRegex (start None before after 0) st'.
  Proof.
    intros (blanks & gap & after & -> & Hline & Hblanks & Hgap0 & Hgap & Hname0 & Hname & Hafter).
    destruct (contractRegex_complete
                (start None before (blanks +:+ "contract" +:+ gap +:+ name +:+ after) 0)
                blanks gap name after) as [st' Hm];
      [by rewrite at_bol_start|done..|].
    eauto.
  Qed.

  (** The name that [getContractName] finds is that of a declaration,
      and no declaration starts before it. *)
Lemma contractNameOf_sound content name :
    Example.contractNameOf content = Some name -> first_declaration content name.
  Proof.
    unfold Example.contractNameOf.
    destruct (match_first true Example.contractRegex content) as [m|] eqn:E; [|done].
    apply match_first_sound in E as (before & after & st' & -> & Hm & Hg & Hfirst).
    apply contractRegex_sound in Hm
        as (Hbol & blanks & gap & name' & after' & Hrest & ? & ? & ? & ? & ? & ? & Hcaps).
    unfold group. rewrite Hg, Hcaps. simpl. intros [= <-].
    rewrite at_bol_start in Hbol. simpl in Hrest. subst after.
    exists before. split; [by exists blanks, gap, after'|].
    intros before' name0 Hd. apply declaration_matches in Hd as (after0 & st0 & E0 & Hm0).
    by eapply Hfirst.
  Qed.

  (** [getContractName] finds a name in every text with a declaration. *)
Lemma contractNameOf_complete content before name :
    declaration content before name -> is_Some (Example.contractNameOf content).
  Proof.
    intros Hd. apply declaration_matches in Hd as (after & st' & -> & Hm).
    apply match_first_complete in Hm as [m Hm].
    pose proof Hm as Hs. apply match_first_sound in Hs as (b & a & st0 & _ & Hm0 & Hg & _).
    apply contractRegex_sound in Hm0 as (_ & _ & _ & name' & _ & _ & _ & _ & _ & _ & _ & _ & Hcaps).
    unfold Example.contractNameOf. rewrite Hm. unfold group. rewrite Hg, Hcaps. simpl. eauto.
  Qed.

Lemma contractNameOf_None content :
    Example.contractNameOf content = None <->
    forall before name, ~ declaration content before name.
  Proof.
    split.
    - intros E before name Hd. apply contractNameOf_complete in Hd as [? Hd]. congruence.
    - intros H. destruct (Example.contractNameOf content) as [name|] eqn:E; [|done].
      apply contractNameOf_sound in E as (before & Hd & _). by apply H in Hd.
  Qed.

  (** *** The name of a declaration is determined by its place *)

Lemma word_not_space c : is_word c = true -> is_space c = false.
  Proof. destruct c as [[] [] [] [] [] [] [] []]; by vm_compute. Qed.

Lemma space_not_word c : is_space c = true -> is_word c = false.
  Proof.
    intros H. destruct (is_word c) eqn:E; [|done]. apply word_not_space in E. congruence.
  Qed.

Lemma stops_app p q text tail :
    (forall c, p c = true -> q c = false) ->
    text <> "" -> every p text = true -> stops q (text +:+ tail).
  Proof.
    intros Hpq Hne Hall. destruct text as [|c text]; [done|].
    rewrite app_cons_string. simpl in *. apply andb_true_iff in Hall as [Hc _]. auto.
  Qed.

Lemma follows_stops after : follows after -> stops is_word after.
  Proof.
    intros [(gap1 & gap2 & tail & -> & Hne & Hall & _)|(gap & tail & -> & Hall)].
    - by apply (stops_app is_space), Hall; [apply space_not_word|].
    - destruct gap as [|c gap]; [done|].
      by apply (stops_app is_space), Hall; [apply space_not_word|].
  Qed.

Lemma declaration_unique content before name name' :
    declaration content before name -> declaration content before name' -> name = name'.
  Proof.
    intros (blanks & gap & after & -> & _ & Hblanks & Hgap0 & Hgap & Hname0 & Hname & Hafter)
           (blanks' & gap' & after' & E & _ & Hblanks' & Hgap0' & Hgap' & Hname0' & Hname'
            & Hafter').
    apply app_string_inj in E.
    apply (every_unique is_space) in E as [_ E]; [|done|done|done|done].
    apply (app_string_inj "contract") in E.
    apply (every_unique is_space) in E as [_ E]; [|done|done|..].
    - apply (every_unique is_word) in E as [E _]; [done|done|done|..];
        by apply follows_stops.
    - by apply (stops_app is_word), Hname; [apply word_not_space|].
    - by apply (stops_app is_word), Hname'; [apply word_not_space|].
  Qed.

Lemma app_string_length_inj a b a' b' :
    a +:+ b = a' +:+ b' -> String.length a = String.length a' -> a = a'.
  Proof.
    revert a'. induction a as [|c a IH]; intros [|c' a'] E Hl; try done.
    rewrite !app_cons_string in E. injection E as -> E. simpl in Hl.
    f_equal. apply IH; [done|lia].
  Qed.

Lemma declaration_prefix content before name :
    declaration content before name -> exists after, content = before +:+ after.
  Proof. intros (blanks & gap & after & -> & _). eauto. Qed.

Lemma first_declaration_unique content name name' :
    first_declaration content name -> first_declaration content name' -> name = name'.
  Proof.
    intros (before & Hd & Hfirst) (before' & Hd' & Hfirst').
    assert (before = before') as <-.
    { destruct (declaration_prefix _ _ _ Hd) as [after E].
      destruct (declaration_prefix _ _ _ Hd') as [after' E'].
      apply (app_string_length_inj before after before' after'); [congruence|].
      apply Nat.le_antisymm; eauto. }
    by eapply declaration_unique.
  Qed.

  (** [getContractName] finds the name of the first declaration. *)
Lemma contractNameOf_first content name :
    Example.contractNameOf content = Some name <-> first_declaration content name.
  Proof.
    split; [apply contractNameOf_sound|].
    intros Hd. destruct Hd as (before & Hd & Hfirst).
    destruct (contractNameOf_complete _ _ _ Hd) as [name' E]. rewrite E. f_equal.
    apply (first_declaration_unique content); [by apply contractNameOf_sound|].
    by exists before.
  Qed.

End DeclarationFacts.

(** ** Runs of the project generator past the copy *)

Module ExampleFacts5.
Section Facts.
  Variable JSON_parse : string -> option json.
  Variable JSON_stringify : json -> string.
  Variable rootDir : path.
  Variable cwd : path.

  Abbreviation createExample := (Example.createExample JSON_parse JSON_stringify rootDir cwd).

  (** A run of [updatePackageJson] that returned has read a manifest
      that [JSON.parse] accepts. *)
Lemma updatePackageJson_Ret_inv out exampleName description w a w' :
    Example.updatePackageJson JSON_parse JSON_stringify out exampleName description w
    = Ret a w' ->
    exists text,
      files w !! (out ++ ["package.json"]) = Some (File text) /\
      is_Some (JSON_parse text) /\
      forall p, p <> out ++ ["package.json"] -> files w' !! p = files w !! p.
  Proof.
    unfold Example.updatePackageJson. intros H.
    apply bind_Ret_inv in H as (text & w1 & H1 & H).
    apply readFileSync_inv in H1 as [-> Htext]. exists text. split; [done|].
    destruct (JSON_parse text) as [packageJson|]; [|done]. split; [by eexists|].
    destruct (set_field "name" _ packageJson) as [packageJson1|]; [|done].
    destruct (set_field "description" _ packageJson1) as [packageJson2|]; [|done].
    apply writeFileSync_inv in H as (_ & _ & ->). cbn [files].
    intros p Hp. by rewrite lookup_insert_ne.
  Qed.

  (** A run that returned has read a contract in which the pattern
      found a name, has read the template's manifest, and has written
      the README with that name. *)
Lemma createExample_Ret_readme fuel exampleName outputDir w a w' :
    wf (files w) ->
    createExample fuel exampleName outputDir w = Ret a w' ->
    exists example content contractName text,
      js_get Example.EXAMPLES_MAP exampleName = Own example /\
      files w !! path_join rootDir (Example.contract example) = Some (File content) /\
      Example.contractNameOf content = Some contractName /\
      files w !! (rootDir ++ ["package.json"]) = Some (File text) /\
      is_Some (JSON_parse text) /\
      files w' !! (resolve cwd outputDir ++ ["README.md"])
      = Some (File (Example.generateReadme exampleName (Example.description example)
                      contractName)).
  Proof.
    unfold Example.createExample. intros Hwf H.
    destruct (js_get _ _) as [example| |] eqn:Hget; [|done|done].
    exists example.
    apply bind_Ret_inv in H as (hasContract & w1 & H1 & H). apply existsSync_inv in H1 as [-> ->].
    apply bind_Ret_inv in H as ([] & w1 & H1 & H). apply if_else_error_inv in H1 as [Hc H1].
    apply ret_inv in H1 as [_ ->].
    apply bind_Ret_inv in H as (hasTest & w1 & H1 & H). apply existsSync_inv in H1 as [-> ->].
    apply bind_Ret_inv in H as ([] & w1 & H1 & H). apply if_else_error_inv in H1 as [Ht H1].
    apply ret_inv in H1 as [_ ->].
    apply bind_Ret_inv in H as ([] & w1 & H1 & H). apply log_inv in H1 as ->.
    apply bind_Ret_inv in H as ([] & w1 & H1 & H). apply log_inv in H1 as ->.
    apply bind_Ret_inv in H as (present & w1 & H1 & H). apply existsSync_inv in H1 as [-> ->].
    apply bind_Ret_inv in H as ([] & w1 & H1 & H). apply if_error_inv in H1 as [Hno H1].
    apply ret_inv in H1 as [_ ->].
    apply bind_Ret_inv in H as ([] & w2 & Hcopy & H).
    apply bind_Ret_inv in H as ([] & w3 & H1 & H). apply log_inv in H1 as ->.
    apply bind_Ret_inv in H as (found & w3 & H1 & H).
    unfold Example.getContractName in H1.
    apply bind_Ret_inv in H1 as (content & w4 & H1 & H4).
    apply readFileSync_inv in H1 as [-> Hcontent]. apply ret_inv in H4 as [<- ->].
    cbn [files console] in *.
    apply bool_decide_eq_true in Hc, Ht. apply bool_decide_eq_false in Hno.
    apply eq_None_not_Some in Hno.
    destruct (ExampleFacts3.registered_inv _ _ Hget) as [-> ->].
    assert (files w !! rootDir = Some Dir) as Hroot.
    { destruct (ExampleFacts4.template_exists _ _ _ Hwf Hc) as [E|[E _]]; [done|].
      by vm_compute in E. }
    match type of Hcopy with _ ?w1 = _ =>
      destruct (TemplateFacts.copy_template_inv rootDir fuel (resolve cwd outputDir) w1 w2)
        as (Hok & Hap & _ & Hcopied); try done
    end.
    cbn [files] in Hok, Hcopied.
    assert (files w !! path_join rootDir (Example.contract ExampleFacts3.auction)
            = Some (File content)) as Hcontent0.
    { destruct Hcopied as (Hout & _). rewrite Hout in Hcontent.
      - rewrite lookup_created in Hcontent by done. destruct Hc as [n Hn].
        by rewrite Hn in Hcontent |- *.
      - intros [r Hr]. destruct Hc as [n Hn]. rewrite Hr, wf_fresh_below in Hn; done. }
    exists content.
    destruct (Example.contractNameOf content) as [contractName|] eqn:Ename; [|done].
    pose proof (ExtractFacts.contractNameOf_nonempty _ _ Ename) as Hne.
    destruct contractName as [|c contractName]; [done|].
    exists (String c contractName).
    apply bind_Ret_inv in H as ([] & w5 & H1 & H). apply log_inv in H1 as ->.
    apply bind_Ret_inv in H as ([] & w5 & Hupdate & H).
    apply updatePackageJson_Ret_inv in Hupdate as (text & Htext & Hparse & _).
    cbn [files] in Htext.
    destruct (TemplateFacts.copied_tree rootDir (files w) (resolve cwd outputDir) (files w2)
                Hok Hcopied) as [_ Hfiles].
    apply (Hfiles ["package.json"]) in Htext; [|done].
    exists text. do 5 (split; [done|]).
    apply bind_Ret_inv in H as ([] & w6 & H1 & H). apply log_inv in H1 as ->.
    apply bind_Ret_inv in H as ([] & w6 & H1 & H). apply log_inv in H1 as ->.
    apply bind_Ret_inv in H as ([] & w6 & H1 & H).
    apply writeFileSync_inv in H1 as (_ & _ & ->).
    apply bind_Ret_inv in H as ([] & w7 & H1 & H). apply log_inv in H1 as ->.
    apply bind_Ret_inv in H as ([] & w7 & H1 & H). apply log_inv in H1 as ->.
    apply bind_Ret_inv in H as ([] & w7 & H1 & H). apply log_inv in H1 as ->.
    apply bind_Ret_inv in H as ([] & w7 & H1 & H). apply log_inv in H1 as ->.
    apply bind_Ret_inv in H as ([] & w7 & H1 & H). apply log_inv in H1 as ->.
    apply bind_Ret_inv in H as ([] & w7 & H1 & H). apply log_inv in H1 as ->.
    apply bind_Ret_inv in H as ([] & w7 & H1 & H). apply log_inv in H1 as ->.
    apply bind_Ret_inv in H as ([] & w7 & H1 & H). apply log_inv in H1 as ->.
    apply log_inv in H as ->. cbn [files]. by rewrite lookup_insert_eq.
  Qed.

  (** Without a manifest in the template, the generator throws when it
      comes to the manifest of the copy, after the copy and the check
      of the contract's name. *)
Lemma createExample_without_manifest fuel exampleName outputDir example content
      contractName fs cons :
    let out := resolve cwd outputDir in
    js_get Example.EXAMPLES_MAP exampleName = Own example ->
    wf fs ->
    fs !! path_join rootDir (Example.contract example) = Some (File content) ->
    is_Some (fs !! path_join rootDir (Example.test example)) ->
    fs !! out = None -> mkdir_ok fs out -> CopyFacts2.apart ["scripts"] rootDir out ->
    TemplateFacts.deep_enough fuel fs out ->
    Example.contractNameOf content = Some contractName ->
    fs !! (rootDir ++ ["package.json"]) = None ->
    ~ (rootDir ++ ["package.json"]) `prefix_of` out ->
    exists fs1,
      CopyFacts2.copied ["scripts"] (created fs out) rootDir out fs1 /\
      createExample fuel exampleName outputDir (World fs cons)
      = Throw ENOENT
          (World fs1
             (cons ++ ExampleFacts3.copy_lines exampleName ++
              [line Cyan (nl +:+ "Updating configuration...")])).
  Proof.
    intros out Hget Hwf Hc Ht Hfresh Hok Hap Hdeep Hname Hpkg Hnp.
    destruct (ExampleFacts3.registered_inv _ _ Hget) as [-> ->].
    assert (path_join rootDir (Example.contract ExampleFacts3.auction)
            = rootDir ++ ["contracts"; "ArtifactAuction.sol"]) as Ecp by done.
    assert (fs !! rootDir = Some Dir) as Hroot.
    { rewrite Ecp in Hc. apply (wf_prefix fs (rootDir ++ ["contracts"; "ArtifactAuction.sol"]));
        [done|eauto|by apply prefix_app_r|].
      intros E. apply (f_equal length) in E. rewrite length_app in E. simpl in E. lia. }
    destruct (TemplateFacts.copy_template_Ret rootDir fuel out fs
                (cons ++ [line Blue ("Info: " +:+ "Creating example: " +:+ "artifact-auction");
                          line Cyan (nl +:+ "Copying template...")]))
      as (fs1 & Hcopy & Hcopied & Hwf1); try done.
    exists fs1. split; [done|].
    assert (fs1 !! path_join rootDir (Example.contract ExampleFacts3.auction)
            = Some (File content)) as Hc1.
    { destruct Hcopied as (Hout & _). rewrite Hout.
      - rewrite lookup_created by done. by rewrite Hc.
      - intros [r Hr]. rewrite Hr, wf_fresh_below in Hc; done. }
    unfold Example.createExample. rewrite Hget. fold out.
    erewrite bind_Ret; [|reflexivity]. cbn [files]. rewrite Hc.
    rewrite bool_decide_true by eauto.
    erewrite bind_Ret; [|reflexivity].
    erewrite bind_Ret; [|reflexivity]. cbn [files].
    rewrite bool_decide_true by done.
    erewrite bind_Ret; [|reflexivity].
    erewrite bind_Ret; [|reflexivity].
    erewrite bind_Ret; [|reflexivity].
    erewrite bind_Ret; [|reflexivity]. cbn [files console]. rewrite Hfresh.
    rewrite bool_decide_false by (by intros [? ?]).
    erewrite bind_Ret; [|reflexivity].
    rewrite <-!app_assoc. cbn [app].
    erewrite bind_Ret; [|exact Hcopy].
    erewrite bind_Ret; [|reflexivity]. cbn [files console].
    erewrite bind_Ret.
    2:{ unfold Example.getContractName. erewrite bind_Ret; [|by apply readFileSync_Ret].
        reflexivity. }
    rewrite Hname.
    pose proof (ExtractFacts.contractNameOf_nonempty _ _ Hname) as Hne.
    destruct contractName as [|c contractName]; [done|].
    destruct Hcopied as (Hout & Hdir & Hin).
    assert (fs1 !! (out ++ ["package.json"]) = None) as Hpkg1.
    { rewrite Hin. destruct (CopyFacts2.visible _ _ _ _); [|done].
      rewrite lookup_created by done. rewrite Hpkg. by rewrite decide_False. }
    erewrite bind_Ret; [|reflexivity].
    unfold bind at 1. unfold Example.updatePackageJson.
    unfold bind at 1. unfold FS.readFileSync. cbn [files console]. rewrite Hpkg1.
    unfold ExampleFacts3.copy_lines. f_equal. f_equal. by rewrite <-!app_assoc.
  Qed.
End Facts.
End ExampleFacts5.

(** ** The generators *)

(** Whether a run returned to its caller. *)
Definition returned {A} (r : outcome A) : bool :=
  match r with
  | Ret _ _ => true
  | _ => false
  end.

Lemma returned_false {A} (r : outcome A) :
  (forall a w, r <> Ret a w) -> returned r = false.
Proof. intros H. destruct r as [a w| | |]; [by destruct (H a w)|done..]. Qed.

Lemma mkdir_ok_check fs destination :
  is_Some (FS.ensure_dirs (FS.prefixes destination) fs) -> mkdir_ok fs destination.
Proof.
  intros [fs' E].
  assert (FS.mkdirSync destination (World fs []) = Ret tt (World fs' [])) as H.
  { unfold FS.mkdirSync. cbn [files console]. by rewrite E. }
  by apply mkdirSync_inv in H as (_ & H & _).
Qed.

#[global] Instance undisturbed_dec fs out p : Decision (CategoryFacts2.undisturbed fs out p).
Proof. unfold CategoryFacts2.undisturbed. apply _. Defined.

Section Generators.
  Variable JSON_parse : string -> option json.
  Variable JSON_stringify : json -> string.
  Variable rootDir : path.
  Variable cwd : path.

  Abbreviation createExample := (Example.createExample JSON_parse JSON_stringify rootDir cwd).
  Abbreviation createCategory := (Category.createCategory JSON_parse JSON_stringify rootDir cwd).
  Abbreviation visible := (CopyFacts2.visible ["scripts"]).
  Abbreviation unskipped := (CopyFacts.unskipped ["scripts"]).
  Abbreviation apart := (CopyFacts2.apart ["scripts"]).
  Abbreviation copied := (CopyFacts2.copied ["scripts"]).
  Abbreviation deep_enough := TemplateFacts.deep_enough.
  Abbreviation parse_error_line := ExampleFacts3.parse_error_line.
  Abbreviation declaration := DeclarationFacts.declaration.
  Abbreviation first_declaration := DeclarationFacts.first_declaration.

(** C1, where the code departs from it: the project generator copies
    the whole template directory into the destination.  When the
    destination lies inside the template, reached along names that the
    copy does not pass over (as [./output/artifact-auction] does when
    the generator runs from the template's directory), the copy meets
    the destination among its sources and descends into it again and
    again: whatever the key and however long it runs, the generator
    does not return, so it never reaches the update of the manifest. *)
Theorem createExample_inside_template fuel exampleName outputDir d w :
  wf (files w) -> resolve cwd outputDir = rootDir ++ d -> Forall unskipped d ->
  returned (createExample fuel exampleName outputDir w) = false.
Proof.
  intros Hwf Hout Hun. apply returned_false. intros a w' H.
  apply ExampleFacts4.createExample_Ret_inv in H
    as (example & w1 & w2 & Hget & Hc & Ht & Hfresh & Hw1 & Hcopy).
  destruct d as [|x d].
  - rewrite Hout, app_nil_r in Hfresh.
    destruct (ExampleFacts4.template_exists _ _ _ Hwf Hc) as [E|[_ [n E]]]; congruence.
  - rewrite Hout in Hcopy.
    eapply (CopyFacts.copy_into_itself ["scripts"] (x :: d) ltac:(done) Hun fuel rootDir 0 w1);
      [by rewrite Hw1|simpl; lia|].
    rewrite take_0, !app_nil_r. exact Hcopy.
Qed.

(** C3 as the code has it: at a destination that exists, the category
    generator stops with exit code 1 and the file system as it found
    it, and whenever the category key is known its last line reports
    that the output directory already exists; the project generator,
    for a key that is not a member of the object prototype, stops with
    exit code 1 and the file system as it found it, and its last line
    reports that the directory exists whenever the key is registered
    and its contract and test are in the template (an unknown key or a
    missing source is reported first).  A destination that a completed
    run has made exists, so a second run stops in this way. *)
Theorem generators_stop_at_existing_destination fuel exampleName categoryName outputDir w :
  is_Some (files w !! resolve cwd outputDir)
  \/ (exists fuel0 w0, createExample fuel0 exampleName outputDir w0 = Ret tt w)
  \/ (exists w0, createCategory categoryName outputDir w0 = Ret tt w) ->
  js_get Example.EXAMPLES_MAP exampleName <> Inherited ->
  (exists w',
     createExample fuel exampleName outputDir w = Exit 1 w' /\ files w' = files w /\
     forall example,
       js_get Example.EXAMPLES_MAP exampleName = Own example ->
       is_Some (files w !! path_join rootDir (Example.contract example)) ->
       is_Some (files w !! path_join rootDir (Example.test example)) ->
       last (console w')
       = Some (line Red ("Error: " +:+ "Directory exists: " +:+ outputDir))) /\
  (exists w',
     createCategory categoryName outputDir w = Exit 1 w' /\ files w' = files w /\
     (js_get Category.CATEGORIES categoryName <> Undefined ->
      last (console w')
      = Some (line Red ("Error: " +:+ "Output directory already exists: " +:+ outputDir)))).
Proof.
  intros Hex Hkey.
  assert (is_Some (files w !! resolve cwd outputDir)) as Hd.
  { destruct Hex as [H|[(fuel0 & w0 & H)|(w0 & H)]]; [done| |].
    - eapply ExampleFacts2.createExample_Ret_exists, H.
    - eapply CategoryFacts5.createCategory_Ret_exists, H. }
  split; [|by apply CategoryFacts5.createCategory_exists].
  destruct (ExampleFacts2.createExample_exists_any JSON_parse JSON_stringify rootDir cwd
              fuel exampleName outputDir w Hd) as (w' & [Hrun|Hrun] & Hfiles).
  - exists w'. split; [done|]. split; [done|]. intros example Hget Hc Ht.
    destruct (ExampleFacts2.createExample_exists JSON_parse JSON_stringify rootDir cwd
                fuel exampleName outputDir example w Hget Hc Ht Hd) as (lines & Hrun').
    rewrite Hrun' in Hrun. injection Hrun as <-. cbn [console].
    by rewrite !app_assoc, last_snoc.
  - exfalso. unfold Example.createExample in Hrun.
    destruct (js_get Example.EXAMPLES_MAP exampleName) as [example| |]; [|done|done].
    revert Hrun. cbv beta iota zeta delta [bind FS.existsSync info log ret].
    case_bool_decide; [|by rewrite error_eq].
    case_bool_decide; [|by rewrite error_eq].
    cbn [files]. rewrite (bool_decide_true _ Hd). by rewrite error_eq.
Qed.

(** C4, where the code departs from it: a key that is no entry of the
    registry but a member that every object inherits ([constructor],
    [toString], ...) passes the registry check; the generator then
    fails with a type error on the contract path of a value that has
    none, before it prints anything, and not with the message for an
    unknown example.  It creates no file or directory. *)
Theorem createExample_inherited_key fuel exampleName outputDir w :
  exampleName ∈ object_prototype ->
  createExample fuel exampleName outputDir w = Throw TypeError w.
Proof.
  intros H. apply ExampleFacts.createExample_inherited.
  unfold js_get. cbn [assoc Example.EXAMPLES_MAP].
  destruct (String.eqb_spec "artifact-auction" exampleName) as [<-|_].
  - exfalso. revert H. apply (bool_decide_unpack _). by vm_compute.
  - by rewrite bool_decide_true.
Qed.


(** C8: the check of the contract's name comes after the copy of the
    template.  When the generator stops with the message that it could
    not extract the contract name, the contract it read declares none,
    the destination is a directory, everything that the copy reaches
    in the template is at the same place under the destination, and
    every regular file under the destination is the template's file at
    that place, byte for byte: so the manifest there is the template's,
    with its name and description, and no README was generated. *)
Theorem createExample_parse_error_leaves_copy fuel exampleName outputDir w w' :
  let out := resolve cwd outputDir in
  wf (files w) ->
  createExample fuel exampleName outputDir w = Exit 1 w' ->
  last (console w') = Some parse_error_line ->
  (exists example content,
     js_get Example.EXAMPLES_MAP exampleName = Own example /\
     files w !! path_join rootDir (Example.contract example) = Some (File content) /\
     Example.contractNameOf content = None) /\
  files w !! out = None /\
  files w' !! out = Some Dir /\
  (forall r, r <> [] -> visible (files w) rootDir r = true ->
             files w' !! (out ++ r) = files w !! (rootDir ++ r)) /\
  (forall r c, r <> [] -> files w' !! (out ++ r) = Some (File c) ->
               files w !! (rootDir ++ r) = Some (File c)) /\
  (forall p n, ~ out `prefix_of` p -> files w !! p = Some n -> files w' !! p = Some n).
Proof.
  intros out Hwf Hrun Hl.
  destruct (ExampleFacts4.createExample_parse_error_inv JSON_parse JSON_stringify rootDir cwd
              fuel exampleName outputDir w w' Hwf Hrun Hl)
    as (example & content & Hget & Hc & Hname & Ht & Hfresh & Hok & Hap & Hcopied).
  fold out in Hfresh, Hok, Hap, Hcopied.
  destruct (TemplateFacts.copied_tree rootDir (files w) out (files w') Hok Hcopied)
    as [Htree Hfiles].
  split; [by exists example, content|]. split; [done|].
  split; [apply Hcopied|]. split; [done|]. split; [done|].
  intros p n Hp Hn. destruct Hcopied as (Hout & _). rewrite Hout by done.
  rewrite lookup_created by done. by rewrite Hn.
Qed.

(** C2 as the code has it: for a category key of the registry, at a
    fresh destination, the generator returns and prints no warning;
    for every member of the category it makes the member's directory
    with its [contracts] and [test] directories and writes the
    member's README, whether or not the member's sources exist; and
    the member's contract is copied exactly when it exists in the
    repository, and so is its test. *)
Theorem createCategory_members categoryName outputDir category w :
  let out := resolve cwd outputDir in
  js_get Category.CATEGORIES categoryName = Own category ->
  wf (files w) -> files w !! out = None -> mkdir_ok (files w) out ->
  Forall (CategoryFacts2.undisturbed (files w) out) (CategoryFacts2.sources rootDir category) ->
  (forall text,
     files w !! CategoryFacts2.template_source rootDir "package.json" = Some (File text) ->
     exists fields, JSON_parse text = Some (JObj fields)) ->
  exists w' lines,
    createCategory categoryName outputDir w = Ret tt w' /\
    console w' = console w ++ lines /\ Forall no_warning lines /\
    Forall (CategoryFacts5.member_copied rootDir w w' out) (Category.examples category).
Proof.
  intros out Hget Hwf Hfresh Hok Hsrc Hparse.
  destruct (CategoryFacts5.createCategory_outcome JSON_parse JSON_stringify rootDir cwd
              categoryName outputDir category w Hget Hwf Hfresh Hok Hsrc Hparse)
    as (w' & lines & Hrun & Hcons & Hnw & Hmem & _).
  exists w', lines. split; [exact Hrun|]. split; [exact Hcons|]. split; [exact Hnw|].
  exact Hmem.
Qed.

End Generators.

(** ** The documentation generator *)

Section Documentation.
  Variable JSON_stringify : json -> string.
  Variable cwd : path.

  Abbreviation generateDocumentation := (Docs.generateDocumentation JSON_stringify cwd).
  Abbreviation main := (Docs.main JSON_stringify cwd).

Definition help_lines : list string :=
    [ line Cyan ("Documentation Generator" +:+ nl);
      line Reset ("Usage: npx ts-node scripts/generate-docs.ts [options]" +:+ nl);
      line Yellow "Options:";
      line Reset "  --help, -h     Show this help message";
      line Reset ("  --all          Generate all documentation" +:+ nl) ].


(** C5 as the code has it: when the contract file or the test file
    is absent, the generator returns; it leaves the contract's
    document as it was and prints nothing about it (after the opening
    line it prints the lines that every run prints, which still list
    [docs/artifact-auction.md]); and it writes the API reference, the
    table of contents and the renderer's configuration. *)
Theorem generateDocumentation_without_sources w :
  wf (files w) -> files w !! cwd = Some Dir ->
  (forall c, files w !! DocsFacts.docsDir cwd <> Some (File c)) ->
  files w !! DocsFacts.apiPath cwd <> Some Dir ->
  files w !! DocsFacts.summaryPath cwd <> Some Dir ->
  files w !! DocsFacts.bookPath cwd <> Some Dir ->
  files w !! DocsFacts.contractPath cwd = None \/ files w !! DocsFacts.testPath cwd = None ->
  exists w',
    generateDocumentation w = Ret tt w' /\
    console w' =
      console w ++ [line Cyan "Generating documentation..."] ++ DocsFacts.closing_lines /\
    files w' !! DocsFacts.apiPath cwd = Some (File Docs.apiDoc) /\
    files w' !! DocsFacts.summaryPath cwd = Some (File Docs.generateSummary) /\
    files w' !! DocsFacts.bookPath cwd = Some (File (JSON_stringify Docs.bookConfig)) /\
    files w' !! DocsFacts.contractDocPath cwd = files w !! DocsFacts.contractDocPath cwd.
Proof.
  intros Hwf Hcwd Hdocs Hapi Hsum Hbook Habsent.
  destruct (DocsFacts2.generateDocumentation_skip JSON_stringify cwd w
              Hwf Hcwd Hdocs Hapi Hsum Hbook Habsent) as (fs1 & Hd1 & Hk1 & Hrun).
  eexists. split; [exact Hrun|]. cbn [files console]. split; [done|].
  unfold DocsFacts.rest_files. split; [|split; [|split]].
  - unfold DocsFacts.bookPath, DocsFacts.summaryPath, DocsFacts.apiPath.
    rewrite !lookup_sibling by done. by rewrite lookup_insert_eq.
  - unfold DocsFacts.bookPath, DocsFacts.summaryPath, DocsFacts.apiPath.
    rewrite !lookup_sibling by done. by rewrite lookup_insert_eq.
  - by rewrite lookup_insert_eq.
  - unfold DocsFacts.bookPath, DocsFacts.summaryPath, DocsFacts.apiPath,
      DocsFacts.contractDocPath.
    rewrite !lookup_sibling by done. apply Hk1. unfold DocsFacts.docsDir. path_neq.
Qed.

End Documentation.

(** C10, where the code departs from it: the expression that removes
    the delimiters of a comment removes a closing delimiter only where
    it stands on a line of its own.  A comment written on one line
    before a test group keeps its closing delimiter (and the blank
    after the opening one) in the body that [extractTestDescriptions]
    pairs with the group. *)
Theorem extractTestDescriptions_one_line_comment :
  Docs.testDescriptionsOf
    ("/** Auction tests */" +:+ nl +:+ "describe('Auction', function () {});")
  = Some [ {| Docs.title := "Auction";
              Docs.description := " Auction tests */";
              Docs.context := "Auction" |} ].
Proof. by vm_compute. Qed.

(** ** More on the project generator *)

Section ProjectGenerator.
  Variable JSON_parse : string -> option json.
  Variable JSON_stringify : json -> string.
  Variable rootDir : path.
  Variable cwd : path.

  Abbreviation createExample := (Example.createExample JSON_parse JSON_stringify rootDir cwd).
  Abbreviation updatePackageJson := (Example.updatePackageJson JSON_parse JSON_stringify).
  Abbreviation visible := (CopyFacts2.visible ["scripts"]).
  Abbreviation apart := (CopyFacts2.apart ["scripts"]).
  Abbreviation deep_enough := TemplateFacts.deep_enough.

(** X1: for a registered key, at a fresh destination outside the
    template, with a contract that declares a name and a template
    manifest that is a JSON object, the project generator returns; the
    destination is a directory; its manifest is the template's
    manifest with [name] set to [fhevm-] followed by the key and
    [description] set to the registry's description, every other field
    kept; and everything else that the copy reaches in the template,
    the README apart, is at the same place under the destination. *)
Theorem createExample_generates fuel exampleName outputDir example content contractName
    text fields w :
  let out := resolve cwd outputDir in
  js_get Example.EXAMPLES_MAP exampleName = Own example ->
  wf (files w) ->
  files w !! path_join rootDir (Example.contract example) = Some (File content) ->
  is_Some (files w !! path_join rootDir (Example.test example)) ->
  files w !! out = None -> mkdir_ok (files w) out -> apart rootDir out ->
  deep_enough fuel (files w) out ->
  Example.contractNameOf content = Some contractName ->
  files w !! (rootDir ++ ["package.json"]) = Some (File text) ->
  JSON_parse text = Some (JObj fields) ->
  files w !! (rootDir ++ ["README.md"]) <> Some Dir ->
  ~ (rootDir ++ ["README.md"]) `prefix_of` out ->
  exists w' manifest,
    createExample fuel exampleName outputDir w = Ret tt w' /\
    files w' !! out = Some Dir /\
    files w' !! (out ++ ["package.json"]) = Some (File (JSON_stringify manifest)) /\
    get_field "name" manifest = Some (JStr ("fhevm-" +:+ exampleName)) /\
    get_field "description" manifest = Some (JStr (Example.description example)) /\
    (forall key, key <> "name" -> key <> "description" ->
                 get_field key manifest = assoc key fields) /\
    (forall r, r <> [] -> r <> ["package.json"] -> r <> ["README.md"] ->
               visible (files w) rootDir r = true ->
               files w' !! (out ++ r) = files w !! (rootDir ++ r)).
Proof.
  intros out Hget Hwf Hc Ht Hfresh Hok Hap Hdeep Hname Hpkg Hparse Hreadme Hnp.
  destruct (ExampleFacts3.createExample_outcome JSON_parse JSON_stringify rootDir cwd
              fuel exampleName outputDir example content (files w) (console w)
              Hget Hwf Hc Ht Hfresh Hok Hap Hdeep) as (fs1 & Hcopied & _ & Hrun).
  fold out in Hcopied, Hrun. rewrite Hname in Hrun.
  specialize (Hrun text fields Hpkg Hparse Hreadme Hnp).
  destruct w as [fs cons]. cbn [files console] in *.
  destruct (TemplateFacts.copied_tree rootDir fs out fs1 Hok Hcopied) as [Htree _].
  eexists _, (JObj (ExampleFacts3.manifest_fields exampleName (Example.description example)
                      fields)).
  split; [exact Hrun|]. cbn [files].
  split; [|split; [|split; [|split; [|split]]]].
  - rewrite !lookup_insert_ne; [apply Hcopied|..]; intros E; apply (f_equal length) in E;
      rewrite length_app in E; simpl in E; lia.
  - rewrite lookup_sibling by done. by rewrite lookup_insert_eq.
  - cbn [get_field]. unfold ExampleFacts3.manifest_fields.
    rewrite assoc_assoc_set_ne by done. apply assoc_assoc_set.
  - cbn [get_field]. unfold ExampleFacts3.manifest_fields. apply assoc_assoc_set.
  - intros key Hk1 Hk2. cbn [get_field]. unfold ExampleFacts3.manifest_fields.
    rewrite !assoc_assoc_set_ne; done.
  - intros r Hr Hr1 Hr2 Hv.
    rewrite !lookup_insert_ne; [by apply Htree|..]; intros E; apply app_inv_head in E; done.
Qed.

(** X2: a key that is neither registered nor a member that every
    object inherits stops the project generator at once: it prints
    that the example is unknown and exits with code 1, and the file
    system stays as it was. *)
Theorem createExample_unknown_key fuel exampleName outputDir w :
  exampleName <> "artifact-auction" -> exampleName ∉ object_prototype ->
  createExample fuel exampleName outputDir w
  = Exit 1 (World (files w)
              (console w ++ [line Red ("Error: " +:+ "Unknown example: " +:+ exampleName)])).
Proof.
  intros Hne Hproto. apply ExampleFacts.createExample_unregistered.
  unfold js_get. cbn [assoc Example.EXAMPLES_MAP].
  destruct (String.eqb_spec "artifact-auction" exampleName) as [E|_]; [by destruct Hne|].
  by rewrite bool_decide_false.
Qed.

(** X3: for a registered key the project generator looks for the
    contract and then for the test before it writes anything; when
    one of them is missing it reports which one and exits with code 1,
    and the file system stays as it was. *)
Theorem createExample_missing_source fuel exampleName outputDir example w :
  js_get Example.EXAMPLES_MAP exampleName = Own example ->
  files w !! path_join rootDir (Example.contract example) = None \/
  files w !! path_join rootDir (Example.test example) = None ->
  exists message,
    createExample fuel exampleName outputDir w
    = Exit 1 (World (files w) (console w ++ [line Red ("Error: " +:+ message)])) /\
    message =
      if bool_decide (is_Some (files w !! path_join rootDir (Example.contract example)))
      then "Test not found: " +:+ Example.test example
      else "Contract not found: " +:+ Example.contract example.
Proof.
  intros Hget Hmissing. unfold Example.createExample. rewrite Hget.
  cbv beta iota zeta delta [bind FS.existsSync ret].
  case_bool_decide as Hc.
  - destruct Hmissing as [E|E]; [rewrite E in Hc; by destruct Hc|].
    rewrite E. rewrite bool_decide_false by (by intros [? ?]).
    eexists. split; [|done]. by rewrite error_eq.
  - eexists. split; [|done]. by rewrite error_eq.
Qed.

(** X7: a name that [getContractName] finds is not empty, so the
    check of the name in [createExample] fails only when the pattern
    of a contract declaration matches nowhere in the contract. *)
Theorem getContractName_nonempty contractPath w found w' :
  Example.getContractName contractPath w = Ret found w' ->
  w' = w /\
  exists content,
    files w !! contractPath = Some (File content) /\
    found = Example.contractNameOf content /\ found <> Some "".
Proof.
  unfold Example.getContractName. intros H.
  apply bind_Ret_inv in H as (content & w1 & H1 & H).
  apply readFileSync_inv in H1 as [-> Hcontent]. apply ret_inv in H as [<- ->].
  split; [done|]. exists content. split; [done|]. split; [done|].
  intros E. by apply ExtractFacts.contractNameOf_nonempty in E.
Qed.

(** X8: what [updatePackageJson] does with the manifest it finds: a
    missing manifest and a manifest that is not JSON raise an error
    and nothing is written; a JSON object is written back with its
    [name] and [description] set and its other fields in place; a
    JSON array is written back as it was, the two fields lost. *)
Theorem updatePackageJson_outcomes outputDir exampleName description w :
  let manifestPath := outputDir ++ ["package.json"] in
  (files w !! manifestPath = None ->
   updatePackageJson outputDir exampleName description w = Throw ENOENT w) /\
  (forall text,
     files w !! manifestPath = Some (File text) -> JSON_parse text = None ->
     updatePackageJson outputDir exampleName description w = Throw SyntaxError w) /\
  (forall text fields,
     files w !! manifestPath = Some (File text) -> JSON_parse text = Some (JObj fields) ->
     files w !! outputDir = Some Dir ->
     updatePackageJson outputDir exampleName description w
     = Ret tt (World (<[manifestPath :=
                          File (JSON_stringify
                                  (JObj (assoc_set "description" (JStr description)
                                           (assoc_set "name"
                                              (JStr ("fhevm-" +:+ exampleName)) fields))))]>
                        (files w))
                 (console w))) /\
  (forall text items,
     files w !! manifestPath = Some (File text) -> JSON_parse text = Some (JArr items) ->
     files w !! outputDir = Some Dir ->
     updatePackageJson outputDir exampleName description w
     = Ret tt (World (<[manifestPath := File (JSON_stringify (JArr items))]> (files w))
                 (console w))).
Proof.
  intros manifestPath. unfold Example.updatePackageJson. fold manifestPath.
  split; [|split; [|split]].
  - intros H. unfold bind, FS.readFileSync. by rewrite H.
  - intros text H Hparse. erewrite bind_Ret; [|by apply readFileSync_Ret]. by rewrite Hparse.
  - intros text fields H Hparse Hdir. erewrite bind_Ret; [|by apply readFileSync_Ret].
    rewrite Hparse. cbn [set_field]. apply writeFileSync_Ret.
    + by rewrite H.
    + unfold manifestPath. by rewrite parent_snoc.
  - intros text items H Hparse Hdir. erewrite bind_Ret; [|by apply readFileSync_Ret].
    rewrite Hparse. cbn [set_field]. apply writeFileSync_Ret.
    + by rewrite H.
    + unfold manifestPath. by rewrite parent_snoc.
Qed.

End ProjectGenerator.

(** ** The recursive copy *)

Section RecursiveCopy.
  Variable skipFiles : list string.

(** X4: [copyDirectoryRecursive] from a directory to a destination
    that holds nothing yet and that the copy cannot reach from the
    source returns, prints nothing, leaves everything outside the
    destination as [mkdir -p] of the destination made it, and puts
    under the destination exactly what it reaches under the source:
    it passes over the names of [skipFiles] and does not enter the
    build directories. *)
Theorem copyDirectoryRecursive_copies fuel source destination w :
  wf (files w) -> files w !! source = Some Dir ->
  (forall r, files w !! (destination ++ r) = None) ->
  mkdir_ok (files w) destination ->
  CopyFacts2.apart skipFiles source destination ->
  (forall r, CopyFacts2.visible skipFiles (created (files w) destination) source r = true ->
             length r < fuel) ->
  exists w',
    Example.copyDirectoryRecursive fuel source destination skipFiles w = Ret tt w' /\
    console w' = console w /\
    CopyFacts2.copied skipFiles (created (files w) destination) source destination (files w').
Proof.
  intros Hwf Hsrc Hfresh Hok Hap Hfuel. destruct w as [fs cons]. cbn [files console] in *.
  destruct (CopyFacts3.copy_correct skipFiles fuel source destination fs cons)
    as (fs' & Hrun & Hcopied); try done.
  by exists (World fs' cons).
Qed.

(** X5: [copyDirectoryRecursive] into a destination that lies inside
    the source, along names that it neither passes over nor refuses
    to enter, does not return, whatever its budget: it copies the
    destination into itself. *)
Theorem copyDirectoryRecursive_into_itself fuel source d w :
  d <> [] -> Forall (CopyFacts.unskipped skipFiles) d -> wf (files w) ->
  returned (Example.copyDirectoryRecursive fuel source (source ++ d) skipFiles w) = false.
Proof.
  intros Hd Hun Hwf. apply returned_false. intros a w' H.
  eapply (CopyFacts.copy_into_itself skipFiles d Hd Hun fuel source 0 w);
    [done|destruct d; [done|simpl; lia]|].
  rewrite take_0, !app_nil_r. exact H.
Qed.

End RecursiveCopy.

(** ** More on the category generator *)

Lemma forEach_ext {A} (f g : A -> M unit) items w :
  (forall item w1, f item w1 = g item w1) -> forEach f items w = forEach g items w.
Proof.
  intros H. revert w. induction items as [|item items IH]; intros w; [done|].
  cbn [forEach]. unfold bind. rewrite H. destruct (g item w); auto.
Qed.

Lemma bind_ext {A B} (c : M A) (k k' : A -> M B) w :
  (forall a w1, k a w1 = k' a w1) -> bind c k w = bind c k' w.
Proof. intros H. unfold bind. destruct (c w); auto. Qed.

(** Whether a key reads as a member inherited from the prototype. *)
Definition inherited {A} (obj : list (string * A)) (key : string) : bool :=
  match js_get obj key with
  | Inherited => true
  | _ => false
  end.

Lemma categories_inherited key :
  key ∈ object_prototype -> js_get Category.CATEGORIES key = Inherited.
Proof.
  intros H.
  assert (Forall (fun k => inherited Category.CATEGORIES k = true) object_prototype) as Hall.
  { apply (bool_decide_unpack _). by vm_compute. }
  rewrite Forall_forall in Hall. specialize (Hall key H). unfold inherited in Hall.
  by destruct (js_get Category.CATEGORIES key).
Qed.

(** X17: the [copyDirectoryRecursive] that the category script
    declares is the one of the project script with an empty list of
    names to pass over. *)
Theorem copyDirectoryRecursive_sibling fuel source destination w :
  Category.copyDirectoryRecursive fuel source destination w
  = Example.copyDirectoryRecursive fuel source destination [] w.
Proof.
  revert source destination w. induction fuel as [|fuel IH]; intros source destination w;
    [done|].
  cbn [Category.copyDirectoryRecursive Example.copyDirectoryRecursive].
  apply bind_ext. intros present w1. apply bind_ext. intros [] w2.
  apply bind_ext. intros items w3. apply forEach_ext. intros item w4.
  rewrite (bool_decide_false (item ∈ [])) by apply not_elem_of_nil.
  apply bind_ext. intros stat w5.
  destruct (FS.isDirectory stat); [|done]. case_bool_decide; [done|]. apply IH.
Qed.

Section CategoryGenerator.
  Variable JSON_parse : string -> option json.
  Variable JSON_stringify : json -> string.
  Variable rootDir : path.
  Variable cwd : path.

  Abbreviation createCategory := (Category.createCategory JSON_parse JSON_stringify rootDir cwd).

(** X9: a key that is neither a category of the registry nor a member
    that every object inherits stops the category generator at once:
    it prints that the category is unknown, with the four categories
    of the registry, and exits with code 1; the file system stays as
    it was. *)
Theorem createCategory_unknown_key categoryName outputDir w :
  categoryName ∉ ["basic"; "advanced"; "access-control"; "encryption"] ->
  categoryName ∉ object_prototype ->
  createCategory categoryName outputDir w
  = Exit 1
      (World (files w)
         (console w ++
          [line Red ("Error: " +:+ "Unknown category: " +:+ categoryName +:+ nl +:+ nl
                     +:+ "Available categories:" +:+ nl
                     +:+ "  - basic" +:+ nl +:+ "  - advanced" +:+ nl
                     +:+ "  - access-control" +:+ nl +:+ "  - encryption")])).
Proof.
  intros Hkey Hproto. unfold Category.createCategory.
  assert (js_get Category.CATEGORIES categoryName = Undefined) as ->.
  { unfold js_get. cbn [assoc Category.CATEGORIES].
    repeat match goal with
           | |- context [String.eqb ?k categoryName] =>
               destruct (String.eqb_spec k categoryName) as [<-|_];
               [exfalso; apply Hkey; apply (bool_decide_unpack _); by vm_compute|]
           end.
    by rewrite bool_decide_false. }
  by rewrite error_eq.
Qed.

(** X10: a key that is no category but a member that every object
    inherits ([constructor], [toString], ...) passes the registry
    check of the category generator.  At a fresh destination the
    generator makes the destination and its [examples] directory and
    copies the files of the base template, and only then fails with a
    type error, on the members of a value that has none: it leaves a
    project without examples behind. *)
Theorem createCategory_inherited_key categoryName outputDir w :
  let out := resolve cwd outputDir in
  categoryName ∈ object_prototype ->
  wf (files w) -> files w !! out = None -> mkdir_ok (files w) out ->
  Forall (CategoryFacts2.undisturbed (files w) out)
    (map (CategoryFacts2.template_source rootDir) Category.templateFiles) ->
  exists w',
    createCategory categoryName outputDir w = Throw TypeError w' /\
    files w' !! out = Some Dir /\
    files w' !! (out ++ ["examples"]) = Some Dir /\
    (forall f, f ∈ Category.templateFiles ->
               files w' !! (out ++ [f])
               = files w !! CategoryFacts2.template_source rootDir f).
Proof.
  intros out Hkey Hwf Hfresh Hok Hsrc. unfold Category.createCategory.
  rewrite (categories_inherited _ Hkey).
  destruct (CategoryFacts3.createStructure_Ret rootDir cwd categoryName outputDir w
              Hwf Hfresh Hok Hsrc) as (Hrun & _ & Hout & Hex & _ & Htempl & _).
  rewrite (bind_Ret _ _ _ _ _ Hrun). eexists. split; [reflexivity|]. cbn [files].
  split; [exact Hout|]. split; [exact Hex|exact Htempl].
Qed.

(** X11: for a category of the registry, at a fresh destination, the
    category generator returns and leaves, besides the members'
    directories: the destination as a directory; the README of the
    category; each configuration file of the base template that
    exists, copied; and, when the base template has a manifest that
    is a JSON object, that manifest with [name] set to [fhevm-], the
    key and [-examples], and [description] set to the category's.
    When the base template has no manifest, the project has none. *)
Theorem createCategory_project_files categoryName outputDir category w :
  let out := resolve cwd outputDir in
  js_get Category.CATEGORIES categoryName = Own category ->
  wf (files w) -> files w !! out = None -> mkdir_ok (files w) out ->
  Forall (CategoryFacts2.undisturbed (files w) out) (CategoryFacts2.sources rootDir category) ->
  (forall text,
     files w !! CategoryFacts2.template_source rootDir "package.json" = Some (File text) ->
     exists fields, JSON_parse text = Some (JObj fields)) ->
  exists w',
    createCategory categoryName outputDir w = Ret tt w' /\
    files w' !! out = Some Dir /\
    files w' !! (out ++ ["README.md"])
    = Some (File (Category.generateCategoryReadme categoryName category)) /\
    (forall f, f ∈ Category.templateFiles -> f <> "package.json" ->
               files w' !! (out ++ [f])
               = files w !! CategoryFacts2.template_source rootDir f) /\
    (forall text fields,
       files w !! CategoryFacts2.template_source rootDir "package.json" = Some (File text) ->
       JSON_parse text = Some (JObj fields) ->
       exists manifest,
         files w' !! (out ++ ["package.json"]) = Some (File (JSON_stringify manifest)) /\
         get_field "name" manifest
         = Some (JStr ("fhevm-" +:+ categoryName +:+ "-examples")) /\
         get_field "description" manifest = Some (JStr (Category.description category)) /\
         forall key, key <> "name" -> key <> "description" ->
                     get_field key manifest = assoc key fields) /\
    (files w !! CategoryFacts2.template_source rootDir "package.json" = None ->
     files w' !! (out ++ ["package.json"]) = None).
Proof.
  intros out Hget Hwf Hfresh Hok Hsrc Hparse.
  destruct (CategoryFacts5.createCategory_outcome JSON_parse JSON_stringify rootDir cwd
              categoryName outputDir category w Hget Hwf Hfresh Hok Hsrc Hparse)
    as (w' & lines & Hrun & _ & _ & _ & Hout & Hreadme & Htempl & Hmanifest & Hnone).
  exists w'. split; [exact Hrun|]. split; [exact Hout|]. split; [exact Hreadme|].
  split; [exact Htempl|]. split; [|exact Hnone].
  intros text fields Htext Hfields.
  exists (JObj (CategoryFacts4.manifest_fields categoryName category fields)).
  split; [by apply (Hmanifest text)|]. cbn [get_field]. unfold CategoryFacts4.manifest_fields.
  split; [|split].
  - rewrite assoc_assoc_set_ne by done. apply assoc_assoc_set.
  - apply assoc_assoc_set.
  - intros key Hk1 Hk2. rewrite !assoc_assoc_set_ne; done.
Qed.

(** X16: asked for help, the two generators print their usage and
    exit with code 0 without a look at the file system: the project
    generator when it has no argument or [--help] comes first, the
    category generator also when [-h] comes first.  The project
    generator prints its heading, its usage line, the line that opens
    the list and, for the one example of its registry, the key and the
    description; the category generator prints its heading, its usage
    line, the line that opens the list, for each of the four
    categories of its registry the key, the description and the
    members joined by a comma and a blank, and then an example of a
    call. *)
Theorem generators_help fuel args w :
  (args = [] \/ first_is args "--help" = true ->
   Example.main JSON_parse JSON_stringify rootDir cwd fuel args w
   = Exit 0
       (World (files w)
          (console w ++
           [ line Cyan ("FHEVM Example Generator" +:+ nl);
             line Reset
               ("Usage: npx ts-node scripts/create-fhevm-example.ts <name> [output-dir]"
                +:+ nl);
             line Yellow "Available examples:";
             line Green "  artifact-auction";
             line Reset
               "    Confidential artifact auction with encrypted bids and authentication" ]))) /\
  (args = [] \/ first_is args "--help" = true \/ first_is args "-h" = true ->
   Category.main JSON_parse JSON_stringify rootDir cwd args w
   = Exit 0
       (World (files w)
          (console w ++
           [ line Cyan ("FHEVM Category Generator" +:+ nl);
             line Reset
               ("Usage: npx ts-node scripts/create-fhevm-category.ts <category> [output-dir]"
                +:+ nl);
             line Yellow "Available categories:";
             line Green "  basic";
             line Reset "    Fundamental examples demonstrating basic FHE operations";
             line Blue "    Examples: counter, fhe-counter";
             line Green "  advanced";
             line Reset "    Complex examples showing real-world applications";
             line Blue "    Examples: artifact-auction";
             line Green "  access-control";
             line Reset "    Examples demonstrating FHE access control patterns";
             line Blue "    Examples: ";
             line Green "  encryption";
             line Reset "    Examples showing encryption and decryption workflows";
             line Blue "    Examples: ";
             line Yellow (nl +:+ "Example:");
             line Reset
               ("  npx ts-node scripts/create-fhevm-category.ts basic ./output/basic-examples"
                +:+ nl) ]))).
Proof.
  split.
  - intros H. unfold Example.main.
    assert (bool_decide (args = []) || first_is args "--help" = true) as ->.
    { destruct H as [E|E]; rewrite E; [done|apply orb_true_r]. }
    cbv beta iota zeta delta [bind log exit forEach Example.EXAMPLES_MAP].
    cbn [files console fst snd]. rewrite <-!app_assoc. reflexivity.
  - intros H. unfold Category.main.
    assert (bool_decide (args = []) || first_is args "--help" || first_is args "-h" = true)
      as ->.
    { destruct H as [E|[E|E]]; rewrite E; [done|by rewrite orb_true_r|apply orb_true_r]. }
    cbv beta iota zeta delta [bind log exit ret forEach Category.CATEGORIES].
    cbn [files console fst snd]. rewrite <-!app_assoc. reflexivity.
Qed.

End CategoryGenerator.

(** ** More on the documentation generator *)

Lemma prefix_substring (t s : string) n :
  String.prefix t (substring 0 n s) = true -> String.prefix t s = true.
Proof.
  revert s n. induction t as [|c t IH]; intros s n; [by destruct s|].
  destruct s as [|c' s]; [by destruct n|]. destruct n as [|n]; [done|].
  cbn [substring String.prefix]. destruct (ascii_dec c c'); [apply IH|done].
Qed.

Lemma includes_substring (t s : string) n :
  includes t (substring 0 n s) = true -> includes t s = true.
Proof.
  revert n. induction s as [|c s IH]; intros n.
  - by destruct n.
  - destruct n as [|n].
    + cbn [substring includes]. rewrite orb_false_r. intros H. destruct t; [done|done].
    + cbn [substring includes]. intros H. apply orb_true_iff in H as [H|H].
      * apply (prefix_substring t (String c s) (S n)) in H. by rewrite H.
      * apply IH in H. rewrite H. apply orb_true_r.
Qed.

Lemma bind_Throw {A B} (c : M A) (k : A -> M B) w e w' :
  c w = Throw e w' -> bind c k w = Throw e w'.
Proof. intros H. unfold bind. by rewrite H. Qed.

Lemma omap_none {A B} (f : A -> option B) items :
  (forall item, f item = None) -> omap f items = [].
Proof. intros H. induction items as [|item items IH]; [done|]. cbn. by rewrite H. Qed.

Section DocumentationGenerator.
  Variable JSON_stringify : json -> string.
  Variable cwd : path.

  Abbreviation generateDocumentation := (Docs.generateDocumentation JSON_stringify cwd).

(** X12: from a test file in which no comment opens with [/**],
    [extractTestDescriptions] returns no description at all, however
    many test groups the file declares. *)
Theorem extractTestDescriptions_without_comment filePath content w :
  files w !! filePath = Some (File content) ->
  includes "/**" content = false ->
  Docs.extractTestDescriptions filePath w = Ret [] w.
Proof.
  intros Hfile Hnone. unfold Docs.extractTestDescriptions.
  erewrite bind_Ret; [|by apply readFileSync_Ret].
  unfold Docs.testDescriptionsOf.
  destruct (ExtractFacts.describe_loop_ends content) as [describes ->].
  rewrite omap_none; [done|]. intros m. apply ExtractFacts.describeEntry_none.
  destruct (includes "/**" (substring 0 (Regex.index m) content)) eqn:E; [|done].
  apply includes_substring in E. congruence.
Qed.

(** X14: [generateContractDoc] returns a document whenever the
    contract and the test are regular files, and does not touch the
    world: none of the patterns that its loops repeat can match the
    empty string, so each loop ends. *)
Theorem generateContractDoc_returns contractName contractPath testPath
    contractContent testContent w :
  files w !! contractPath = Some (File contractContent) ->
  files w !! testPath = Some (File testContent) ->
  exists doc,
    Docs.generateContractDoc contractName contractPath testPath w = Ret doc w /\
    Docs.contractDocOf contractName contractContent testContent = Some doc.
Proof.
  intros Hc Ht.
  destruct (DocsFacts2.contractDocOf_total contractName contractContent testContent)
    as [doc Edoc].
  exists doc. split; [|done].
  unfold Docs.generateContractDoc.
  erewrite bind_Ret; [|by apply readFileSync_Ret].
  erewrite bind_Ret; [|by apply readFileSync_Ret].
  by rewrite Edoc.
Qed.

(** X13: with the contract and the test in place, the documentation
    generator returns; it writes the contract's document, which is
    what [generateContractDoc] makes of the two files, and reports it
    on the line after the opening line; and it writes the API
    reference, the table of contents and the renderer's
    configuration. *)
Theorem generateDocumentation_with_sources w contractContent testContent :
  wf (files w) -> files w !! cwd = Some Dir ->
  (forall c, files w !! DocsFacts.docsDir cwd <> Some (File c)) ->
  files w !! DocsFacts.contractDocPath cwd <> Some Dir ->
  files w !! DocsFacts.apiPath cwd <> Some Dir ->
  files w !! DocsFacts.summaryPath cwd <> Some Dir ->
  files w !! DocsFacts.bookPath cwd <> Some Dir ->
  files w !! DocsFacts.contractPath cwd = Some (File contractContent) ->
  files w !! DocsFacts.testPath cwd = Some (File testContent) ->
  exists w' doc,
    generateDocumentation w = Ret tt w' /\
    Docs.contractDocOf "ArtifactAuction" contractContent testContent = Some doc /\
    console w' =
      console w
      ++ [ line Cyan "Generating documentation...";
           line Green "Success: Generated artifact-auction.md" ]
      ++ DocsFacts.closing_lines /\
    files w' !! DocsFacts.contractDocPath cwd = Some (File doc) /\
    files w' !! DocsFacts.apiPath cwd = Some (File Docs.apiDoc) /\
    files w' !! DocsFacts.summaryPath cwd = Some (File Docs.generateSummary) /\
    files w' !! DocsFacts.bookPath cwd = Some (File (JSON_stringify Docs.bookConfig)) /\
    files w' !! DocsFacts.contractPath cwd = Some (File contractContent) /\
    files w' !! DocsFacts.testPath cwd = Some (File testContent).
Proof.
  intros Hwf Hcwd Hdocs Hdoc Hapi Hsum Hbook Hc Ht.
  destruct (DocsFacts2.generateDocumentation_complete JSON_stringify cwd w
              contractContent testContent Hwf Hcwd Hdocs Hdoc Hapi Hsum Hbook Hc Ht)
    as (fs1 & doc & Edoc & Hd1 & Hk1 & Hrun).
  eexists _, doc. split; [exact Hrun|]. split; [exact Edoc|]. cbn [files console].
  split; [done|]. unfold DocsFacts.rest_files.
  unfold DocsFacts.bookPath, DocsFacts.summaryPath, DocsFacts.apiPath,
    DocsFacts.contractDocPath, DocsFacts.contractPath, DocsFacts.testPath, DocsFacts.docsDir
    in *.
  split; [|split; [|split; [|split; [|split]]]].
  - rewrite !lookup_sibling by done. by rewrite lookup_insert_eq.
  - rewrite !lookup_sibling by done. by rewrite lookup_insert_eq.
  - rewrite !lookup_sibling by done. by rewrite lookup_insert_eq.
  - by rewrite lookup_insert_eq.
  - rewrite !lookup_sibling by done. rewrite Hk1; [done|]. path_neq.
  - rewrite !lookup_sibling by done. rewrite Hk1; [done|]. path_neq.
Qed.

(** X15: when [docs] in the working directory is a regular file, the
    documentation generator fails with an exception at its first
    write, and the file system stays as it was. *)
Theorem generateDocumentation_docs_is_file w c :
  files w !! DocsFacts.docsDir cwd = Some (File c) ->
  exists e w', generateDocumentation w = Throw e w' /\ files w' = files w.
Proof.
  intros Hdocs. rewrite DocsFacts2.generateDocumentation_unfold.
  erewrite bind_Ret; [|reflexivity]. erewrite bind_Ret; [|reflexivity].
  cbn [files console]. rewrite Hdocs. rewrite bool_decide_true by eauto.
  erewrite bind_Ret; [|reflexivity].
  erewrite bind_Ret; [|reflexivity]. erewrite bind_Ret; [|reflexivity].
  cbn [files console].
  assert (forall p content cons,
    FS.parent p = DocsFacts.docsDir cwd ->
    exists e,
      FS.writeFileSync p content (World (files w) cons) = Throw e (World (files w) cons))
    as Hwrite.
  { intros p content cons Hp. unfold FS.writeFileSync. cbn [files console].
    rewrite Hp, Hdocs. destruct (files w !! p) as [[?|]|]; eauto. }
  assert (FS.parent (DocsFacts.apiPath cwd) = DocsFacts.docsDir cwd) as Hapi.
  { unfold DocsFacts.apiPath, DocsFacts.docsDir.
    change (cwd ++ ["docs"; "api.md"]) with (cwd ++ ["docs"] ++ ["api.md"]).
    by rewrite app_assoc, parent_snoc. }
  assert (FS.parent (DocsFacts.contractDocPath cwd) = DocsFacts.docsDir cwd) as Hdoc.
  { unfold DocsFacts.contractDocPath, DocsFacts.docsDir.
    change (cwd ++ ["docs"; "artifact-auction.md"])
      with (cwd ++ ["docs"] ++ ["artifact-auction.md"]).
    by rewrite app_assoc, parent_snoc. }
  unfold DocsFacts2.writeContractDoc.
  destruct (bool_decide (is_Some (files w !! DocsFacts.contractPath cwd))
            && bool_decide (is_Some (files w !! DocsFacts.testPath cwd))) eqn:Eboth.
  - (* the contract document is the first write *)
    apply andb_true_iff in Eboth as [Ec Et].
    apply bool_decide_eq_true in Ec as [nc Ec]. apply bool_decide_eq_true in Et as [nt Et].
    set (w1 := World (files w) (console w ++ [line Cyan "Generating documentation..."])).
    assert (exists e, Docs.generateContractDoc "ArtifactAuction" (DocsFacts.contractPath cwd)
                        (DocsFacts.testPath cwd) w1 = Throw e w1 \/
            exists doc, Docs.generateContractDoc "ArtifactAuction" (DocsFacts.contractPath cwd)
                          (DocsFacts.testPath cwd) w1 = Ret doc w1) as Hgen.
    { unfold Docs.generateContractDoc. destruct nc as [contractContent|].
      - destruct nt as [testContent|].
        + destruct (DocsFacts2.contractDocOf_total "ArtifactAuction" contractContent
                      testContent) as [doc Edoc].
          exists ENOENT. right. exists doc.
          erewrite bind_Ret; [|by apply readFileSync_Ret].
          erewrite bind_Ret; [|by apply readFileSync_Ret]. by rewrite Edoc.
        + exists EISDIR. left.
          erewrite bind_Ret; [|by apply readFileSync_Ret].
          apply bind_Throw. unfold FS.readFileSync, w1. cbn [files]. by rewrite Et.
      - exists EISDIR. left. apply bind_Throw. unfold FS.readFileSync, w1. cbn [files].
        by rewrite Ec. }
    destruct Hgen as (e & [Hgen|(doc & Hgen)]).
    + exists e, w1. split; [|done]. apply bind_Throw, bind_Throw. exact Hgen.
    + destruct (Hwrite (DocsFacts.contractDocPath cwd) doc
                  (console w ++ [line Cyan "Generating documentation..."]) Hdoc) as (e' & He').
      exists e', w1. split; [|done]. apply bind_Throw.
      erewrite bind_Ret; [|exact Hgen]. apply bind_Throw. exact He'.
  - erewrite bind_Ret; [|reflexivity]. unfold DocsFacts.writeRest, bind.
    destruct (Hwrite (DocsFacts.apiPath cwd) Docs.apiDoc
                (console w ++ [line Cyan "Generating documentation..."]) Hapi) as (e & ->).
    eauto.
Qed.

End DocumentationGenerator.

(** ** What no script does *)

Section OnlyAdd.
  Variable JSON_parse : string -> option json.
  Variable JSON_stringify : json -> string.
  Variable rootDir : path.
  Variable cwd : path.

Lemma steady_generateDocumentation :
    steady (Docs.generateDocumentation JSON_stringify cwd).
  Proof.
    unfold Docs.generateDocumentation, Docs.generateContractDoc. steady.
  Qed.

(** X6: none of the three scripts removes anything.  Whatever the
    outcome of a run (return, exit or exception), every path that
    existed before it exists after it, every directory is still a
    directory, and a file system in which every entry lies in a
    directory is still one. *)
Theorem scripts_only_add fuel name outputDir w w' :
  world_of (Example.createExample JSON_parse JSON_stringify rootDir cwd fuel name outputDir w)
  = Some w' \/
  world_of (Category.createCategory JSON_parse JSON_stringify rootDir cwd name outputDir w)
  = Some w' \/
  world_of (Docs.generateDocumentation JSON_stringify cwd w) = Some w' ->
  (forall p, is_Some (files w !! p) -> is_Some (files w' !! p)) /\
  (forall p, files w !! p = Some Dir -> files w' !! p = Some Dir) /\
  (wf (files w) -> wf (files w')).
Proof.
  intros H.
  assert (extends (files w) (files w') /\ (wf (files w) -> wf (files w'))) as [Hext Hwf].
  { destruct H as [H|[H|H]].
    - by apply (ExampleFacts2.steady_createExample JSON_parse JSON_stringify rootDir cwd
                  fuel name outputDir).
    - by apply (CategoryFacts5.steady_createCategory JSON_parse JSON_stringify rootDir cwd
                  name outputDir).
    - by apply steady_generateDocumentation. }
  split; [|split; [|done]]; intros p; apply Hext.
Qed.

End OnlyAdd.

(** ** Runs on the sample projects *)

(** A closed equation, checked by evaluation of its two sides. *)
Ltac evaluated :=
  lazymatch goal with
  | |- @eq ?T _ ?r => vm_cast_no_check (@eq_refl T r)
  end.

Ltac decided := apply (bool_decide_unpack _); vm_compute; exact I.

Lemma wf_repo : wf (files Sample.repo).
Proof. decided. Qed.

Lemma wf_repo_without_declaration : wf (files Sample.repo_without_declaration).
Proof. decided. Qed.

Lemma wf_bare : wf (files Sample.bare).
Proof. decided. Qed.

Lemma apart_out : CopyFacts2.apart ["scripts"] Sample.rootDir ["out"].
Proof. intros d E. discriminate E. Qed.

Lemma deep_enough_out fs :
  (depth fs <? 10) = true -> TemplateFacts.deep_enough 10 fs ["out"].
Proof. intros H. apply Nat.ltb_lt in H. split; [exact H|simpl; lia]. Qed.

Lemma contract_text_name : Example.contractNameOf Sample.contract_text = Some "ArtifactAuction".
Proof. evaluated. Qed.

Lemma library_text_name : Example.contractNameOf Sample.library_text = None.
Proof. evaluated. Qed.

Lemma contract_text_declaration :
  DeclarationFacts.first_declaration Sample.contract_text "ArtifactAuction".
Proof. apply DeclarationFacts.contractNameOf_first. exact contract_text_name. Qed.

Lemma library_text_declaration before name :
  ~ DeclarationFacts.declaration Sample.library_text before name.
Proof.
  revert before name. apply DeclarationFacts.contractNameOf_None. exact library_text_name.
Qed.

Lemma wf_repo_without_manifest : wf (files Sample.repo_without_manifest).
Proof. decided. Qed.

(** The category [basic] can be generated from the sample repository. *)
Lemma repo_sources_undisturbed categoryName category :
  js_get Category.CATEGORIES categoryName = Own category ->
  Forall (CategoryFacts2.undisturbed (files Sample.repo) ["out"])
    (CategoryFacts2.sources Sample.rootDir category).
Proof.
  intros H. apply js_get_Own, assoc_elem in H.
  assert (Forall (fun entry : string * Category.CategoryConfig =>
                    Forall (CategoryFacts2.undisturbed (files Sample.repo) ["out"])
                      (CategoryFacts2.sources Sample.rootDir entry.2))
            Category.CATEGORIES) as Hall by decided.
  rewrite Forall_forall in Hall. exact (Hall _ H).
Qed.

Lemma repo_manifest_parses text :
  files Sample.repo !! CategoryFacts2.template_source Sample.rootDir "package.json"
  = Some (File text) ->
  exists fields, Codec.parse text = Some (JObj fields).
Proof.
  intros H. exists Sample.fields.
  assert (files Sample.repo !! CategoryFacts2.template_source Sample.rootDir "package.json"
          = Some (File (Codec.stringify Sample.manifest))) as E by evaluated.
  assert (text = Codec.stringify Sample.manifest) as -> by congruence.
  evaluated.
Qed.

(** The project generator on the sample repository, from start to end. *)
Lemma createExample_repo :
  exists w1,
    Sample.createExample 10 "artifact-auction" "/out" Sample.repo = Ret tt w1 /\
    extends (files Sample.repo) (files w1).
Proof.
  destruct (ExampleFacts3.createExample_outcome Codec.parse Codec.stringify
              Sample.rootDir Sample.rootDir 10 "artifact-auction" "/out" _
              Sample.contract_text (files Sample.repo) (console Sample.repo)
              eq_refl wf_repo) as (fs1 & _ & _ & Hrun).
  - evaluated.
  - decided.
  - evaluated.
  - apply mkdir_ok_check. decided.
  - exact apart_out.
  - apply deep_enough_out. evaluated.
  - rewrite contract_text_name in Hrun.
    assert (files Sample.repo !! (Sample.rootDir ++ ["package.json"])
            = Some (File (Codec.stringify Sample.manifest))) as H1 by evaluated.
    assert (Codec.parse (Codec.stringify Sample.manifest) = Some (JObj Sample.fields)) as H2
      by evaluated.
    assert (files Sample.repo !! (Sample.rootDir ++ ["README.md"]) <> Some Dir) as H3
      by (by vm_compute).
    assert (~ (Sample.rootDir ++ ["README.md"]) `prefix_of` resolve Sample.rootDir "/out")
      as H4 by (intros [r Hr]; discriminate Hr).
    pose proof (Hrun _ _ H1 H2 H3 H4) as Hrun'.
    eexists. split; [exact Hrun'|].
    eapply (ExampleFacts2.steady_createExample Codec.parse Codec.stringify
              Sample.rootDir Sample.rootDir 10 "artifact-auction" "/out" Sample.repo).
    exact (f_equal world_of Hrun').
Qed.

(** The generator started in the template's directory with the
    destination of its usage line. *)
Lemma createExample_inside_template_witness :
  wf (files Sample.repo) /\
  resolve Sample.rootDir "./output/artifact-auction"
  = Sample.rootDir ++ ["output"; "artifact-auction"] /\
  Forall (CopyFacts.unskipped ["scripts"]) ["output"; "artifact-auction"] /\
  returned (Sample.createExample 64 "artifact-auction" "./output/artifact-auction" Sample.repo)
  = false.
Proof.
  assert (Forall (CopyFacts.unskipped ["scripts"]) ["output"; "artifact-auction"]) as Hun.
  { decided. }
  split; [exact wf_repo|]. split; [reflexivity|]. split; [exact Hun|].
  exact (createExample_inside_template Codec.parse Codec.stringify Sample.rootDir Sample.rootDir
           64 "artifact-auction" "./output/artifact-auction" ["output"; "artifact-auction"]
           Sample.repo wf_repo eq_refl Hun).
Defined.

(** The category [basic] in the sample repository, where the contract
    of [counter] and the contract of [fhe-counter] are missing. *)
Lemma createCategory_members_witness :
  exists w' lines,
    Sample.createCategory "basic" "/out" Sample.repo = Ret tt w' /\
    console w' = console Sample.repo ++ lines /\
    Forall no_warning lines /\
    Forall (CategoryFacts5.member_copied Sample.rootDir Sample.repo w' ["out"])
      ["counter"; "fhe-counter"].
Proof.
  apply (createCategory_members Codec.parse Codec.stringify
           Sample.rootDir Sample.rootDir "basic" "/out" _ Sample.repo eq_refl wf_repo).
  - reflexivity.
  - apply mkdir_ok_check. decided.
  - exact (repo_sources_undisturbed "basic" _ eq_refl).
  - exact repo_manifest_parses.
Defined.

(** C2 as stated fails: the contract of [counter] is not in the sample
    repository, and the generator still makes the member's directories,
    copies its test, writes its README and prints no warning. *)
Lemma createCategory_member_without_contract :
  files Sample.repo !! ["repo"; "contracts"; "Counter.sol"] = None /\
  exists w',
    Sample.createCategory "basic" "/out" Sample.repo = Ret tt w' /\
    files w' !! ["out"; "examples"; "counter"] = Some Dir /\
    files w' !! ["out"; "examples"; "counter"; "contracts"] = Some Dir /\
    files w' !! ["out"; "examples"; "counter"; "contracts"; "Counter.sol"] = None /\
    files w' !! ["out"; "examples"; "counter"; "test"; "Counter.ts"]
    = Some (File "describe('Counter', function () {});") /\
    is_Some (files w' !! ["out"; "examples"; "counter"; "README.md"]) /\
    Forall no_warning (console w').
Proof.
  assert (files Sample.repo !! ["repo"; "contracts"; "Counter.sol"] = None) as Hnone
    by evaluated.
  assert (files Sample.repo !! ["repo"; "test"; "Counter.ts"]
          = Some (File "describe('Counter', function () {});")) as Htest by evaluated.
  split; [exact Hnone|].
  destruct (CategoryFacts5.createCategory_outcome Codec.parse Codec.stringify
              Sample.rootDir Sample.rootDir "basic" "/out" _ Sample.repo eq_refl wf_repo)
    as (w' & lines & Hrun & Hcons & Hnw & Hmem & _).
  - reflexivity.
  - apply mkdir_ok_check. decided.
  - exact (repo_sources_undisturbed "basic" _ eq_refl).
  - exact repo_manifest_parses.
  - exists w'. split; [exact Hrun|].
    apply Forall_cons in Hmem as [(info & Hinfo & Hdir & Hc & Ht & Hreadme & Hcf & Htf) _].
    injection Hinfo as <-.
    split; [exact Hdir|]. split; [exact Hc|].
    split; [exact (eq_trans Hcf Hnone)|]. split; [exact (eq_trans Htf Htest)|].
    split; [by eexists|]. by rewrite Hcons.
Qed.

(** A second run of each generator on the project made by a first run
    of the project generator. *)
Lemma generators_stop_at_existing_destination_witness :
  exists w1,
    Sample.createExample 10 "artifact-auction" "/out" Sample.repo = Ret tt w1 /\
    (exists w',
       Sample.createExample 10 "artifact-auction" "/out" w1 = Exit 1 w' /\
       files w' = files w1 /\
       last (console w') = Some (line Red "Error: Directory exists: /out")) /\
    (exists w',
       Sample.createCategory "advanced" "/out" w1 = Exit 1 w' /\
       files w' = files w1 /\
       last (console w') = Some (line Red "Error: Output directory already exists: /out")).
Proof.
  destruct createExample_repo as (w1 & Hfirst & Hext).
  exists w1. split; [exact Hfirst|].
  destruct (generators_stop_at_existing_destination Codec.parse Codec.stringify
              Sample.rootDir Sample.rootDir 10 "artifact-auction" "advanced" "/out" w1)
    as [(w2 & Hrun2 & Hfiles2 & Hlast2) (w3 & Hrun3 & Hfiles3 & Hlast3)].
  - right. left. exists 10, Sample.repo. exact Hfirst.
  - by vm_compute.
  - split.
    + exists w2. split; [exact Hrun2|]. split; [exact Hfiles2|].
      apply (Hlast2 _ eq_refl); apply Hext; decided.
    + exists w3. split; [exact Hrun3|]. split; [exact Hfiles3|].
      apply Hlast3. by vm_compute.
Defined.

(** C3 as stated fails: with a key that the registry does not have, the
    project generator reports the unknown example, although the
    destination exists. *)
Lemma createExample_unknown_key_first :
  is_Some (files Sample.repo !! resolve Sample.rootDir "/repo/contracts") /\
  Sample.createExample 10 "sealed-auction" "/repo/contracts" Sample.repo
  = Exit 1 (World (files Sample.repo) [line Red "Error: Unknown example: sealed-auction"]).
Proof. split; [decided|reflexivity]. Qed.

Lemma createExample_inherited_key_witness :
  "constructor" ∈ object_prototype /\
  Sample.createExample 10 "constructor" "/out" Sample.repo = Throw TypeError Sample.repo.
Proof.
  assert ("constructor" ∈ object_prototype) as H.
  { decided. }
  split; [exact H|].
  exact (createExample_inherited_key Codec.parse Codec.stringify Sample.rootDir Sample.rootDir
           10 "constructor" "/out" Sample.repo H).
Defined.

(** The documentation generator in a directory without the contract
    and the test. *)
Lemma generateDocumentation_without_sources_witness :
  files Sample.bare !! ["work"; "contracts"; "ArtifactAuction.sol"] = None /\
  exists w',
    Docs.generateDocumentation Codec.stringify ["work"] Sample.bare = Ret tt w' /\
    console w' =
      console Sample.bare ++ [line Cyan "Generating documentation..."]
      ++ DocsFacts.closing_lines /\
    files w' !! ["work"; "docs"; "api.md"] = Some (File Docs.apiDoc) /\
    files w' !! ["work"; "SUMMARY.md"] = Some (File Docs.generateSummary) /\
    files w' !! ["work"; "book.json"] = Some (File (Codec.stringify Docs.bookConfig)) /\
    files w' !! ["work"; "docs"; "artifact-auction.md"]
    = files Sample.bare !! ["work"; "docs"; "artifact-auction.md"].
Proof.
  split; [evaluated|].
  apply (generateDocumentation_without_sources Codec.stringify ["work"] Sample.bare wf_bare).
  - evaluated.
  - intros c. by vm_compute.
  - by vm_compute.
  - by vm_compute.
  - by vm_compute.
  - left. evaluated.
Defined.

(** The documentation generator on the sample repository. *)
Lemma generateDocumentation_repo :
  exists w2,
    Sample.generateDocumentation Sample.repo = Ret tt w2 /\
    console w2
    = [ line Cyan "Generating documentation...";
        line Green "Success: Generated artifact-auction.md" ] ++ DocsFacts.closing_lines.
Proof.
  destruct (DocsFacts2.generateDocumentation_complete Codec.stringify Sample.rootDir
              Sample.repo Sample.contract_text Sample.test_text wf_repo)
    as (fs1 & doc & _ & _ & _ & Hrun).
  - evaluated.
  - intros c. by vm_compute.
  - by vm_compute.
  - by vm_compute.
  - by vm_compute.
  - by vm_compute.
  - evaluated.
  - evaluated.
  - eexists. split; [exact Hrun|]. reflexivity.
Qed.

(** C5 as stated fails: without the contract the generator prints its
    opening line and the lines that close every run, and nothing else;
    with the contract it prints one line more, the one that reports the
    contract document.  No line reports that the document was skipped,
    and no document is written. *)
Lemma generateDocumentation_skips_silently :
  files Sample.bare !! ["work"; "contracts"; "ArtifactAuction.sol"] = None /\
  exists w1 w2,
    Docs.generateDocumentation Codec.stringify ["work"] Sample.bare = Ret tt w1 /\
    Sample.generateDocumentation Sample.repo = Ret tt w2 /\
    files w1 !! ["work"; "docs"; "artifact-auction.md"] = None /\
    console w1 = [ line Cyan "Generating documentation..." ] ++ DocsFacts.closing_lines /\
    console w2
    = [ line Cyan "Generating documentation...";
        line Green "Success: Generated artifact-auction.md" ] ++ DocsFacts.closing_lines.
Proof.
  assert (files Sample.bare !! ["work"; "contracts"; "ArtifactAuction.sol"] = None) as Hnone
    by evaluated.
  split; [exact Hnone|].
  destruct (DocsFacts2.generateDocumentation_skip Codec.stringify ["work"] Sample.bare wf_bare)
    as (fs1 & Hd1 & Hk1 & Hrun1).
  - evaluated.
  - intros c. by vm_compute.
  - by vm_compute.
  - by vm_compute.
  - by vm_compute.
  - left. exact Hnone.
  - destruct generateDocumentation_repo as (w2 & Hrun2 & Hcons2).
    eexists _, w2. split; [exact Hrun1|]. split; [exact Hrun2|].
    cbn [files console]. split; [|split; [reflexivity|exact Hcons2]].
    rewrite (DocsFacts2.rest_files_lookup Codec.stringify ["work"]) by done.
    rewrite Hk1 by done. evaluated.
Qed.

Lemma generateDocumentation_again_witness :
  exists w1 w2,
    Sample.generateDocumentation Sample.repo = Ret tt w1 /\
    Sample.generateDocumentation w1 = Ret tt w2 /\
    files w2 = files w1.
Proof.
  destruct generateDocumentation_repo as (w1 & Hfirst & _).
  destruct (DocsFacts2.generateDocumentation_again Codec.stringify Sample.rootDir
              Sample.repo w1 Hfirst) as (w2 & Hrun & Hfiles).
  exists w1, w2. split; [exact Hfirst|]. split; [exact Hrun|exact Hfiles].
Defined.



(** The project generator on the repository whose contract file
    declares no contract. *)
Lemma createExample_parse_error_leaves_copy_witness :
  exists w',
    Sample.createExample 10 "artifact-auction" "/out" Sample.repo_without_declaration
    = Exit 1 w' /\
    files w' !! ["out"] = Some Dir /\
    files w' !! ["out"; "package.json"] = Some (File (Codec.stringify Sample.manifest)) /\
    files w' !! ["out"; "README.md"] = Some (File "# Confidential Artifact Auction") /\
    (forall r c, r <> [] -> files w' !! (["out"] ++ r) = Some (File c) ->
                 files Sample.repo_without_declaration !! (Sample.rootDir ++ r)
                 = Some (File c)).
Proof.
  destruct (ExampleFacts3.createExample_outcome Codec.parse Codec.stringify
              Sample.rootDir Sample.rootDir 10 "artifact-auction" "/out" _
              Sample.library_text (files Sample.repo_without_declaration)
              (console Sample.repo_without_declaration)
              eq_refl wf_repo_without_declaration) as (fs1 & _ & _ & Hrun).
  - evaluated.
  - decided.
  - evaluated.
  - apply mkdir_ok_check. decided.
  - exact apart_out.
  - apply deep_enough_out. evaluated.
  - rewrite library_text_name in Hrun. eexists. split; [exact Hrun|].
    destruct (createExample_parse_error_leaves_copy Codec.parse Codec.stringify
                Sample.rootDir Sample.rootDir 10 "artifact-auction" "/out"
                Sample.repo_without_declaration _ wf_repo_without_declaration Hrun)
      as (_ & _ & Hdir & Htree & Hfiles & _).
    + cbn [console]. by rewrite !app_assoc, last_snoc.
    + split; [exact Hdir|]. split; [|split; [|exact Hfiles]].
      * etrans; [exact (Htree ["package.json"] ltac:(done) ltac:(evaluated))|]. evaluated.
      * etrans; [exact (Htree ["README.md"] ltac:(done) ltac:(evaluated))|]. evaluated.
Defined.


Lemma repo_template_undisturbed :
  Forall (CategoryFacts2.undisturbed (files Sample.repo) ["out"])
    (map (CategoryFacts2.template_source Sample.rootDir) Category.templateFiles).
Proof. decided. Qed.

Lemma createExample_generates_witness :
  exists w' manifest,
    Sample.createExample 10 "artifact-auction" "/out" Sample.repo = Ret tt w' /\
    files w' !! ["out"] = Some Dir /\
    files w' !! ["out"; "package.json"] = Some (File (Codec.stringify manifest)) /\
    get_field "name" manifest = Some (JStr "fhevm-artifact-auction") /\
    get_field "description" manifest
    = Some (JStr "Confidential artifact auction with encrypted bids and authentication") /\
    get_field "version" manifest = Some (JStr "0.1.0") /\
    files w' !! ["out"; "contracts"; "ArtifactAuction.sol"] = Some (File Sample.contract_text).
Proof.
  destruct (createExample_generates Codec.parse Codec.stringify Sample.rootDir Sample.rootDir
              10 "artifact-auction" "/out" _ Sample.contract_text "ArtifactAuction"
              (Codec.stringify Sample.manifest) Sample.fields Sample.repo eq_refl wf_repo)
    as (w' & manifest & Hrun & Hdir & Hfile & Hn & Hd & Hkeep & Htree).
  - evaluated.
  - decided.
  - evaluated.
  - apply mkdir_ok_check. decided.
  - exact apart_out.
  - apply deep_enough_out. evaluated.
  - exact contract_text_name.
  - evaluated.
  - evaluated.
  - by vm_compute.
  - intros [r Hr]. discriminate Hr.
  - exists w', manifest. split; [exact Hrun|]. split; [exact Hdir|]. split; [exact Hfile|].
    split; [exact Hn|]. split; [exact Hd|]. split.
    + etrans; [exact (Hkeep "version" ltac:(done) ltac:(done))|]. reflexivity.
    + etrans; [exact (Htree ["contracts"; "ArtifactAuction.sol"] ltac:(done) ltac:(done)
                        ltac:(done) ltac:(evaluated))|].
      evaluated.
Defined.

Lemma createExample_unknown_key_witness :
  ("sealed-auction" ∉ object_prototype) /\
  Sample.createExample 10 "sealed-auction" "/out" Sample.repo
  = Exit 1 (World (files Sample.repo)
              (console Sample.repo ++ [line Red "Error: Unknown example: sealed-auction"])).
Proof.
  assert ("sealed-auction" ∉ object_prototype) as H by decided.
  split; [exact H|].
  exact (createExample_unknown_key Codec.parse Codec.stringify Sample.rootDir Sample.rootDir
           10 "sealed-auction" "/out" Sample.repo ltac:(done) H).
Defined.

Lemma createExample_missing_source_witness :
  exists message,
    Example.createExample Codec.parse Codec.stringify ["work"] ["work"] 10
      "artifact-auction" "/out" Sample.bare
    = Exit 1 (World (files Sample.bare)
                (console Sample.bare ++ [line Red ("Error: " +:+ message)])) /\
    message = "Contract not found: contracts/ArtifactAuction.sol".
Proof.
  destruct (createExample_missing_source Codec.parse Codec.stringify ["work"] ["work"] 10
              "artifact-auction" "/out" _ Sample.bare eq_refl) as (message & Hrun & Hmessage).
  - left. evaluated.
  - exists message. split; [exact Hrun|]. etrans; [exact Hmessage|]. evaluated.
Defined.

Lemma copyDirectoryRecursive_copies_witness :
  exists w',
    Example.copyDirectoryRecursive 10 Sample.rootDir ["out"] ["scripts"] Sample.repo
    = Ret tt w' /\
    console w' = console Sample.repo /\
    CopyFacts2.copied ["scripts"] (created (files Sample.repo) ["out"]) Sample.rootDir ["out"]
      (files w').
Proof.
  assert (mkdir_ok (files Sample.repo) ["out"]) as Hok by (apply mkdir_ok_check; decided).
  apply (copyDirectoryRecursive_copies ["scripts"] 10 Sample.rootDir ["out"] Sample.repo
           wf_repo).
  - evaluated.
  - intros r. apply wf_fresh_below; [exact wf_repo|evaluated].
  - exact Hok.
  - exact apart_out.
  - intros r. apply TemplateFacts.visible_bound; [exact Hok|].
    apply deep_enough_out. evaluated.
Defined.

Lemma copyDirectoryRecursive_into_itself_witness :
  wf (files Sample.repo) /\
  returned (Example.copyDirectoryRecursive 64 Sample.rootDir (Sample.rootDir ++ ["output"])
              ["scripts"] Sample.repo) = false.
Proof.
  split; [exact wf_repo|].
  apply (copyDirectoryRecursive_into_itself ["scripts"] 64 Sample.rootDir ["output"] Sample.repo);
    [done|decided|exact wf_repo].
Defined.

Lemma scripts_only_add_witness :
  exists w1,
    Sample.createExample 10 "artifact-auction" "/out" Sample.repo = Ret tt w1 /\
    (forall p, is_Some (files Sample.repo !! p) -> is_Some (files w1 !! p)) /\
    (forall p, files Sample.repo !! p = Some Dir -> files w1 !! p = Some Dir) /\
    (wf (files Sample.repo) -> wf (files w1)).
Proof.
  destruct createExample_repo as (w1 & Hrun & _). exists w1. split; [exact Hrun|].
  apply (scripts_only_add Codec.parse Codec.stringify Sample.rootDir Sample.rootDir
           10 "artifact-auction" "/out" Sample.repo w1).
  left. exact (f_equal world_of Hrun).
Defined.

Lemma getContractName_nonempty_witness :
  Example.getContractName ["repo"; "contracts"; "ArtifactAuction.sol"] Sample.repo
  = Ret (Some "ArtifactAuction") Sample.repo /\
  Some "ArtifactAuction" <> Some "".
Proof.
  assert (Example.getContractName ["repo"; "contracts"; "ArtifactAuction.sol"] Sample.repo
          = Ret (Some "ArtifactAuction") Sample.repo) as Hrun by evaluated.
  split; [exact Hrun|].
  destruct (getContractName_nonempty _ _ _ _ Hrun) as (_ & content & _ & _ & Hne).
  exact Hne.
Defined.

Lemma updatePackageJson_outcomes_witness :
  Example.updatePackageJson Codec.parse Codec.stringify ["repo"] "artifact-auction"
    "Confidential artifact auction" Sample.repo
  = Ret tt
      (World (<[["repo"; "package.json"] :=
                  File (Codec.stringify
                          (JObj (assoc_set "description" (JStr "Confidential artifact auction")
                                   (assoc_set "name" (JStr "fhevm-artifact-auction")
                                      Sample.fields))))]> (files Sample.repo))
         (console Sample.repo)) /\
  Example.updatePackageJson Codec.parse Codec.stringify ["work"] "artifact-auction"
    "Confidential artifact auction" Sample.bare
  = Throw ENOENT Sample.bare.
Proof.
  destruct (updatePackageJson_outcomes Codec.parse Codec.stringify ["repo"] "artifact-auction"
              "Confidential artifact auction" Sample.repo) as (_ & _ & Hobject & _).
  destruct (updatePackageJson_outcomes Codec.parse Codec.stringify ["work"] "artifact-auction"
              "Confidential artifact auction" Sample.bare) as (Hmissing & _).
  split.
  - apply (Hobject (Codec.stringify Sample.manifest) Sample.fields); evaluated.
  - apply Hmissing. evaluated.
Defined.

Lemma createCategory_unknown_key_witness :
  ("games" ∉ object_prototype) /\
  exists w',
    Sample.createCategory "games" "/out" Sample.repo = Exit 1 w' /\
    files w' = files Sample.repo.
Proof.
  assert ("games" ∉ object_prototype) as H by decided.
  split; [exact H|]. eexists. split.
  - apply (createCategory_unknown_key Codec.parse Codec.stringify Sample.rootDir Sample.rootDir
             "games" "/out" Sample.repo); [decided|exact H].
  - reflexivity.
Defined.

Lemma createCategory_inherited_key_witness :
  exists w',
    Sample.createCategory "constructor" "/out" Sample.repo = Throw TypeError w' /\
    files w' !! ["out"] = Some Dir /\
    files w' !! ["out"; "examples"] = Some Dir /\
    files w' !! ["out"; "hardhat.config.ts"] = Some (File "export default {};").
Proof.
  destruct (createCategory_inherited_key Codec.parse Codec.stringify Sample.rootDir
              Sample.rootDir "constructor" "/out" Sample.repo)
    as (w' & Hrun & Hout & Hex & Htempl).
  - decided.
  - exact wf_repo.
  - evaluated.
  - apply mkdir_ok_check. decided.
  - exact repo_template_undisturbed.
  - exists w'. split; [exact Hrun|]. split; [exact Hout|]. split; [exact Hex|].
    etrans; [exact (Htempl "hardhat.config.ts" ltac:(decided))|]. evaluated.
Defined.

Lemma createCategory_project_files_witness :
  exists w' manifest,
    Sample.createCategory "basic" "/out" Sample.repo = Ret tt w' /\
    files w' !! ["out"; "README.md"]
    = Some (File (Category.generateCategoryReadme "basic"
                    {| Category.name := "Basic FHEVM Examples";
                       Category.description :=
                         "Fundamental examples demonstrating basic FHE operations";
                       Category.examples := ["counter"; "fhe-counter"] |})) /\
    files w' !! ["out"; "hardhat.config.ts"] = Some (File "export default {};") /\
    files w' !! ["out"; "tsconfig.json"] = None /\
    files w' !! ["out"; "package.json"] = Some (File (Codec.stringify manifest)) /\
    get_field "name" manifest = Some (JStr "fhevm-basic-examples").
Proof.
  destruct (createCategory_project_files Codec.parse Codec.stringify Sample.rootDir
              Sample.rootDir "basic" "/out" _ Sample.repo eq_refl wf_repo)
    as (w' & Hrun & _ & Hreadme & Htempl & Hmanifest & _).
  - evaluated.
  - apply mkdir_ok_check. decided.
  - exact (repo_sources_undisturbed "basic" _ eq_refl).
  - exact repo_manifest_parses.
  - destruct (Hmanifest (Codec.stringify Sample.manifest) Sample.fields)
      as (manifest & Hfile & Hname & _); [evaluated|evaluated|].
    exists w', manifest. split; [exact Hrun|]. split; [exact Hreadme|].
    split; [|split; [|split; [exact Hfile|exact Hname]]].
    + etrans; [exact (Htempl "hardhat.config.ts" ltac:(decided) ltac:(done))|]. evaluated.
    + etrans; [exact (Htempl "tsconfig.json" ltac:(decided) ltac:(done))|]. evaluated.
Defined.

Lemma generators_help_witness :
  Example.main Codec.parse Codec.stringify Sample.rootDir Sample.rootDir 10 ["--help"]
    Sample.repo
  = Exit 0
      (World (files Sample.repo)
         (console Sample.repo ++
          [ line Cyan ("FHEVM Example Generator" +:+ nl);
            line Reset
              ("Usage: npx ts-node scripts/create-fhevm-example.ts <name> [output-dir]"
               +:+ nl);
            line Yellow "Available examples:";
            line Green "  artifact-auction";
            line Reset
              "    Confidential artifact auction with encrypted bids and authentication" ])) /\
  Category.main Codec.parse Codec.stringify Sample.rootDir Sample.rootDir ["-h"] Sample.repo
  = Exit 0
      (World (files Sample.repo)
         (console Sample.repo ++
          [ line Cyan ("FHEVM Category Generator" +:+ nl);
            line Reset
              ("Usage: npx ts-node scripts/create-fhevm-category.ts <category> [output-dir]"
               +:+ nl);
            line Yellow "Available categories:";
            line Green "  basic";
            line Reset "    Fundamental examples demonstrating basic FHE operations";
            line Blue "    Examples: counter, fhe-counter";
            line Green "  advanced";
            line Reset "    Complex examples showing real-world applications";
            line Blue "    Examples: artifact-auction";
            line Green "  access-control";
            line Reset "    Examples demonstrating FHE access control patterns";
            line Blue "    Examples: ";
            line Green "  encryption";
            line Reset "    Examples showing encryption and decryption workflows";
            line Blue "    Examples: ";
            line Yellow (nl +:+ "Example:");
            line Reset
              ("  npx ts-node scripts/create-fhevm-category.ts basic ./output/basic-examples"
               +:+ nl) ])).
Proof.
  destruct (generators_help Codec.parse Codec.stringify Sample.rootDir Sample.rootDir 10
              ["--help"] Sample.repo) as [Hexample _].
  destruct (generators_help Codec.parse Codec.stringify Sample.rootDir Sample.rootDir 10
              ["-h"] Sample.repo) as [_ Hcategory].
  split.
  - apply Hexample. by right.
  - apply Hcategory. right. by right.
Defined.

Lemma extractTestDescriptions_without_comment_witness :
  includes "/**" "describe('Counter', function () {});" = false /\
  Docs.extractTestDescriptions ["repo"; "test"; "Counter.ts"] Sample.repo = Ret [] Sample.repo.
Proof.
  assert (includes "/**" "describe('Counter', function () {});" = false) as H by evaluated.
  split; [exact H|].
  apply (extractTestDescriptions_without_comment ["repo"; "test"; "Counter.ts"]
           "describe('Counter', function () {});" Sample.repo); [evaluated|exact H].
Defined.

Lemma generateContractDoc_returns_witness :
  exists doc,
    Docs.generateContractDoc "ArtifactAuction" ["repo"; "contracts"; "ArtifactAuction.sol"]
      ["repo"; "test"; "ArtifactAuction.ts"] Sample.repo = Ret doc Sample.repo /\
    Docs.contractDocOf "ArtifactAuction" Sample.contract_text Sample.test_text = Some doc.
Proof.
  apply (generateContractDoc_returns "ArtifactAuction"
           ["repo"; "contracts"; "ArtifactAuction.sol"] ["repo"; "test"; "ArtifactAuction.ts"]
           Sample.contract_text Sample.test_text Sample.repo); evaluated.
Defined.

Lemma generateDocumentation_with_sources_witness :
  exists w' doc,
    Sample.generateDocumentation Sample.repo = Ret tt w' /\
    Docs.contractDocOf "ArtifactAuction" Sample.contract_text Sample.test_text = Some doc /\
    files w' !! ["repo"; "docs"; "artifact-auction.md"] = Some (File doc) /\
    files w' !! ["repo"; "docs"; "api.md"] = Some (File Docs.apiDoc).
Proof.
  destruct (generateDocumentation_with_sources Codec.stringify Sample.rootDir Sample.repo
              Sample.contract_text Sample.test_text wf_repo)
    as (w' & doc & Hrun & Hdoc & _ & Hfile & Hapi & _).
  - evaluated.
  - intros c. by vm_compute.
  - by vm_compute.
  - by vm_compute.
  - by vm_compute.
  - by vm_compute.
  - evaluated.
  - evaluated.
  - exists w', doc. split; [exact Hrun|]. split; [exact Hdoc|]. split; [exact Hfile|exact Hapi].
Defined.

Lemma generateDocumentation_docs_is_file_witness :
  exists e w',
    Docs.generateDocumentation Codec.stringify ["work"] Sample.blocked = Throw e w' /\
    files w' = files Sample.blocked.
Proof.
  apply (generateDocumentation_docs_is_file Codec.stringify ["work"] Sample.blocked "notes").
  evaluated.
Defined.
